(** * SimplePose (chainercv2): the heatmap-to-keypoint decoding of
    [SimplePose.__call__], verified over a shallow embedding.

    Source: [chainer_/chainercv2/models/simplepose_coco.py].

    The embedding keeps the data of the program as the program has it:
    - heatmap values are IEEE-754 binary32 numbers ([np.float32]), taken
      from the Standard Library's executable specification [SpecFloat]
      at precision 24 and maximal exponent 128;
    - an [ndarray] is a shape together with a row-major buffer;
    - arrays live in a store and are named by locations, so that views
      ([F.reshape], [heatmap[b, k, :, :]]) alias the buffer they come from
      and [keypoints[b, k, 0] += ...] is an update in place;
    - Python exceptions are values of the result type;
    - what the libraries leave open is a parameter: the sign of a zero
      that NumPy's [max] returns among maximal zeros of both signs
      ([Reduction]), and the exceptions the constructors of Chainer's
      links raise ([construct]). *)

From Stdlib Require Import ZArith Lia List Bool.
From Stdlib Require Import Floats.SpecFloat.
From stdpp Require Import base option list gmap strings pretty.

Open Scope Z_scope.

(** ** Binary32 scalars *)

Module F32.

Definition prec : Z := 24.
Definition emax : Z := 128.

Definition add : spec_float -> spec_float -> spec_float := SFadd prec emax.
Definition sub : spec_float -> spec_float -> spec_float := SFsub prec emax.
Definition mul : spec_float -> spec_float -> spec_float := SFmul prec emax.
Definition div : spec_float -> spec_float -> spec_float := SFdiv prec emax.

Definition ltb : spec_float -> spec_float -> bool := SFltb.
Definition leb : spec_float -> spec_float -> bool := SFleb.
Definition eqb : spec_float -> spec_float -> bool := SFeqb.

(** The binary32 number nearest to [m * 2^e] (ties to even). *)
Definition of_dyadic (m e : Z) : spec_float :=
  binary_normalize prec emax m e false.

(** Conversion of an integer, as the C cast and [astype(np.float32)]
    perform it. *)
Definition of_Z (n : Z) : spec_float := of_dyadic n 0.

Definition zero : spec_float := S754_zero false.
Definition one : spec_float := S754_finite false 8388608 (-23).
Definition half : spec_float := S754_finite false 8388608 (-24).
Definition quarter : spec_float := S754_finite false 8388608 (-25).

Definition is_nan (x : spec_float) : bool :=
  match x with S754_nan => true | _ => false end.

Definition is_finite (x : spec_float) : bool :=
  match x with S754_zero _ | S754_finite _ _ _ => true | _ => false end.

Definition sign_bit (x : spec_float) : bool :=
  match x with
  | S754_zero s | S754_infinity s | S754_finite s _ _ => s
  | S754_nan => false
  end.

(** C truth value of a float: [if (x)] holds unless [x == 0]. *)
Definition nonzero (x : spec_float) : bool := negb (eqb x zero).

(** [copysign(0, x)] *)
Definition copysign_zero (x : spec_float) : spec_float :=
  S754_zero (sign_bit x).

(** [floor]: the largest integral value not above [x]. *)
Definition floor (x : spec_float) : spec_float :=
  match x with
  | S754_finite s m e =>
      if 0 <=? e then x
      else binary_normalize prec emax
             (Z.shiftr (cond_Zopp s (Z.pos m)) (- e)) 0 s
  | _ => x
  end.

(** C [fmod]: the exact remainder of the truncated division, with the
    sign of the dividend. *)
Definition fmod (x y : spec_float) : spec_float :=
  match x, y with
  | S754_nan, _ | _, S754_nan => S754_nan
  | S754_infinity _, _ => S754_nan
  | _, S754_zero _ => S754_nan
  | S754_zero _, _ => x
  | S754_finite _ _ _, S754_infinity _ => x
  | S754_finite sx mx ex, S754_finite _ my ey =>
      let ez := Z.min ex ey in
      let a := Z.pos (fst (shl_align mx ex ez)) in
      let b := Z.pos (fst (shl_align my ey ez)) in
      binary_normalize prec emax (cond_Zopp sx (Z.rem a b)) ez sx
  end.

(** Truncation to an integer; [None] where the value has none
    (infinities and NaN). *)
Definition trunc (x : spec_float) : option Z :=
  match x with
  | S754_zero _ => Some 0
  | S754_finite s m e =>
      Some (cond_Zopp s
              (if 0 <=? e then Z.shiftl (Z.pos m) e
               else Z.shiftr (Z.pos m) (- e)))
  | _ => None
  end.

End F32.

Abbreviation f32 := spec_float.

(** ** NumPy scalar kernels on binary32 *)

(** [np.sign]: [x > 0 ? 1 : (x < 0 ? -1 : (x == 0 ? 0 : x))]. *)
Definition np_sign (x : f32) : f32 :=
  if F32.ltb F32.zero x then F32.one
  else if F32.ltb x F32.zero then SFopp F32.one
  else if F32.eqb x F32.zero then F32.zero
  else x.

(** NumPy's [npy_divmod] for floats: the floored quotient and the
    remainder with the sign of the divisor. *)
Definition npy_divmod (a b : f32) : f32 * f32 :=
  let mod0 := F32.fmod a b in
  if negb (F32.nonzero b) then (F32.div a b, mod0)
  else
    let div0 := F32.div (F32.sub a mod0) b in
    let '(mod1, div1) :=
      if F32.nonzero mod0 then
        if negb (Bool.eqb (F32.ltb b F32.zero) (F32.ltb mod0 F32.zero))
        then (F32.add mod0 b, F32.sub div0 F32.one)
        else (mod0, div0)
      else (F32.copysign_zero b, div0) in
    let floordiv :=
      if F32.nonzero div1 then
        let fl := F32.floor div1 in
        if F32.ltb F32.half (F32.sub div1 fl) then F32.add fl F32.one else fl
      else F32.copysign_zero (F32.div a b) in
    (floordiv, mod1).

(** [a % b] on float arrays *)
Definition np_remainder (a b : f32) : f32 :=
  if negb (F32.nonzero b) then F32.fmod a b else snd (npy_divmod a b).

(** [a // b] on float arrays *)
Definition np_floor_divide (a b : f32) : f32 :=
  if negb (F32.nonzero b) then F32.div a b else fst (npy_divmod a b).

(** The loop of NumPy's [argmax] over floats: the running maximum [mp]
    is replaced by a later element only if that element is not [<= mp];
    a NaN is maximal and ends the scan. *)
Fixpoint argmax_loop (mp : f32) (max_ind : Z) (i : Z) (ip : list f32) : Z :=
  match ip with
  | [] => max_ind
  | v :: ip' =>
      if negb (F32.leb v mp) then
        if F32.is_nan v then i else argmax_loop v i (i + 1) ip'
      else argmax_loop mp max_ind (i + 1) ip'
  end.

(** [None] stands for the [ValueError] on an empty sequence. *)
Definition np_argmax (l : list f32) : option Z :=
  match l with
  | [] => None
  | v :: ip => Some (if F32.is_nan v then 0 else argmax_loop v 0 1 ip)
  end.

(** [np.maximum]: [(a >= b || isnan(a)) ? a : b] *)
Definition np_maximum (a b : f32) : f32 :=
  if F32.leb b a || F32.is_nan a then a else b.

(** The scalar loop of the reduction: [np.maximum] from left to right. *)
Definition scalar_max (l : list f32) : option f32 :=
  match l with
  | [] => None
  | v :: ip => Some (fold_left np_maximum ip v)
  end.

(** NumPy reduces [max] over SIMD lanes where the build has them, so
    which of two maximal zeros of opposite sign it returns depends on
    the build and on where the zeros are. That choice is a parameter of
    the model: [zero_sign l] is the sign bit of the zero returned for [l]. *)
Class Reduction := zero_sign : list f32 -> bool.

(** Does [l] hold a zero of sign bit [s]? *)
Definition has_zero (s : bool) (l : list f32) : bool :=
  existsb (fun v => match v with
                    | S754_zero s' => Bool.eqb s s'
                    | _ => false
                    end) l.

(** [max]: the value of the scalar loop, except that among maximal
    zeros of both signs the build chooses. *)
Definition np_max `{!Reduction} (l : list f32) : option f32 :=
  match scalar_max l with
  | None => None
  | Some m =>
      Some (match m with
            | S754_zero _ =>
                if has_zero true l && has_zero false l
                then S754_zero (zero_sign l)
                else m
            | _ => m
            end)
  end.

(** ** Arrays, the store and exceptions *)

(** An [ndarray] in C order: its shape and its buffer. *)
Record ndarray := NDArray { shape : list Z; data : list f32 }.

(** Number of elements of an array of shape [shp]. *)
Definition size (shp : list Z) : Z := foldr Z.mul 1 shp.

(** What NumPy guarantees of every array: non-negative dimensions and a
    buffer of [size shape] elements, a number that fits [npy_intp]. *)
Definition nd_valid (a : ndarray) : Prop :=
  Forall (fun d => 0 <= d) (shape a) /\
  Z.of_nat (length (data a)) = size (shape a) /\
  size (shape a) < 2 ^ 63.

(** The exception classes the decoding can raise. *)
Inductive exn := IndexError | ValueError | OverflowError | InvalidType | AssertionError.

Inductive result (A : Type) : Type :=
| Returned (a : A)
| Raised (e : exn).
Arguments Returned {A} a.
Arguments Raised {A} e.

Abbreviation loc := positive.
Abbreviation store := (gmap positive ndarray).

(** Computations that read and write the store and may raise. *)
Definition M (A : Type) : Type := store -> result A * store.

Definition ret {A} (a : A) : M A := fun s => (Returned a, s).
Definition raise {A} (e : exn) : M A := fun s => (Raised e, s).
Definition bind {A B} (m : M A) (k : A -> M B) : M B :=
  fun s => match m s with
           | (Returned a, s') => k a s'
           | (Raised e, s') => (Raised e, s')
           end.
Definition lift {A} (r : result A) : M A := fun s => (r, s).

Notation "x <- m ;; k" := (bind m (fun x => k))
  (at level 100, m at next level, right associativity).
Notation "m ;;; k" := (bind m (fun _ => k))
  (at level 100, right associativity).

(** The array a name refers to. *)
Definition load (l : loc) : M ndarray :=
  fun s => match s !! l with
           | Some a => (Returned a, s)
           | None => (Raised ValueError, s)
           end.

(** A new array object. *)
Definition alloc (a : ndarray) : M loc :=
  fun s => let l := fresh (dom s) in (Returned l, <[l := a]> s).

(** [for x in xs: body(x)] *)
Fixpoint for_each {A} (xs : list A) (body : A -> M unit) : M unit :=
  match xs with
  | [] => ret tt
  | x :: xs' => body x ;;; for_each xs' body
  end.

(** [range(n)] *)
Definition range (n : Z) : list Z := seqZ 0 n.

(** Integer indexing [a[i0, i1, ...]] with a prefix of indices: the flat
    position of the selected sub-array, counted in sub-arrays, and the
    sub-array's shape. Negative indices count from the end. *)
Fixpoint index_offset (shp idxs : list Z) (acc : Z) {struct idxs}
  : result (Z * list Z) :=
  match idxs with
  | [] => Returned (acc, shp)
  | i :: idxs' =>
      match shp with
      | [] => Raised IndexError
      | d :: shp' =>
          let i' := if i <? 0 then i + d else i in
          if (0 <=? i') && (i' <? d)
          then index_offset shp' idxs' (acc * d + i')
          else Raised IndexError
      end
  end.

(** The elements of [a[i0, i1, ...]], in order. *)
Definition get_item (a : ndarray) (idxs : list Z) : result (list f32) :=
  match index_offset (shape a) idxs 0 with
  | Returned (off, rest) =>
      Returned (take (Z.to_nat (size rest))
                  (drop (Z.to_nat (off * size rest)) (data a)))
  | Raised e => Raised e
  end.

(** [a[b, k, :, :]]: two integer indices followed by two full slices,
    which need two more axes. *)
Definition check_view (a : ndarray) (b k : Z) : result unit :=
  match index_offset (shape a) [b; k] 0 with
  | Returned (_, rest) =>
      if (2 <=? length rest)%nat then Returned tt else Raised IndexError
  | Raised e => Raised e
  end.

(** [a[i] += v] on the flat buffer of the array named [l]; [v] is the
    buffer of the right-hand side, which has to hold one element. *)
Definition iadd (l : loc) (i : Z) (v : list f32) : M unit :=
  a <- load l ;;
  match v, data a !! Z.to_nat i with
  | [x], Some old =>
      fun s => (Returned tt,
                <[l := NDArray (shape a) (<[Z.to_nat i := F32.add old x]> (data a))]> s)
  | _, _ => raise ValueError
  end.

(** Python's [int(x)] on a float. *)
Definition py_int (x : f32) : result Z :=
  match F32.trunc x with
  | Some n => Returned n
  | None => Raised (if F32.is_nan x then ValueError else OverflowError)
  end.

(** ** The model class *)

(** The attributes of a [SimplePose] object that [__call__] reads. *)
Record SimplePose := {
  in_size : Z * Z;
  keypoints : Z;
  return_heatmap : bool;
  out_size : Z * Z
}.

(** [SimplePose.__init__]: the attributes are fixed here;
    [out_size = (in_size[0] // 4, in_size[1] // 4)]. *)
Definition SimplePose_init (return_heatmap : bool) (in_size : Z * Z)
    (keypoints : Z) : SimplePose :=
  {| in_size := in_size;
     keypoints := keypoints;
     return_heatmap := return_heatmap;
     out_size := (fst in_size / 4, snd in_size / 4) |}.

(** ** Array-level steps of the decoding *)

(** [F.reshape(heatmap, shape=(batch, keypoints, -1))]: the inferred
    last dimension. Chainer's type check compares the size with the
    product of the positive entries of the new shape; NumPy then refuses
    to infer the dimension when the known ones multiply to zero. *)
Definition reshape_infer (shp : list Z) (batch kp : Z) : result Z :=
  if kp <? 0 then Raised AssertionError
  else
    let known_size :=
      (if 0 <? batch then batch else 1) * (if 0 <? kp then kp else 1) in
    if negb (size shp mod known_size =? 0) then Raised InvalidType
    else if batch * kp =? 0 then Raised ValueError
    else Returned (size shp / (batch * kp)).

(** The rows [heatmap_vector[b, k, :]] of the reshaped view, in the
    order of the buffer: row [j] is [buf[j * n : (j + 1) * n]]. *)
Definition rows (n count : Z) (buf : list f32) : list (list f32) :=
  (fun j => take (Z.to_nat n) (drop (Z.to_nat (j * n)) buf)) <$> range count.

(** A reduction along the last axis raises [ValueError] on empty rows. *)
Fixpoint reduce_axis {A} (f : list f32 -> option A) (rs : list (list f32))
  : result (list A) :=
  match rs with
  | [] => Returned []
  | r :: rs' =>
      match f r with
      | None => Raised ValueError
      | Some x =>
          match reduce_axis f rs' with
          | Returned xs => Returned (x :: xs)
          | Raised e => Raised e
          end
      end
  end.

(** [ndarray.astype(numpy.int32)] on an index: the low 32 bits, read as
    a signed number. *)
Definition astype_int32 (z : Z) : Z := (z + 2 ^ 31) mod 2 ^ 32 - 2 ^ 31.

(** [F.argmax] on one row: NumPy's [argmax], whose result Chainer casts
    to [int32]. *)
Definition F_argmax (row : list f32) : option Z := astype_int32 <$> np_argmax row.

(** [F.concat((xs, ys, zs), axis=2)] of three arrays of shape
    [(batch, keypoints, 1)]: the buffer of the [(batch, keypoints, 3)]
    array. *)
Fixpoint concat3 (xs ys zs : list f32) : list f32 :=
  match xs, ys, zs with
  | x :: xs', y :: ys', z :: zs' => x :: y :: z :: concat3 xs' ys' zs'
  | _, _, _ => []
  end.

(** Element [i] of a flat buffer. *)
Definition item (buf : list f32) (i : Z) : result f32 :=
  match buf !! Z.to_nat i with
  | Some v => Returned v
  | None => Raised IndexError
  end.

(** [keypoints[pos] += np.sign(heatmap[hi] - heatmap[lo]) * 0.25] *)
Definition refine_axis (heatmap keypoints_arr : loc) (hi lo : list Z)
    (pos : Z) : M unit :=
  a <- load heatmap ;;
  vhi <- lift (get_item a hi) ;;
  vlo <- lift (get_item a lo) ;;
  iadd keypoints_arr pos
    ((fun d => F32.mul (np_sign d) F32.quarter) <$> zip_with F32.sub vhi vlo).

(** The body of the loops over [b] and [k]. *)
Definition refine_slot (self : SimplePose) (heatmap keypoints_arr : loc)
    (keys_x keys_y : list f32) (b k : Z) : M unit :=
  a <- load heatmap ;;
  lift (check_view a b k) ;;;
  kx <- lift (item keys_x (b * keypoints self + k)) ;;
  px <- lift (py_int kx) ;;
  ky <- lift (item keys_y (b * keypoints self + k)) ;;
  py <- lift (py_int ky) ;;
  if ((1 <? px) && (px <? snd (out_size self) - 1))
     && ((1 <? py) && (py <? fst (out_size self) - 1))
  then
    refine_axis heatmap keypoints_arr [b; k; py; px + 1] [b; k; py; px - 1]
      ((b * keypoints self + k) * 3 + 0) ;;;
    refine_axis heatmap keypoints_arr [b; k; py + 1; px] [b; k; py - 1; px]
      ((b * keypoints self + k) * 3 + 1)
  else ret tt.

(** [scores_mask = (scores.array > 0.0).astype(np.float32)] *)
Definition score_mask (score : f32) : f32 :=
  if F32.ltb F32.zero score then F32.one else F32.zero.

(** [keys_x = (indices.array % self.out_size[1]) * scores_mask] and
    [keys_y = (indices.array // self.out_size[1]) * scores_mask],
    elementwise. *)
Definition key_x (w : Z) (index mask : f32) : f32 :=
  F32.mul (np_remainder index (F32.of_Z w)) mask.
Definition key_y (w : Z) (index mask : f32) : f32 :=
  F32.mul (np_floor_divide index (F32.of_Z w)) mask.

(** The decoding of [SimplePose.__call__]: everything after the
    [return_heatmap] test. The result names the new [keypoints] array. *)
Definition decode_heatmap `{!Reduction} (self : SimplePose) (heatmap : loc)
  : M loc :=
  a <- load heatmap ;;
  batch <- lift (match shape a with
                 | d :: _ => Returned d
                 | [] => Raised IndexError
                 end) ;;
  n <- lift (reshape_infer (shape a) batch (keypoints self)) ;;
  let heatmap_vector := rows n (batch * keypoints self) (data a) in
  indices <- lift (reduce_axis F_argmax heatmap_vector) ;;
  let indices := F32.of_Z <$> indices in
  scores <- lift (reduce_axis np_max heatmap_vector) ;;
  let scores_mask := score_mask <$> scores in
  let keys_x := zip_with (key_x (snd (out_size self))) indices scores_mask in
  let keys_y := zip_with (key_y (snd (out_size self))) indices scores_mask in
  keypoints_arr <- alloc (NDArray [batch; keypoints self; 3]
                            (concat3 keys_x keys_y scores)) ;;
  for_each (range batch) (fun b =>
    for_each (range (keypoints self)) (fun k =>
      refine_slot self heatmap keypoints_arr keys_x keys_y b k)) ;;;
  ret keypoints_arr.

Section Network.

Context `{!Reduction}.

(** The learned stages are opaque: each maps the name of its input to
    the name of its output and may allocate or raise. *)
Variables backbone decoder final_block : loc -> M loc.

(** [SimplePose.__call__] *)
Definition SimplePose_call (self : SimplePose) (x : loc) : M loc :=
  x <- backbone x ;;
  x <- decoder x ;;
  heatmap <- final_block x ;;
  if return_heatmap self then ret heatmap
  else decode_heatmap self heatmap.

End Network.

(** * Specification-level definitions *)

(** ** Order and size of binary32 numbers *)

(** [SFcompare] orders the numbers other than NaN lexicographically by
    class, exponent and mantissa; [order_key] makes that explicit. *)
Definition order_key (x : f32) : Z * Z * Z :=
  match x with
  | S754_infinity true => (-2, 0, 0)
  | S754_finite true m e => (-1, - e, - Z.pos m)
  | S754_zero _ => (0, 0, 0)
  | S754_nan => (0, 0, 0)
  | S754_finite false m e => (1, e, Z.pos m)
  | S754_infinity false => (2, 0, 0)
  end.

Definition key_lt (p q : Z * Z * Z) : Prop :=
  let '(c1, e1, m1) := p in
  let '(c2, e2, m2) := q in
  c1 < c2 \/ (c1 = c2 /\ (e1 < e2 \/ (e1 = e2 /\ m1 < m2))).

Definition key_le (p q : Z * Z * Z) : Prop := key_lt p q \/ p = q.

(** What NumPy's [argmax] returns: the position of the first NaN if
    there is one, and otherwise the first position of the maximum. *)
Definition argmax_post (l : list f32) (i : nat) : Prop :=
  exists v, l !! i = Some v /\
    (forall j w, (j < i)%nat -> l !! j = Some w ->
       F32.is_nan w = false /\ (F32.is_nan v = true \/ F32.ltb w v = true)) /\
    (F32.is_nan v = true \/ forall j w, l !! j = Some w -> F32.leb w v = true).

Definition digits (p : positive) : Z := Z.pos (digits2_pos p).

(** Mantissa and exponent of the binary32 number of a positive integer
    of at most 24 bits. *)
Definition int_mant (n : positive) : positive :=
  Z.to_pos (Z.pos n * 2 ^ (24 - digits n)).

Definition int_exp (n : positive) : Z := digits n - 24.

(** The same number: equal, or zeros that differ in sign at most. *)
Definition same_number (v s : f32) : Prop :=
  s = v \/ exists b b', v = S754_zero b /\ s = S754_zero b'.

(** ** What the decoding computes for one slice *)

(** Position and value of the peak of a slice. *)
Definition slot_index (row : list f32) : Z := default 0 (np_argmax row).

Definition slot_score `{!Reduction} (row : list f32) : f32 :=
  default F32.zero (np_max row).

(** The entries of [keys_x] and [keys_y] for a slice: the index is the
    [int32] that [F.argmax] returns, cast to binary32. *)
Definition slot_key_x `{!Reduction} (w : Z) (row : list f32) : f32 :=
  key_x w (F32.of_Z (astype_int32 (slot_index row))) (score_mask (slot_score row)).

Definition slot_key_y `{!Reduction} (w : Z) (row : list f32) : f32 :=
  key_y w (F32.of_Z (astype_int32 (slot_index row))) (score_mask (slot_score row)).

(** [hm[r, c]] on a slice of width [w]. *)
Definition hm_at (w : Z) (row : list f32) (r c : Z) : f32 :=
  default F32.zero (row !! Z.to_nat (r * w + c)).

(** [np.sign(hi - lo) * 0.25] *)
Definition offset (hi lo : f32) : f32 :=
  F32.mul (np_sign (F32.sub hi lo)) F32.quarter.

(** [(1 < px < w - 1) and (1 < py < h - 1)] *)
Definition interior (h w px py : Z) : bool :=
  ((1 <? px) && (px <? w - 1)) && ((1 <? py) && (py <? h - 1)).

(** The position [(px, py)] the loops read for a slice. *)
Definition slot_px `{!Reduction} (w : Z) (row : list f32) : Z :=
  default 0 (F32.trunc (slot_key_x w row)).

Definition slot_py `{!Reduction} (w : Z) (row : list f32) : Z :=
  default 0 (F32.trunc (slot_key_y w row)).

(** The coordinates the decoding leaves in the slot of a slice. *)
Definition slot_x `{!Reduction} (h w : Z) (row : list f32) : f32 :=
  let px := slot_px w row in
  let py := slot_py w row in
  if interior h w px py
  then F32.add (slot_key_x w row)
         (offset (hm_at w row py (px + 1)) (hm_at w row py (px - 1)))
  else slot_key_x w row.

Definition slot_y `{!Reduction} (h w : Z) (row : list f32) : f32 :=
  let px := slot_px w row in
  let py := slot_py w row in
  if interior h w px py
  then F32.add (slot_key_y w row)
         (offset (hm_at w row (py + 1) px) (hm_at w row (py - 1) px))
  else slot_key_y w row.

(** The three numbers of the slot of a slice: [x], [y], [score]. *)
Definition slot_record `{!Reduction} (h w : Z) (row : list f32) : list f32 :=
  [slot_x h w row; slot_y h w row; slot_score row].

(** The slot as first assembled by [F.concat], before the loops. *)
Definition slot_initial `{!Reduction} (w : Z) (row : list f32) : list f32 :=
  [slot_key_x w row; slot_key_y w row; slot_score row].

(** ** Magnitudes *)

(** The number is finite and below [2^M] in magnitude. *)
Definition bounded (M : Z) (x : f32) : Prop :=
  match x with
  | S754_zero _ => True
  | S754_finite _ m e => digits m + e <= M
  | _ => False
  end.

(** The number is finite and at least [1] in magnitude. *)
Definition at_least_one (x : f32) : Prop :=
  match x with
  | S754_finite _ m e => 1 <= digits m + e
  | _ => False
  end.

(** ** Heatmaps, slices and effects *)

(** The heatmap fits the model: a valid four-dimensional array of
    [keypoints] channels on the configured output grid. *)
Definition well_shaped (self : SimplePose) (a : ndarray) (B K H W : Z) : Prop :=
  nd_valid a /\ shape a = [B; K; H; W] /\
  0 < B /\ 0 < K /\ 0 < H /\ 0 < W /\
  keypoints self = K /\ out_size self = (H, W).

(** The slice [heatmap[b, k, :, :]], flattened in row-major order. *)
Definition slice (a : ndarray) (K H W b k : Z) : list f32 :=
  take (Z.to_nat (H * W)) (drop (Z.to_nat ((b * K + k) * (H * W))) (data a)).

(** The computation changes no array other than the one named [l0]. *)
Definition writes_only (l0 : loc) {A} (m : M A) : Prop :=
  forall (s : store) (l : loc), l <> l0 -> snd (m s) !! l = s !! l.

(** ** Concrete heatmaps *)

(** A model for 20x20 images and two keypoints: the output grid is 5x5. *)
Definition model5 : SimplePose := SimplePose_init false (20, 20) 2.

(** One batch element, two keypoints. Channel 0 has a single interior
    peak with unequal horizontal neighbours; channel 1 is nowhere
    positive. *)
Definition heatmap5 : ndarray :=
  NDArray [1; 2; 5; 5]
    (F32.of_Z <$> [0; 0; 0; 0; 0;
                   0; 0; 1; 0; 0;
                   0; 1; 5; 3; 0;
                   0; 0; 1; 0; 0;
                   0; 0; 0; 0; 0;
                   -1; -1; -1; -1; -1;
                   -1; -2; -1; -1; -1;
                   -1; -1; -1; -3; -1;
                   -1; -1; -1; -1; -1;
                   -1; -1; -1; -1; -1]).

Definition store5 : store := {[ 1%positive := heatmap5 ]}.

(** The same heatmap under another name, next to an unrelated array. *)
Definition store5' : store :=
  {[ 1%positive := NDArray [2] [F32.one; F32.half]; 7%positive := heatmap5 ]}.

(** A slice with a positive peak between neighbours that are all minus
    infinity. *)
Definition heatmap_inf : ndarray :=
  NDArray [1; 1; 5; 5]
    ((fun c : Z => if c =? 0 then F32.zero
                   else if c =? 1 then F32.one
                   else S754_infinity true)
       <$> [0; 0; 0; 0; 0;
            0; 0; 2; 0; 0;
            0; 2; 1; 2; 0;
            0; 0; 2; 0; 0;
            0; 0; 0; 0; 0]).

Definition model_inf : SimplePose := SimplePose_init false (20, 20) 1.

(** A slice that is zero except for a one at position [n]. *)
Definition peak_data (n m : nat) : list f32 :=
  replicate n F32.zero ++ F32.one :: replicate m F32.zero.

(** A heatmap of shape (1, 1, 4100, 4096) that is zero except for a one
    at flat position [n], and the model whose output grid it fits. *)
Definition peak_heatmap (n m : nat) : ndarray :=
  NDArray [1; 1; 4100; 4096] (peak_data n m).

Definition model_big : SimplePose := SimplePose_init false (16400, 16384) 1.

(** A peak at flat position 16777219 = 4096 * 4096 + 3: row 4096,
    column 3 of a 4100 x 4096 slice, an interior cell. *)
Definition n_c1 : nat := Z.to_nat 16777219.

Definition m_c1 : nat := Z.to_nat 16380.

Definition heatmap_c1 : ndarray := peak_heatmap n_c1 m_c1.







(** A peak in the last cell of a 4100 x 4096 slice, flat position
    16793599. *)
Definition n_c10 : nat := Z.to_nat 16793599.

Definition heatmap_c10 : ndarray := peak_heatmap n_c10 0.

(** A tensor with three axes, one with five, and a model for both. *)
Definition model4 : SimplePose := SimplePose_init false (4, 4) 1.

Definition tensor3 : ndarray :=
  NDArray [1; 1; 4] [F32.zero; F32.one; F32.zero; F32.zero].

Definition tensor5 : ndarray := NDArray [1; 1; 1; 1; 1] [F32.zero].

(** Two copies of [heatmap5] stacked along the batch axis. *)
Definition heatmap5_pair : ndarray :=
  NDArray [2; 2; 5; 5] (data heatmap5 ++ data heatmap5).

(** Three channels for a model of two keypoints. *)
Definition heatmap_odd : ndarray := NDArray [1; 3; 5; 5] (replicate 75 F32.one).

(** The two channels of [heatmap5] in the other order. *)
Definition heatmap5_rev : ndarray :=
  NDArray [1; 2; 5; 5] (drop 25 (data heatmap5) ++ take 25 (data heatmap5)).



Definition heatmap_wide : ndarray :=
  NDArray [1; 1; 3; 10]
    (F32.of_Z <$> [0; 0; 0; 0; 0; 0; 0; 0; 0; 0;
                   0; 0; 5; 0; 0; 0; 0; 0; 0; 0;
                   0; 0; 0; 0; 0; 0; 0; 0; 0; 0]).

(** The peak 9 is at row 3, column 4; its right neighbour is 1. *)
Definition heatmap8 : ndarray :=
  NDArray [1; 1; 8; 8]
    (F32.of_Z <$> [0; 0; 0; 0; 0; 0; 0; 0;
                   0; 0; 0; 0; 0; 0; 0; 0;
                   0; 0; 0; 0; 0; 0; 0; 0;
                   0; 0; 0; 0; 9; 1; 0; 0;
                   0; 0; 0; 0; 0; 0; 0; 0;
                   0; 0; 0; 0; 0; 0; 0; 0;
                   0; 0; 0; 0; 0; 0; 0; 0;
                   0; 0; 0; 0; 0; 0; 0; 0]).

(** A 5x5 slice of ones with a NaN in the middle, and a 3x5 slice of
    zeros with plus infinity in the middle. *)
Definition heatmap_nan : ndarray :=
  NDArray [1; 1; 5; 5]
    ((fun c : Z => if c =? 0 then F32.one else S754_nan)
       <$> [0; 0; 0; 0; 0;
            0; 0; 0; 0; 0;
            0; 0; 1; 0; 0;
            0; 0; 0; 0; 0;
            0; 0; 0; 0; 0]).

Definition heatmap_short_inf : ndarray :=
  NDArray [1; 1; 3; 5]
    ((fun c : Z => if c =? 0 then F32.zero else S754_infinity false)
       <$> [0; 0; 0; 0; 0;
            0; 0; 0; 0; 0;
            0; 0; 1; 0; 0]).

(** The build the concrete runs are evaluated on: of maximal zeros of
    both signs its reduction returns the positive one. *)
#[global] Instance example_build : Reduction := fun _ => false.

(** * The network around the decoding *)

(** ** Links and the errors of the construction code *)

(** Besides the exceptions of the libraries, the construction code can
    meet Python's [AttributeError]. *)
Inductive py_exn := AttributeError | Library (e : exn).

(** A value, or the exception raised instead. *)
Definition attempt (A : Type) : Type := py_exn + A.

Definition and_then {A B} (m : attempt A) (k : A -> attempt B) : attempt B :=
  match m with
  | inl e => inl e
  | inr a => k a
  end.

Notation "x <~ m ;; k" := (and_then m (fun x => k))
  (at level 100, m at next level, right associativity).

(** The [activation] argument of a block: a function returning the
    activation, as the default [lambda: F.relu], or the name of one. *)
Inductive activation := lambda_relu | activation_name (name : string).

(** A link is represented by the call that constructs it. The float
    [bn_eps] is kept as the decimal literal [m * 10^e]. *)
Inductive link :=
| Deconvolution2D (in_channels out_channels ksize stride pad : Z)
    (nobias : bool) (dilate groups : Z)
| BatchNormalization (size : Z) (eps : Z * Z)
| get_activation_layer (a : activation)
| conv1x1 (in_channels out_channels : Z) (use_bias : bool).

(** Reading an attribute that may not have been set. *)
Definition getattr {A} (o : option A) : attempt A :=
  match o with
  | Some v => inr v
  | None => inl AttributeError
  end.

(** ** [DeconvBlock] *)

(** The attributes of a [DeconvBlock]; [bn] and [activ] exist only if
    [__init__] created them. *)
Record DeconvBlock := {
  activate : bool;
  use_bn : bool;
  conv : link;
  bn : option link;
  activ : option link
}.

(** The object [DeconvBlock.__init__] sets up; [activation] is [None]
    for Python's [None]. *)
Definition DeconvBlock_init (in_channels out_channels ksize stride pad
    dilate groups : Z) (use_bias use_bn : bool) (bn_eps : Z * Z)
    (activation : option activation) : DeconvBlock :=
  let activate := bool_decide (is_Some activation) in
  {| activate := activate;
     use_bn := use_bn;
     conv := Deconvolution2D in_channels out_channels ksize stride pad
               (negb use_bias) dilate groups;
     bn := if use_bn then Some (BatchNormalization out_channels bn_eps) else None;
     activ := if activate then get_activation_layer <$> activation else None |}.

(** [DeconvBlock(in_channels, out_channels, ksize, stride, pad)] with the
    defaults [dilate=1], [groups=1], [use_bias=False], [use_bn=True],
    [bn_eps=1e-5] and [activation=(lambda: F.relu)]. *)
Definition DeconvBlock_default (in_channels out_channels ksize stride pad : Z)
  : DeconvBlock :=
  DeconvBlock_init in_channels out_channels ksize stride pad 1 1 false true (1, -5)
    (Some lambda_relu).

(** [DeconvBlock.__call__], for any way [run] of applying a link. *)
Definition DeconvBlock_call {T} (run : link -> T -> attempt T)
    (self : DeconvBlock) (x : T) : attempt T :=
  x <~ run (conv self) x ;;
  x <~ (if use_bn self
        then (l <~ getattr (bn self) ;; run l x)
        else inr x) ;;
  x <~ (if activate self
        then (l <~ getattr (activ self) ;; run l x)
        else inr x) ;;
  inr x.

(** ** [SimplePose.__init__] *)

(** Modelled from the spec: [SimpleSequential] is defined in [common.py];
    the decoder is the sequence of its blocks, kept here with the names
    they are registered under, in the order of registration. *)
Definition sequential (A : Type) : Type := list (string * A).

(** [setattr(seq, name, value)] inside [init_scope]: the link is
    registered under [name], which must not be taken. *)
Definition register {A} (seq : sequential A) (name : string) (value : A)
  : attempt (sequential A) :=
  if bool_decide (name ∈ seq.*1) then inl AttributeError
  else inr (seq ++ [(name, value)]).

(** [del seq.name] *)
Definition delattr {A} (seq : sequential A) (name : string)
  : attempt (sequential A) :=
  if bool_decide (name ∈ seq.*1)
  then inr (filter (fun p => p.1 <> name) seq)
  else inl AttributeError.

(** Calling a sequence applies its members in order. *)
Definition sequential_call {A T} (call : A -> T -> attempt T)
    (seq : sequential A) (x : T) : attempt T :=
  foldl (fun acc p => y <~ acc ;; call p.2 y) (inr x) seq.

(** A [SimplePose] object: the attributes [__call__] reads and the
    three stages. *)
Record SimplePoseNet (Backbone : Type) := {
  attributes : SimplePose;
  backbone : Backbone;
  decoder : sequential DeconvBlock;
  final_block : link
}.
Arguments attributes {Backbone} _.
Arguments backbone {Backbone} _.
Arguments decoder {Backbone} _.
Arguments final_block {Backbone} _.

Section Construction.

(** The constructors of Chainer's links are defined in the library. They
    raise on arguments they refuse, such as a negative number of
    channels: [construct l] is the exception the call [l] raises, if it
    raises. *)
Variable construct : link -> option py_exn.

(** Evaluating the constructor calls [ls] in order. *)
Fixpoint new_links (ls : list link) : attempt unit :=
  match ls with
  | [] => inr tt
  | l :: ls' =>
      match construct l with
      | Some e => inl e
      | None => new_links ls'
      end
  end.

(** [DeconvBlock(...)]: [__init__] constructs [conv], then [bn] if
    [use_bn], then [activ] unless [activation] is [None]. *)
Definition DeconvBlock_new (in_channels out_channels ksize stride pad
    dilate groups : Z) (use_bias use_bn : bool) (bn_eps : Z * Z)
    (activation : option activation) : attempt DeconvBlock :=
  let self := DeconvBlock_init in_channels out_channels ksize stride pad
                dilate groups use_bias use_bn bn_eps activation in
  _ <~ new_links (conv self :: option_list (bn self) ++ option_list (activ self)) ;;
  inr self.

(** The loop [for i, out_channels in enumerate(channels)], from index
    [i] on: it builds a block with the default arguments, registers it
    as ["unit{i+1}"] and carries [in_channels] along. *)
Fixpoint decoder_units (i : Z) (in_channels : Z) (channels : list Z)
    (seq : sequential DeconvBlock) : attempt (Z * sequential DeconvBlock) :=
  match channels with
  | [] => inr (in_channels, seq)
  | out_channels :: channels' =>
      block <~ DeconvBlock_new in_channels out_channels 4 2 1 1 1 false true (1, -5)
                 (Some lambda_relu) ;;
      seq' <~ register seq ("unit" +:+ pretty (i + 1)) block ;;
      decoder_units (i + 1) out_channels channels' seq'
  end.

(** [SimplePose.__init__] *)
Definition SimplePose_new {Backbone} (backbone : Backbone)
    (backbone_out_channels : Z) (channels : list Z) (return_heatmap : bool)
    (in_channels : Z) (in_size : Z * Z) (keypoints : Z)
  : attempt (SimplePoseNet Backbone) :=
  if negb (in_channels =? 3) then inl (Library AssertionError)
  else
    r <~ decoder_units 0 backbone_out_channels channels [] ;;
    _ <~ new_links [conv1x1 r.1 keypoints true] ;;
    inr {| attributes := SimplePose_init return_heatmap in_size keypoints;
           backbone := backbone;
           decoder := r.2;
           final_block := conv1x1 r.1 keypoints true |}.

End Construction.

(** ** [get_simplepose] and the named models *)

(** The keyword arguments [get_simplepose] passes on to [SimplePose]. *)
Record kwargs := {
  kw_return_heatmap : option bool;
  kw_in_channels : option Z;
  kw_in_size : option (Z * Z)
}.

(** The keyword arguments of the named models: those of
    [get_simplepose] and those it passes on. *)
Record model_kwargs := {
  kw_pretrained : option bool;
  kw_root : option string;
  kw_net : kwargs
}.

(** [os.path.join("~", ".chainer", "models")] *)
Definition default_root : string := "~/.chainer/models".

(** Python's truth value of a string. *)
Definition str_bool (s : string) : bool := negb (String.eqb s "").

Section Model_store.

(** The stages of a backbone are opaque; the model store and the
    backbones are defined in other files and are taken as given. *)
Context {Stage : Type}.
Variable construct : link -> option py_exn.
Variable get_model_file : string -> string -> attempt string.
Variable load_npz :
  string -> SimplePoseNet (sequential Stage)
  -> attempt (SimplePoseNet (sequential Stage)).
Variables resnet18 resnet50b resnet101b resnet152b
  resneta50b resneta101b resneta152b : bool -> attempt (sequential Stage).

(** [get_simplepose] *)
Definition get_simplepose (backbone : sequential Stage)
    (backbone_out_channels keypoints : Z) (model_name : option string)
    (pretrained : bool) (root : string) (kw : kwargs)
  : attempt (SimplePoseNet (sequential Stage)) :=
  let channels := [256; 256; 256] in
  net <~ SimplePose_new construct backbone backbone_out_channels channels
           (default false (kw_return_heatmap kw))
           (default 3 (kw_in_channels kw))
           (default (256, 192) (kw_in_size kw))
           keypoints ;;
  if pretrained then
    match model_name with
    | None => inl (Library ValueError)
    | Some name =>
        if negb (str_bool name) then inl (Library ValueError)
        else
          file <~ get_model_file name root ;;
          load_npz file net
    end
  else inr net.

(** The body the named models share: the features of the backbone
    without [final_pool], handed to [get_simplepose]. *)
Definition simplepose_model (features : bool -> attempt (sequential Stage))
    (backbone_out_channels : Z) (model_name : string)
    (pretrained_backbone : bool) (keypoints : Z) (kw : model_kwargs)
  : attempt (SimplePoseNet (sequential Stage)) :=
  backbone <~ features pretrained_backbone ;;
  backbone <~ delattr backbone "final_pool" ;;
  get_simplepose backbone backbone_out_channels keypoints (Some model_name)
    (default false (kw_pretrained kw)) (default default_root (kw_root kw))
    (kw_net kw).

Definition simplepose_resnet18_coco :=
  simplepose_model resnet18 512 "simplepose_resnet18_coco".
Definition simplepose_resnet50b_coco :=
  simplepose_model resnet50b 2048 "simplepose_resnet50b_coco".
Definition simplepose_resnet101b_coco :=
  simplepose_model resnet101b 2048 "simplepose_resnet101b_coco".
Definition simplepose_resnet152b_coco :=
  simplepose_model resnet152b 2048 "simplepose_resnet152b_coco".
Definition simplepose_resneta50b_coco :=
  simplepose_model resneta50b 2048 "simplepose_resneta50b_coco".
Definition simplepose_resneta101b_coco :=
  simplepose_model resneta101b 2048 "simplepose_resneta101b_coco".
Definition simplepose_resneta152b_coco :=
  simplepose_model resneta152b 2048 "simplepose_resneta152b_coco".

(** The list [models] of [_test]. *)
Definition models :=
  [simplepose_resnet18_coco; simplepose_resnet50b_coco;
   simplepose_resnet101b_coco; simplepose_resnet152b_coco;
   simplepose_resneta50b_coco; simplepose_resneta101b_coco;
   simplepose_resneta152b_coco].

End Model_store.

(** ** Shapes through the decoder *)

(** Chainer's [get_deconv_outsize], without [cover_all]. *)
Definition get_deconv_outsize (size k s p d : Z) : Z :=
  let dk := (k - 1) * d + 1 in
  s * (size - 1) + dk - 2 * p.

(** The links [__init__] constructs for the decoder, in the order of
    construction, and the units its loop registers from index [i] on. *)
Fixpoint unit_links (in_channels : Z) (channels : list Z) : list link :=
  match channels with
  | [] => []
  | out_channels :: channels' =>
      [Deconvolution2D in_channels out_channels 4 2 1 true 1 1;
       BatchNormalization out_channels (1, -5);
       get_activation_layer lambda_relu]
      ++ unit_links out_channels channels'
  end.

Fixpoint units_from (i in_channels : Z) (channels : list Z)
  : sequential DeconvBlock :=
  match channels with
  | [] => []
  | out_channels :: channels' =>
      ("unit" +:+ pretty (i + 1), DeconvBlock_default in_channels out_channels 4 2 1)
      :: units_from (i + 1) out_channels channels'
  end.

(** Shapes through the links of the decoder, by the rules of Chainer for
    links without groups: a run of shapes used as an example. *)
Definition shape_rules (l : link) (shp : list Z) : attempt (list Z) :=
  match l, shp with
  | Deconvolution2D cin cout k s p _ d _, [n; c; h; w] =>
      if c =? cin
      then inr [n; cout; get_deconv_outsize h k s p d; get_deconv_outsize w k s p d]
      else inl (Library InvalidType)
  | BatchNormalization size _, n :: c :: rest =>
      if c =? size then inr shp else inl (Library InvalidType)
  | get_activation_layer _, _ => inr shp
  | conv1x1 cin cout _, [n; c; h; w] =>
      if c =? cin then inr [n; cout; h; w] else inl (Library InvalidType)
  | _, _ => inl (Library InvalidType)
  end.

(** Examples. A constructor that refuses a negative number of output
    channels of [conv1x1]; a model store in which the file of a model is
    looked up under its name; backbones of three stages, each stage
    labelled with the backbone it belongs to. *)
Definition example_construct (l : link) : option py_exn :=
  match l with
  | conv1x1 _ out_channels _ =>
      if out_channels <? 0 then Some (Library ValueError) else None
  | _ => None
  end.
Definition example_get_model_file (name root : string) : attempt string :=
  inr (root +:+ "/" +:+ name +:+ ".npz").
Definition example_load_npz (file : string)
    (net : SimplePoseNet (sequential string))
  : attempt (SimplePoseNet (sequential string)) := inr net.
Definition example_features (label : string) (pretrained : bool)
  : attempt (sequential string) :=
  inr [("init_block", label); ("stage1", label); ("final_pool", label)].

(** The network [SimplePose(backbone, 512, [256, 256, 256])] of 17
    keypoints on the backbone [tt]. *)
Definition example_net : SimplePoseNet unit :=
  {| attributes := SimplePose_init false (256, 192) 17;
     backbone := tt;
     decoder := units_from 0 512 [256; 256; 256];
     final_block := conv1x1 256 17 true |}.

(** * Verification *)

(** ** The order of binary32 numbers *)

Ltac float_cases :=
  repeat match goal with
         | s : bool |- _ => destruct s
         end;
  cbn;
  repeat match goal with
         | |- context [Z.compare ?a ?b] => destruct (Z.compare_spec a b)
         | |- context [Pos.compare_cont Eq ?a ?b] =>
             change (Pos.compare_cont Eq a b) with (Pos.compare a b);
             destruct (Pos.compare_spec a b)
         end;
  cbn.

Lemma ltb_key (x y : f32) :
  F32.is_nan x = false -> F32.is_nan y = false ->
  F32.ltb x y = true <-> key_lt (order_key x) (order_key y).
Proof.
  intros Hx Hy. unfold F32.ltb, SFltb, key_lt.
  destruct x as [s|s| |s m e], y as [s'|s'| |s' m' e']; try discriminate;
    float_cases; split; intros Hk; try discriminate; try lia; try reflexivity.
Qed.

Lemma leb_key (x y : f32) :
  F32.is_nan x = false -> F32.is_nan y = false ->
  F32.leb x y = true <-> key_le (order_key x) (order_key y).
Proof.
  intros Hx Hy. unfold F32.leb, SFleb, key_le, key_lt.
  destruct x as [s|s| |s m e], y as [s'|s'| |s' m' e']; try discriminate;
    float_cases; split; intros Hk; try discriminate; try reflexivity;
    try (left; lia); try (right; congruence);
    try (destruct Hk as [Hk|Hk]; [lia | inversion Hk; lia]).
Qed.

Lemma leb_nan_l (y : f32) : F32.leb S754_nan y = false.
Proof. reflexivity. Qed.

Lemma leb_nan_r (x : f32) : F32.leb x S754_nan = false.
Proof. destruct x as [s|s| |s m e]; reflexivity. Qed.

Lemma ltb_nan_r (x : f32) : F32.ltb x S754_nan = false.
Proof. destruct x as [s|s| |s m e]; reflexivity. Qed.

Lemma is_nan_true (x : f32) : F32.is_nan x = true -> x = S754_nan.
Proof. destruct x; try discriminate; reflexivity. Qed.

Lemma key_total (p q : Z * Z * Z) : key_le p q \/ key_lt q p.
Proof.
  destruct p as [[c1 e1] m1], q as [[c2 e2] m2]. unfold key_le, key_lt.
  destruct (Z.lt_total c1 c2) as [?|[?|?]]; [lia| |lia].
  destruct (Z.lt_total e1 e2) as [?|[?|?]]; [lia| |lia].
  destruct (Z.lt_total m1 m2) as [?|[?|?]]; [lia| |lia].
  left. right. congruence.
Qed.

Lemma key_le_lt_trans (p q r : Z * Z * Z) : key_le p q -> key_lt q r -> key_lt p r.
Proof.
  destruct p as [[c1 e1] m1], q as [[c2 e2] m2], r as [[c3 e3] m3].
  unfold key_le, key_lt. intros [H|H] H'; [lia | inversion H; subst; lia].
Qed.

Lemma key_lt_le (p q : Z * Z * Z) : key_lt p q -> key_le p q.
Proof. intros H. left. exact H. Qed.

Lemma key_le_trans (p q r : Z * Z * Z) : key_le p q -> key_le q r -> key_le p r.
Proof.
  intros H [H'|<-]; [|exact H].
  left. eapply key_le_lt_trans; eassumption.
Qed.

(** Among numbers, [not (v <= mp)] is [mp < v]. *)
Lemma not_leb_ltb (v mp : f32) :
  F32.is_nan v = false -> F32.is_nan mp = false ->
  F32.leb v mp = false -> F32.ltb mp v = true.
Proof.
  intros Hv Hm H. apply ltb_key; [assumption..|].
  destruct (key_total (order_key v) (order_key mp)) as [Hle|Hlt]; [|exact Hlt].
  apply leb_key in Hle; [congruence | assumption..].
Qed.

Lemma leb_refl (v : f32) : F32.is_nan v = false -> F32.leb v v = true.
Proof. intros H. apply leb_key; [assumption..|]. right. reflexivity. Qed.

Lemma leb_true_number (a b : f32) :
  F32.leb a b = true -> F32.is_nan a = false /\ F32.is_nan b = false.
Proof.
  destruct a as [s|s| |s m e], b as [s'|s'| |s' m' e']; cbn;
    intros H; try discriminate; split; reflexivity.
Qed.

Lemma ltb_true_number (a b : f32) :
  F32.ltb a b = true -> F32.is_nan a = false /\ F32.is_nan b = false.
Proof.
  destruct a as [s|s| |s m e], b as [s'|s'| |s' m' e']; cbn;
    intros H; try discriminate; split; reflexivity.
Qed.

Lemma leb_trans (a b c : f32) :
  F32.leb a b = true -> F32.leb b c = true -> F32.leb a c = true.
Proof.
  intros H1 H2.
  destruct (leb_true_number _ _ H1) as [Ha Hb].
  destruct (leb_true_number _ _ H2) as [_ Hc].
  apply leb_key in H1; [|assumption..]. apply leb_key in H2; [|assumption..].
  apply leb_key; [assumption..|].
  eapply key_le_trans; eassumption.
Qed.

Lemma ltb_leb_trans (a b c : f32) :
  F32.ltb a b = true -> F32.leb b c = true -> F32.ltb a c = true.
Proof.
  intros H1 H2.
  destruct (ltb_true_number _ _ H1) as [Ha Hb].
  destruct (leb_true_number _ _ H2) as [_ Hc].
  apply ltb_key in H1; [|assumption..]. apply leb_key in H2; [|assumption..].
  apply ltb_key; [assumption..|].
  destruct H2 as [H2|H2]; [|rewrite <- H2; exact H1].
  eapply key_le_lt_trans; [left; exact H1 | exact H2].
Qed.

Lemma ltb_leb (a b : f32) : F32.ltb a b = true -> F32.leb a b = true.
Proof.
  unfold F32.ltb, F32.leb, SFltb, SFleb.
  destruct (SFcompare a b) as [[]|]; congruence.
Qed.

Lemma leb_ltb_trans (a b c : f32) :
  F32.leb a b = true -> F32.ltb b c = true -> F32.ltb a c = true.
Proof.
  intros H1 H2.
  destruct (leb_true_number _ _ H1) as [Ha Hb].
  destruct (ltb_true_number _ _ H2) as [_ Hc].
  apply leb_key in H1; [|assumption..]. apply ltb_key in H2; [|assumption..].
  apply ltb_key; [assumption..|].
  eapply key_le_lt_trans; eassumption.
Qed.

Lemma ltb_irrefl (a : f32) : F32.ltb a a = false.
Proof.
  destruct (F32.ltb a a) eqn:H; [|reflexivity].
  destruct (ltb_true_number _ _ H) as [Ha _].
  apply ltb_key in H; [|assumption..].
  destruct (order_key a) as [[c e] m]. unfold key_lt in H. lia.
Qed.

(** ** [argmax] and [max] *)

Lemma fold_maximum_nan (l : list f32) : fold_left np_maximum l S754_nan = S754_nan.
Proof.
  induction l as [|v l IH]; [reflexivity|]. cbn [fold_left].
  replace (np_maximum S754_nan v) with S754_nan; [exact IH|].
  unfold np_maximum. rewrite leb_nan_r. reflexivity.
Qed.

Lemma argmax_loop_post (ip pre : list f32) (mp : f32) (mi : nat) :
  F32.is_nan mp = false ->
  pre !! mi = Some mp ->
  (forall j w, (j < mi)%nat -> pre !! j = Some w -> F32.ltb w mp = true) ->
  (forall j w, pre !! j = Some w -> F32.leb w mp = true) ->
  exists r,
    argmax_loop mp (Z.of_nat mi) (Z.of_nat (length pre)) ip = Z.of_nat r /\
    argmax_post (pre ++ ip) r /\
    (pre ++ ip) !! r = Some (fold_left np_maximum ip mp).
Proof.
  revert pre mp mi.
  induction ip as [|v ip IH]; intros pre mp mi Hmp Hmi Hlt Hle.
  - exists mi. rewrite app_nil_r. cbn. split; [reflexivity|]. split; [|exact Hmi].
    exists mp. split; [exact Hmi|]. split.
    + intros j w Hj Hw. specialize (Hlt j w Hj Hw).
      split; [|right; exact Hlt]. apply (ltb_true_number _ _ Hlt).
    + right. exact Hle.
  - cbn [argmax_loop fold_left].
    assert (Hnext : Z.of_nat (length pre) + 1 = Z.of_nat (length (pre ++ [v])))
      by (rewrite length_app; cbn; lia).
    assert (Happ : pre ++ v :: ip = (pre ++ [v]) ++ ip)
      by (rewrite <- app_assoc; reflexivity).
    destruct (F32.leb v mp) eqn:Hv; cbn [negb].
    + (* the running maximum stays *)
      assert (Hmax : np_maximum mp v = mp) by (unfold np_maximum; rewrite Hv; reflexivity).
      rewrite Hmax, Hnext, Happ.
      apply IH; [exact Hmp| | |].
      * apply lookup_app_l_Some. exact Hmi.
      * intros j w Hj Hw. apply (Hlt j w Hj).
        rewrite lookup_app_l in Hw; [exact Hw|].
        apply lookup_lt_Some in Hmi. lia.
      * intros j w Hw. apply lookup_app_Some in Hw as [Hw|[_ Hw]]; [eauto|].
        apply list_lookup_singleton_Some in Hw as [_ <-]. exact Hv.
    + assert (Hmax : np_maximum mp v = v)
        by (unfold np_maximum; rewrite Hv, Hmp; reflexivity).
      rewrite Hmax.
      destruct (F32.is_nan v) eqn:Hnan.
      * (* a NaN ends the scan *)
        exists (length pre). split; [reflexivity|].
        apply is_nan_true in Hnan. subst v. rewrite fold_maximum_nan.
        assert (Hat : (pre ++ S754_nan :: ip) !! length pre = Some S754_nan)
          by (rewrite lookup_app_r by lia; rewrite Nat.sub_diag; reflexivity).
        split; [|exact Hat].
        exists S754_nan. split; [exact Hat|]. split; [|left; reflexivity].
        intros j w Hj Hw. rewrite lookup_app_l in Hw by lia.
        split; [|left; reflexivity]. apply (leb_true_number _ _ (Hle j w Hw)).
      * (* a larger number becomes the running maximum *)
        assert (Hgt : F32.ltb mp v = true) by (apply not_leb_ltb; assumption).
        rewrite Hnext, Happ.
        replace (Z.of_nat (length pre)) with (Z.of_nat (length pre)) by reflexivity.
        apply IH; [exact Hnan| | |].
        -- rewrite lookup_app_r by lia. rewrite Nat.sub_diag. reflexivity.
        -- intros j w Hj Hw. rewrite lookup_app_l in Hw by lia.
           eapply leb_ltb_trans; [apply (Hle j w Hw) | exact Hgt].
        -- intros j w Hw. apply lookup_app_Some in Hw as [Hw|[_ Hw]].
           ++ apply ltb_leb. eapply leb_ltb_trans; [apply (Hle j w Hw) | exact Hgt].
           ++ apply list_lookup_singleton_Some in Hw as [_ <-].
              apply leb_refl. exact Hnan.
Qed.

(** [np_argmax] meets [argmax_post], and the scalar loop of [max] ends
    on the element there. *)
Lemma np_argmax_post (l : list f32) :
  l <> [] ->
  exists r, np_argmax l = Some (Z.of_nat r) /\ argmax_post l r /\ scalar_max l = l !! r.
Proof.
  destruct l as [|v ip]; [congruence|]. intros _. cbn [np_argmax scalar_max].
  destruct (F32.is_nan v) eqn:Hnan.
  - exists 0%nat. apply is_nan_true in Hnan. subst v. rewrite fold_maximum_nan.
    split; [reflexivity|]. split; [|reflexivity].
    exists S754_nan. split; [reflexivity|]. split; [|left; reflexivity].
    intros j w Hj. lia.
  - destruct (argmax_loop_post ip [v] v 0%nat) as (r & Hr & Hpost & Hmax).
    + exact Hnan.
    + reflexivity.
    + intros j w Hj. lia.
    + intros j w Hw. apply list_lookup_singleton_Some in Hw as [_ <-].
      apply leb_refl. exact Hnan.
    + exists r. change (Z.of_nat 0) with 0 in Hr.
      change (Z.of_nat (length [v])) with 1 in Hr.
      change ([v] ++ ip) with (v :: ip) in Hpost, Hmax.
      rewrite Hr. split; [reflexivity|]. split; [exact Hpost|]. symmetry. exact Hmax.
Qed.

(** [argmax_post] holds of one position only. *)
Lemma argmax_post_lt (l : list f32) (r r' : nat) :
  argmax_post l r -> argmax_post l r' -> (r < r')%nat -> False.
Proof.
  intros (v & Hv & _ & Hall) (v' & Hv' & Hbefore & _) Hlt.
  destruct (Hbefore r v Hlt Hv) as [Hnum Hcmp].
  destruct Hall as [Hnan|Hall]; [congruence|].
  specialize (Hall r' v' Hv').
  destruct Hcmp as [Hnan'|Hcmp].
  - apply is_nan_true in Hnan'. subst v'. rewrite leb_nan_l in Hall. discriminate.
  - pose proof (ltb_leb_trans _ _ _ Hcmp Hall) as Hbad.
    rewrite ltb_irrefl in Hbad. discriminate.
Qed.

Lemma argmax_post_unique (l : list f32) (r r' : nat) :
  argmax_post l r -> argmax_post l r' -> r = r'.
Proof.
  intros H H'. destruct (Nat.lt_total r r') as [Hlt|[Heq|Hlt]]; [|exact Heq|].
  - destruct (argmax_post_lt l r r' H H' Hlt).
  - destruct (argmax_post_lt l r' r H' H Hlt).
Qed.

Lemma np_argmax_intro (l : list f32) (r : nat) :
  argmax_post l r -> np_argmax l = Some (Z.of_nat r) /\ scalar_max l = l !! r.
Proof.
  intros Hpost.
  assert (Hne : l <> []).
  { destruct Hpost as (v & Hv & _). intros ->. discriminate. }
  destruct (np_argmax_post l Hne) as (r' & Hr' & Hpost' & Hmax).
  rewrite (argmax_post_unique l r r' Hpost Hpost'). split; assumption.
Qed.

(** ** Rounding to binary32: the exact cases *)

Lemma digits2_pos_size (p : positive) : digits2_pos p = Pos.size p.
Proof. induction p as [p IH|p IH|]; cbn; [rewrite IH..|]; reflexivity. Qed.

Lemma digits_log2 (p : positive) : digits p = Z.log2 (Z.pos p) + 1.
Proof.
  unfold digits. destruct p as [p|p|]; cbn [digits2_pos Z.log2];
    rewrite ?digits2_pos_size; lia.
Qed.

Lemma digits_pos (p : positive) : 0 < digits p.
Proof. unfold digits. lia. Qed.

Lemma digits_bounds (p : positive) :
  2 ^ (digits p - 1) <= Z.pos p < 2 ^ digits p.
Proof.
  rewrite digits_log2.
  replace (Z.log2 (Z.pos p) + 1 - 1) with (Z.log2 (Z.pos p)) by lia.
  replace (Z.log2 (Z.pos p) + 1) with (Z.succ (Z.log2 (Z.pos p))) by lia.
  apply Z.log2_spec. lia.
Qed.

Lemma digits_unique (p : positive) (d : Z) :
  2 ^ (d - 1) <= Z.pos p < 2 ^ d -> digits p = d.
Proof.
  intros H. rewrite digits_log2.
  assert (0 <= d - 1).
  { destruct (Z.le_gt_cases 0 (d - 1)) as [?|Hneg]; [assumption|].
    assert (d <= 0) by lia.
    assert (2 ^ d <= 2 ^ 0) by (apply Z.pow_le_mono_r; lia).
    change (2 ^ 0) with 1 in *. lia. }
  rewrite (Z.log2_unique (Z.pos p) (d - 1)); [lia|assumption|].
  replace (Z.succ (d - 1)) with d by lia. exact H.
Qed.

Lemma digits_mul_pow2 (p q : positive) (k : Z) :
  0 <= k -> Z.pos q = Z.pos p * 2 ^ k -> digits q = digits p + k.
Proof.
  intros Hk Hq. rewrite !digits_log2, Hq.
  rewrite Z.log2_mul_pow2 by lia. lia.
Qed.

Lemma digits_le_pow2 (p : positive) (d : Z) :
  0 <= d -> Z.pos p < 2 ^ d <-> digits p <= d.
Proof.
  intros Hd. rewrite digits_log2.
  rewrite (Z.log2_lt_pow2 (Z.pos p) d) by lia. lia.
Qed.

Lemma digits_mono (p q : positive) : (p <= q)%positive -> digits p <= digits q.
Proof.
  intros H. rewrite !digits_log2.
  assert (Z.log2 (Z.pos p) <= Z.log2 (Z.pos q)) by (apply Z.log2_le_mono; lia).
  lia.
Qed.

(** [Pos.iter xO] multiplies by a power of two. *)
Lemma iter_xO_spec (m d : positive) :
  Z.pos (Pos.iter xO m d) = Z.pos m * 2 ^ Z.pos d.
Proof.
  change (Pos.iter xO m d) with (shift_pos d m).
  rewrite shift_pos_correct. rewrite Zpower_pos_nat, Zpower_nat_Z.
  rewrite positive_nat_Z. lia.
Qed.

Lemma shl_align_spec (mx : positive) (ex ex' : Z) :
  snd (shl_align mx ex ex') = Z.min ex ex' /\
  Z.pos (fst (shl_align mx ex ex')) = Z.pos mx * 2 ^ (ex - Z.min ex ex').
Proof.
  unfold shl_align. destruct (ex' - ex) as [|d|d] eqn:Hd; cbn [fst snd].
  - replace (Z.min ex ex') with ex by lia. rewrite Z.sub_diag. lia.
  - replace (Z.min ex ex') with ex by lia. rewrite Z.sub_diag. lia.
  - replace (Z.min ex ex') with ex' by lia.
    rewrite iter_xO_spec. replace (ex - ex') with (Z.pos d) by lia. lia.
Qed.

(** [iter_pos] is iteration. *)
Lemma iter_pos_nat {A} (f : A -> A) (p : positive) (x : A) :
  SpecFloat.iter_pos f p x = Nat.iter (Pos.to_nat p) f x.
Proof.
  revert x. induction p as [p IH|p IH|]; intros x; cbn [SpecFloat.iter_pos].
  - rewrite !IH, Pos2Nat.inj_xI.
    replace (S (2 * Pos.to_nat p)) with (Pos.to_nat p + (Pos.to_nat p + 1))%nat by lia.
    rewrite !Nat.iter_add. reflexivity.
  - rewrite !IH, Pos2Nat.inj_xO.
    replace (2 * Pos.to_nat p)%nat with (Pos.to_nat p + Pos.to_nat p)%nat by lia.
    rewrite Nat.iter_add. reflexivity.
  - reflexivity.
Qed.

(** Shifting out zero bits loses nothing. *)
Lemma shr_exact_nat (n : nat) (m : positive) :
  Nat.iter n shr_1 (Build_shr_record (Z.pos m * 2 ^ Z.of_nat n) false false)
  = Build_shr_record (Z.pos m) false false.
Proof.
  revert m. induction n as [|n IH]; intros m.
  - cbn [Nat.iter]. change (Z.of_nat 0) with 0. rewrite Z.pow_0_r, Z.mul_1_r. reflexivity.
  - rewrite Nat.iter_succ_r.
    replace (Z.pos m * 2 ^ Z.of_nat (S n)) with (Z.pos (m~0) * 2 ^ Z.of_nat n).
    2:{ rewrite Nat2Z.inj_succ, Z.pow_succ_r by lia. lia. }
    assert (Hpos : exists q, Z.pos (m~0) * 2 ^ Z.of_nat n = Z.pos (q~0)).
    { destruct n as [|n'].
      - exists m. change (Z.of_nat 0) with 0. rewrite Z.pow_0_r. lia.
      - exists (Z.to_pos (Z.pos m * 2 ^ Z.of_nat (S n'))).
        assert (0 < 2 ^ Z.of_nat (S n')) by (apply Z.pow_pos_nonneg; lia).
        rewrite (Pos2Z.inj_xO (Z.to_pos _)), Z2Pos.id by lia. lia. }
    destruct Hpos as [q Hq]. rewrite Hq. cbn [shr_1 orb].
    replace (Z.pos q) with (Z.pos m * 2 ^ Z.of_nat n) by lia.
    apply IH.
Qed.

Lemma shr_exact (k : positive) (m : positive) (e : Z) :
  shr (Build_shr_record (Z.pos m * 2 ^ Z.pos k) false false) e (Z.pos k)
  = (Build_shr_record (Z.pos m) false false, e + Z.pos k).
Proof.
  cbn [shr]. rewrite iter_pos_nat.
  rewrite <- (positive_nat_Z k) at 1. rewrite shr_exact_nat. reflexivity.
Qed.

Section Rounding.

Let fexp := SpecFloat.fexp F32.prec F32.emax.

(** A mantissa that is the canonical one shifted left by [k] bits is
    rounded to the canonical one. *)
Lemma round_aux_exact (s : bool) (m0 : positive) (e0 k : Z) :
  0 <= k ->
  fexp (digits m0 + e0) = e0 ->
  e0 <= F32.emax - F32.prec ->
  binary_round_aux F32.prec F32.emax s (Z.pos m0 * 2 ^ k) (e0 - k) loc_Exact
  = S754_finite s m0 e0.
Proof.
  intros Hk Hcanon Hmax.
  assert (Hpow : 0 < 2 ^ k) by (apply Z.pow_pos_nonneg; lia).
  destruct (Z.pos m0 * 2 ^ k) as [|p|p] eqn:Hp; [lia| |lia].
  assert (Hd : digits p = digits m0 + k) by (apply digits_mul_pow2; lia).
  unfold binary_round_aux, shr_fexp.
  cbn [Zdigits2 shr_record_of_loc]. fold (digits p). fold fexp.
  rewrite Hd. replace (digits m0 + k + (e0 - k)) with (digits m0 + e0) by lia.
  rewrite Hcanon. replace (e0 - (e0 - k)) with k by lia.
  destruct k as [|k|k]; [| |lia].
  - (* no shift *)
    rewrite Z.pow_0_r, Z.mul_1_r in Hp. inversion Hp; subst p.
    cbn [shr shr_m loc_of_shr_record round_nearest_even shr_record_of_loc Zdigits2].
    rewrite Z.sub_0_r. fold (digits m0). rewrite Hcanon, Z.sub_diag.
    cbn [shr shr_m]. apply Z.leb_le in Hmax. rewrite Hmax. reflexivity.
  - rewrite <- Hp, shr_exact.
    cbn [shr_m loc_of_shr_record round_nearest_even shr_record_of_loc Zdigits2].
    replace (e0 - Z.pos k + Z.pos k) with e0 by lia.
    fold (digits m0). rewrite Hcanon, Z.sub_diag.
    cbn [shr shr_m]. apply Z.leb_le in Hmax. rewrite Hmax. reflexivity.
Qed.

Lemma fexp_eq (x : Z) : fexp x = Z.max (x - 24) (-149).
Proof. reflexivity. Qed.

(** [binary_round] of a representation, shifted either way, of a
    canonical number. *)
Lemma round_exact (s : bool) (p : positive) (e : Z) (m0 : positive) (e0 : Z) :
  fexp (digits m0 + e0) = e0 ->
  e0 <= F32.emax - F32.prec ->
  (e0 <= e /\ Z.pos m0 = Z.pos p * 2 ^ (e - e0)) \/
  (e <= e0 /\ Z.pos p = Z.pos m0 * 2 ^ (e0 - e)) ->
  binary_round F32.prec F32.emax s p e = S754_finite s m0 e0.
Proof.
  intros Hcanon Hmax Hval.
  assert (Hd : digits p + e = digits m0 + e0).
  { destruct Hval as [[Hle Hm]|[Hle Hm]].
    - rewrite (digits_mul_pow2 p m0 (e - e0)) by (lia || assumption). lia.
    - rewrite (digits_mul_pow2 m0 p (e0 - e)) by (lia || assumption). lia. }
  unfold binary_round. fold (digits p). fold fexp. rewrite Hd, Hcanon.
  destruct (shl_align_spec p e e0) as [Hsnd Hfst].
  destruct (shl_align p e e0) as [mz ez]. cbn [fst snd] in Hsnd, Hfst. subst ez.
  destruct Hval as [[Hle Hm]|[Hle Hm]].
  - replace (Z.min e e0) with e0 in * by lia.
    assert (mz = m0) by lia. subst mz.
    rewrite <- (round_aux_exact s m0 e0 0); [|lia|assumption..].
    rewrite Z.pow_0_r, Z.mul_1_r, Z.sub_0_r. reflexivity.
  - replace (Z.min e e0) with e in * by lia.
    rewrite Z.sub_diag, Z.pow_0_r, Z.mul_1_r in Hfst.
    assert (mz = p) by lia. subst mz.
    rewrite <- (round_aux_exact s m0 e0 (e0 - e)); [|lia|assumption..].
    rewrite <- Hm. replace (e0 - (e0 - e)) with e by lia. reflexivity.
Qed.

(** The canonical representation of [t * 2^e] for a [t] of at most 24
    bits. *)
Lemma round_small (s : bool) (t : positive) (e : Z) :
  digits t <= 24 -> -149 <= e -> digits t + e <= 128 ->
  binary_round F32.prec F32.emax s t e
  = S754_finite s (Z.to_pos (Z.pos t * 2 ^ (e - fexp (digits t + e))))
      (fexp (digits t + e)).
Proof.
  intros Hd He Hmax.
  set (e0 := fexp (digits t + e)).
  assert (He0 : e0 <= e) by (subst e0; rewrite fexp_eq; lia).
  assert (Hpow : 0 < 2 ^ (e - e0)) by (apply Z.pow_pos_nonneg; lia).
  apply round_exact.
  - rewrite (digits_mul_pow2 t _ (e - e0)); [|lia|rewrite Z2Pos.id; lia].
    replace (digits t + (e - e0) + e0) with (digits t + e) by lia. reflexivity.
  - subst e0. rewrite fexp_eq. unfold F32.emax, F32.prec. lia.
  - left. split; [exact He0|]. rewrite Z2Pos.id; lia.
Qed.

(** The rounding of a representable number does not depend on how the
    number is written. *)
Lemma round_shift (s : bool) (t p : positive) (e k : Z) :
  digits t <= 24 -> -149 <= e -> digits t + e <= 128 ->
  0 <= k -> Z.pos p = Z.pos t * 2 ^ k ->
  binary_round F32.prec F32.emax s p (e - k)
  = binary_round F32.prec F32.emax s t e.
Proof.
  intros Hd He Hmax Hk Hp.
  rewrite (round_small s t e) by assumption.
  set (e0 := fexp (digits t + e)).
  assert (He0 : e0 <= e) by (subst e0; rewrite fexp_eq; lia).
  assert (Hpow : 0 < 2 ^ (e - e0)) by (apply Z.pow_pos_nonneg; lia).
  apply round_exact.
  - rewrite (digits_mul_pow2 t _ (e - e0)); [|lia|rewrite Z2Pos.id; lia].
    replace (digits t + (e - e0) + e0) with (digits t + e) by lia. reflexivity.
  - subst e0. rewrite fexp_eq. unfold F32.emax, F32.prec. lia.
  - rewrite Z2Pos.id by lia. rewrite Hp.
    destruct (Z.le_gt_cases e0 (e - k)) as [Hcase|Hcase].
    + left. split; [exact Hcase|].
      rewrite <- Z.mul_assoc, <- Z.pow_add_r by lia.
      f_equal. f_equal. lia.
    + right. split; [lia|].
      rewrite <- Z.mul_assoc, <- Z.pow_add_r by lia.
      f_equal. f_equal. lia.
Qed.

End Rounding.

(** [of_dyadic] on two writings of one representable number. *)
Lemma of_dyadic_shift (t e k : Z) :
  0 <= t < 2 ^ 24 -> -149 <= e <= 100 -> 0 <= k ->
  F32.of_dyadic (t * 2 ^ k) (e - k) = F32.of_dyadic t e.
Proof.
  intros Ht He Hk. unfold F32.of_dyadic, binary_normalize.
  assert (Hpow : 0 < 2 ^ k) by (apply Z.pow_pos_nonneg; lia).
  destruct t as [|t|t]; [reflexivity| |lia].
  destruct (Z.pos t * 2 ^ k) as [|p|p] eqn:Hp; [lia| |lia].
  assert (digits t <= 24) by (apply digits_le_pow2; lia).
  apply (round_shift false t p e k); lia.
Qed.

Lemma of_dyadic_finite (t : positive) (e : Z) :
  Z.pos t < 2 ^ 24 -> -149 <= e <= 100 ->
  F32.of_dyadic (Z.pos t) e
  = S754_finite false
      (Z.to_pos (Z.pos t * 2 ^ (e - Z.max (digits t + e - 24) (-149))))
      (Z.max (digits t + e - 24) (-149)).
Proof.
  intros Ht He.
  assert (digits t <= 24) by (apply digits_le_pow2; lia).
  unfold F32.of_dyadic, binary_normalize.
  rewrite round_small by lia. reflexivity.
Qed.

(** ** Integers below [2^24] in binary32 *)

Lemma of_Z_pos (n : positive) :
  Z.pos n < 2 ^ 24 -> F32.of_Z (Z.pos n) = S754_finite false (int_mant n) (int_exp n).
Proof.
  intros Hn. unfold F32.of_Z. rewrite of_dyadic_finite by lia.
  pose proof (digits_pos n). unfold int_mant, int_exp.
  replace (Z.max (digits n + 0 - 24) (-149)) with (digits n - 24) by lia.
  replace (0 - (digits n - 24)) with (24 - digits n) by lia. reflexivity.
Qed.

Lemma int_exp_range (n : positive) : Z.pos n < 2 ^ 24 -> -23 <= int_exp n <= 0.
Proof.
  intros Hn. unfold int_exp. pose proof (digits_pos n).
  assert (digits n <= 24) by (apply digits_le_pow2; lia). lia.
Qed.

Lemma int_mant_eq (n : positive) :
  Z.pos n < 2 ^ 24 -> Z.pos (int_mant n) = Z.pos n * 2 ^ (- int_exp n).
Proof.
  intros Hn. pose proof (int_exp_range n Hn). unfold int_mant, int_exp in *.
  assert (0 < 2 ^ (24 - digits n)) by (apply Z.pow_pos_nonneg; lia).
  rewrite Z2Pos.id by lia. f_equal. f_equal. lia.
Qed.

Lemma int_mant_digits (n : positive) : Z.pos n < 2 ^ 24 -> digits (int_mant n) = 24.
Proof.
  intros Hn. pose proof (int_exp_range n Hn).
  rewrite (digits_mul_pow2 n _ (- int_exp n)); [|lia|apply int_mant_eq; exact Hn].
  unfold int_exp. lia.
Qed.

Lemma of_Z_0 : F32.of_Z 0 = F32.zero.
Proof. reflexivity. Qed.

(** The mantissa aligned to a lower exponent. *)
Lemma align_int (n : positive) (ez : Z) :
  Z.pos n < 2 ^ 24 -> ez <= int_exp n ->
  Z.pos (fst (shl_align (int_mant n) (int_exp n) ez)) = Z.pos n * 2 ^ (- ez).
Proof.
  intros Hn Hez. pose proof (int_exp_range n Hn).
  destruct (shl_align_spec (int_mant n) (int_exp n) ez) as [_ ->].
  rewrite int_mant_eq by exact Hn.
  replace (Z.min (int_exp n) ez) with ez by lia.
  rewrite <- Z.mul_assoc, <- Z.pow_add_r by lia. f_equal. f_equal. lia.
Qed.

(** [int(x)] gives the integer back. *)
Lemma trunc_of_Z (n : Z) : 0 <= n < 2 ^ 24 -> F32.trunc (F32.of_Z n) = Some n.
Proof.
  intros Hn. destruct n as [|n|n]; [reflexivity| |lia].
  rewrite of_Z_pos by lia. pose proof (int_exp_range n ltac:(lia)) as He.
  cbn [F32.trunc cond_Zopp]. f_equal.
  destruct (0 <=? int_exp n) eqn:Hsign.
  - apply Z.leb_le in Hsign. assert (Hz : int_exp n = 0) by lia.
    rewrite Hz, Z.shiftl_0_r. rewrite int_mant_eq, Hz by lia. cbn. lia.
  - rewrite Z.shiftr_div_pow2 by lia. rewrite int_mant_eq by lia.
    apply Z.div_mul. apply Z.pow_nonzero; lia.
Qed.

(** [floor] is the identity on these integers. *)
Lemma floor_of_Z (n : Z) : 0 <= n < 2 ^ 24 -> F32.floor (F32.of_Z n) = F32.of_Z n.
Proof.
  intros Hn. destruct n as [|n|n]; [reflexivity| |lia].
  rewrite of_Z_pos by lia. pose proof (int_exp_range n ltac:(lia)) as He.
  cbn [F32.floor cond_Zopp].
  destruct (0 <=? int_exp n) eqn:Hsign; [reflexivity|].
  rewrite Z.shiftr_div_pow2 by lia. rewrite int_mant_eq by lia.
  rewrite Z.div_mul by (apply Z.pow_nonzero; lia).
  rewrite <- of_Z_pos by lia. reflexivity.
Qed.

Section Rounding_ops.

Let fexp := SpecFloat.fexp F32.prec F32.emax.

(** Multiplication by one returns a canonical number unchanged. *)
Lemma mul_one_canonical (s : bool) (m : positive) (e : Z) :
  fexp (digits m + e) = e -> e <= F32.emax - F32.prec ->
  F32.mul (S754_finite s m e) F32.one = S754_finite s m e.
Proof.
  intros Hcanon Hmax. unfold F32.mul, F32.one. cbn [SFmul].
  rewrite xorb_false_r.
  replace (Z.pos (m * 8388608)) with (Z.pos m * 2 ^ 23) by lia.
  replace (e + -23) with (e - 23) by lia.
  apply round_aux_exact; [lia|assumption..].
Qed.

End Rounding_ops.

Lemma mul_one_of_Z (n : Z) :
  0 <= n < 2 ^ 24 -> F32.mul (F32.of_Z n) F32.one = F32.of_Z n.
Proof.
  intros Hn. destruct n as [|n|n]; [reflexivity| |lia].
  rewrite of_Z_pos by lia. pose proof (int_exp_range n ltac:(lia)) as He.
  apply mul_one_canonical.
  - rewrite int_mant_digits by lia. rewrite fexp_eq. lia.
  - unfold F32.emax, F32.prec. lia.
Qed.

Lemma mul_zero_of_Z (n : Z) :
  0 <= n < 2 ^ 24 -> F32.mul (F32.of_Z n) F32.zero = F32.zero.
Proof.
  intros Hn. destruct n as [|n|n]; [reflexivity| |lia].
  rewrite of_Z_pos by lia. reflexivity.
Qed.

(** Subtraction of integers is exact. *)
Lemma sub_of_Z (a r : Z) :
  0 <= r <= a -> a < 2 ^ 24 ->
  F32.sub (F32.of_Z a) (F32.of_Z r) = F32.of_Z (a - r).
Proof.
  intros Hr Ha.
  destruct r as [|r|r]; [|destruct a as [|a|a]; [lia| |lia]|lia].
  - rewrite Z.sub_0_r. destruct a as [|a|a]; [reflexivity| |lia].
    rewrite of_Z_pos by lia. reflexivity.
  - rewrite !of_Z_pos by lia.
    pose proof (int_exp_range a ltac:(lia)). pose proof (int_exp_range r ltac:(lia)).
    unfold F32.sub. cbn [SFsub cond_Zopp].
    set (ez := Z.min (int_exp a) (int_exp r)).
    rewrite !align_int by (subst ez; lia).
    rewrite <- Z.mul_sub_distr_r.
    change (binary_normalize F32.prec F32.emax ?m ?e false) with (F32.of_dyadic m e).
    replace ez with (0 - (- ez)) at 2 by lia.
    apply of_dyadic_shift; subst ez; lia.
Qed.

(** [fmod] of integers is the remainder. *)
Lemma fmod_of_Z (a b : Z) :
  0 <= a < 2 ^ 24 -> 0 < b < 2 ^ 24 ->
  F32.fmod (F32.of_Z a) (F32.of_Z b) = F32.of_Z (a mod b).
Proof.
  intros Ha Hb.
  destruct b as [|b|b]; [lia| |lia].
  destruct a as [|a|a]; [| |lia].
  - rewrite of_Z_pos by lia. reflexivity.
  - rewrite !of_Z_pos by lia.
    pose proof (int_exp_range a ltac:(lia)). pose proof (int_exp_range b ltac:(lia)).
    cbn [F32.fmod cond_Zopp].
    set (ez := Z.min (int_exp a) (int_exp b)).
    rewrite !align_int by (subst ez; lia).
    assert (Hpow : 0 < 2 ^ (- ez)) by (apply Z.pow_pos_nonneg; subst ez; lia).
    rewrite Z.rem_mod_nonneg by lia.
    rewrite Z.mul_mod_distr_r by lia.
    change (binary_normalize F32.prec F32.emax ?m ?e false) with (F32.of_dyadic m e).
    replace ez with (0 - (- ez)) at 2 by lia.
    pose proof (Z.mod_pos_bound (Z.pos a) (Z.pos b) ltac:(lia)).
    apply of_dyadic_shift; subst ez; lia.
Qed.

Lemma digits_mul_le (p q : positive) : digits (p * q) <= digits p + digits q.
Proof.
  pose proof (digits_bounds p) as [_ Hp]. pose proof (digits_bounds q) as [_ Hq].
  pose proof (digits_pos p). pose proof (digits_pos q).
  apply digits_le_pow2; [lia|].
  rewrite Pos2Z.inj_mul, Z.pow_add_r by lia.
  apply Z.mul_lt_mono_nonneg; lia.
Qed.

Lemma new_location_exact (m : Z) : new_location m 0 = loc_Exact.
Proof.
  unfold new_location, new_location_even, new_location_odd.
  destruct (Z.even m); reflexivity.
Qed.

(** An exact quotient of integers is computed exactly. *)
Lemma div_of_Z (q b : Z) :
  0 <= q -> 0 < b < 2 ^ 24 -> q * b < 2 ^ 24 ->
  F32.div (F32.of_Z (q * b)) (F32.of_Z b) = F32.of_Z q.
Proof.
  intros Hq Hb Hqb.
  destruct b as [|b|b]; [lia| |lia].
  destruct q as [|q|q]; [|clear Hq|lia].
  - rewrite Z.mul_0_l. rewrite of_Z_pos by lia. reflexivity.
  - assert (Hq24 : Z.pos q < 2 ^ 24) by nia.
    change (Z.pos q * Z.pos b) with (Z.pos (q * b)) in *.
    rewrite !of_Z_pos by lia.
    pose proof (int_exp_range (q * b) ltac:(lia)) as HeA.
    pose proof (int_exp_range b ltac:(lia)) as Heb.
    pose proof (int_exp_range q ltac:(lia)) as Heq.
    pose proof (digits_mul_le q b) as Hdig.
    unfold F32.div. cbn [SFdiv xorb]. unfold SFdiv_core_binary.
    cbn [Zdigits2]. fold (digits (int_mant (q * b))). fold (digits (int_mant b)).
    rewrite !int_mant_digits by lia.
    replace (24 + int_exp (q * b) - (24 + int_exp b))
      with (int_exp (q * b) - int_exp b) by lia.
    rewrite fexp_eq.
    replace (Z.min (Z.max (int_exp (q * b) - int_exp b - 24) (-149))
               (int_exp (q * b) - int_exp b))
      with (int_exp (q * b) - int_exp b - 24) by lia.
    replace (int_exp (q * b) - int_exp b - (int_exp (q * b) - int_exp b - 24))
      with 24 by lia.
    cbv beta iota.
    rewrite Z.shiftl_mul_pow2 by lia.
    set (k := int_exp q - (int_exp (q * b) - int_exp b - 24)).
    assert (Hk : 0 <= k) by (subst k; unfold int_exp in *; lia).
    assert (Hnum : Z.pos (int_mant (q * b)) * 2 ^ 24
                   = Z.pos (int_mant b) * (Z.pos (int_mant q) * 2 ^ k)).
    { rewrite !int_mant_eq by lia. rewrite Pos2Z.inj_mul.
      assert (Hpw : 2 ^ (- int_exp (q * b)) * 2 ^ 24
                    = 2 ^ (- int_exp b) * (2 ^ (- int_exp q) * 2 ^ k)).
      { rewrite <- !Z.pow_add_r by lia. f_equal. subst k. lia. }
      rewrite <- (Z.mul_assoc _ _ (2 ^ 24)), Hpw.
      generalize (2 ^ (- int_exp b)) (2 ^ (- int_exp q)) (2 ^ k).
      intros; ring. }
    assert (Hde : Z.div_eucl (Z.pos (int_mant (q * b)) * 2 ^ 24) (Z.pos (int_mant b))
                  = (Z.pos (int_mant q) * 2 ^ k, 0)).
    { pose proof (Z_div_mod (Z.pos (int_mant (q * b)) * 2 ^ 24)
                    (Z.pos (int_mant b)) eq_refl) as Hdm.
      destruct (Z.div_eucl _ _) as [q0 r0]. destruct Hdm as [Hdm Hr0].
      rewrite Hnum in Hdm.
      assert (Hq0 : q0 = Z.pos (int_mant q) * 2 ^ k) by nia.
      f_equal; [exact Hq0|]. subst q0. lia. }
    rewrite Hde, new_location_exact.
    replace (int_exp (q * b) - int_exp b - 24) with (int_exp q - k) by (subst k; lia).
    apply round_aux_exact; [exact Hk| |unfold F32.emax, F32.prec; lia].
    rewrite int_mant_digits by lia. rewrite fexp_eq. lia.
Qed.

Lemma nonzero_of_Z_pos (b : Z) : 0 < b < 2 ^ 24 -> F32.nonzero (F32.of_Z b) = true.
Proof.
  intros Hb. destruct b as [|b|b]; [lia| |lia]. rewrite of_Z_pos by lia. reflexivity.
Qed.

Lemma ltb_of_Z_zero (n : Z) : 0 <= n < 2 ^ 24 -> F32.ltb (F32.of_Z n) F32.zero = false.
Proof.
  intros Hn. destruct n as [|n|n]; [reflexivity| |lia]. rewrite of_Z_pos by lia. reflexivity.
Qed.

Lemma nonzero_of_Z (n : Z) :
  0 <= n < 2 ^ 24 -> F32.nonzero (F32.of_Z n) = negb (n =? 0).
Proof.
  intros Hn. destruct n as [|n|n]; [reflexivity| |lia]. rewrite of_Z_pos by lia. reflexivity.
Qed.

(** The sign of what [binary_round_aux] returns is the sign it is given. *)
Lemma round_aux_sign (s : bool) (m e : Z) (l : location) :
  F32.sign_bit (binary_round_aux F32.prec F32.emax s m e l) = s \/
  binary_round_aux F32.prec F32.emax s m e l = S754_nan.
Proof.
  unfold binary_round_aux.
  destruct (shr_fexp _ _ m e l) as [mrs' e'].
  destruct (shr_fexp _ _ _ e' loc_Exact) as [mrs'' e''].
  destruct (shr_m mrs'') as [|p|p]; [left; reflexivity| |right; reflexivity].
  destruct (e'' <=? F32.emax - F32.prec); left; reflexivity.
Qed.

Lemma div_sign_nonneg (x y : f32) :
  F32.sign_bit x = false -> F32.sign_bit y = false ->
  F32.sign_bit (F32.div x y) = false.
Proof.
  intros Hx Hy.
  destruct x as [sx|sx| |sx mx ex], y as [sy|sy| |sy my ey];
    cbn in Hx, Hy; subst; try reflexivity.
  unfold F32.div. cbn [SFdiv xorb].
  destruct (SFdiv_core_binary _ _ _ _ _ _) as [[mz ez] lz].
  destruct (round_aux_sign false mz ez lz) as [H|H]; rewrite H; reflexivity.
Qed.

Lemma sign_of_Z (n : Z) : 0 <= n < 2 ^ 24 -> F32.sign_bit (F32.of_Z n) = false.
Proof.
  intros Hn. destruct n as [|n|n]; [reflexivity| |lia]. rewrite of_Z_pos by lia. reflexivity.
Qed.

(** [%] and [//] on integers below [2^24] are the integer operations. *)
Lemma npy_divmod_of_Z (a b : Z) :
  0 <= a < 2 ^ 24 -> 0 < b < 2 ^ 24 ->
  npy_divmod (F32.of_Z a) (F32.of_Z b) = (F32.of_Z (a / b), F32.of_Z (a mod b)).
Proof.
  intros Ha Hb.
  pose proof (Z.mod_pos_bound a b ltac:(lia)) as Hmod.
  pose proof (Z.div_mod a b ltac:(lia)) as Hdm.
  assert (Hq : 0 <= a / b) by (apply Z.div_pos; lia).
  assert (Hqb : a / b * b = a - a mod b) by lia.
  assert (Hq24 : a / b < 2 ^ 24) by nia.
  unfold npy_divmod.
  rewrite nonzero_of_Z_pos by lia. cbn [negb].
  rewrite fmod_of_Z by lia.
  rewrite sub_of_Z by lia.
  rewrite <- Hqb, div_of_Z by lia.
  rewrite (nonzero_of_Z (a mod b)) by lia.
  rewrite (ltb_of_Z_zero b), (ltb_of_Z_zero (a mod b)) by lia.
  cbn [Bool.eqb negb].
  assert (Hmod1 : (if negb (a mod b =? 0)
                   then (F32.of_Z (a mod b), F32.of_Z (a / b))
                   else (F32.copysign_zero (F32.of_Z b), F32.of_Z (a / b)))
                  = (F32.of_Z (a mod b), F32.of_Z (a / b))).
  { destruct (Z.eqb_spec (a mod b) 0) as [Hz|Hz]; cbn [negb]; [|reflexivity].
    rewrite Hz. unfold F32.copysign_zero. rewrite sign_of_Z by lia. reflexivity. }
  rewrite Hmod1.
  rewrite (nonzero_of_Z (a / b)) by lia.
  destruct (Z.eqb_spec (a / b) 0) as [Hz|Hz]; cbn [negb].
  - f_equal. rewrite Hz. unfold F32.copysign_zero.
    rewrite div_sign_nonneg by (apply sign_of_Z; lia). reflexivity.
  - rewrite floor_of_Z by lia.
    replace (F32.sub (F32.of_Z (a / b)) (F32.of_Z (a / b))) with F32.zero.
    2:{ rewrite sub_of_Z by lia. rewrite Z.sub_diag. reflexivity. }
    reflexivity.
Qed.

Lemma np_remainder_of_Z (a b : Z) :
  0 <= a < 2 ^ 24 -> 0 < b < 2 ^ 24 ->
  np_remainder (F32.of_Z a) (F32.of_Z b) = F32.of_Z (a mod b).
Proof.
  intros Ha Hb. unfold np_remainder.
  rewrite nonzero_of_Z_pos, npy_divmod_of_Z by lia. reflexivity.
Qed.

Lemma np_floor_divide_of_Z (a b : Z) :
  0 <= a < 2 ^ 24 -> 0 < b < 2 ^ 24 ->
  np_floor_divide (F32.of_Z a) (F32.of_Z b) = F32.of_Z (a / b).
Proof.
  intros Ha Hb. unfold np_floor_divide.
  rewrite nonzero_of_Z_pos, npy_divmod_of_Z by lia. reflexivity.
Qed.

(** ** The monad *)

Lemma bind_returned {A B} (m : M A) (k : A -> M B) (s s' : store) (a : A) :
  m s = (Returned a, s') -> bind m k s = k a s'.
Proof. intros H. unfold bind. rewrite H. reflexivity. Qed.

Lemma bind_raised {A B} (m : M A) (k : A -> M B) (s s' : store) (e : exn) :
  m s = (Raised e, s') -> bind m k s = (Raised e, s').
Proof. intros H. unfold bind. rewrite H. reflexivity. Qed.

Lemma load_some (l : loc) (s : store) (a : ndarray) :
  s !! l = Some a -> load l s = (Returned a, s).
Proof. intros H. unfold load. rewrite H. reflexivity. Qed.

(** A loop over [range] whose steps carry a family of stores along. *)
Lemma for_each_seqZ (body : Z -> M unit) (S : Z -> store) (len : nat) (m : Z) :
  (forall i, m <= i < m + Z.of_nat len -> body i (S i) = (Returned tt, S (i + 1))) ->
  for_each (seqZ m (Z.of_nat len)) body (S m) = (Returned tt, S (m + Z.of_nat len)).
Proof.
  revert m. induction len as [|len IH]; intros m Hstep.
  - rewrite seqZ_nil by lia. cbn. rewrite Z.add_0_r. reflexivity.
  - rewrite seqZ_cons by lia. cbn [for_each].
    rewrite (bind_returned _ _ _ _ _ (Hstep m ltac:(lia))).
    replace (Z.pred (Z.of_nat (Datatypes.S len))) with (Z.of_nat len) by lia.
    replace (Z.succ m) with (m + 1) by lia.
    rewrite IH by (intros i Hi; apply Hstep; lia).
    f_equal. f_equal. lia.
Qed.

Lemma for_each_range (body : Z -> M unit) (S : Z -> store) (n : Z) :
  0 <= n ->
  (forall i, 0 <= i < n -> body i (S i) = (Returned tt, S (i + 1))) ->
  for_each (range n) body (S 0) = (Returned tt, S n).
Proof.
  intros Hn Hstep. unfold range.
  rewrite <- (Z2Nat.id n Hn) at 1.
  rewrite for_each_seqZ; [f_equal; f_equal; lia|].
  intros i Hi. apply Hstep. lia.
Qed.

(** ** Lists: rows, reductions, concatenation *)

Lemma rows_length (n count : Z) (buf : list f32) :
  length (rows n count buf) = Z.to_nat count.
Proof. unfold rows, range. rewrite length_fmap, length_seqZ. reflexivity. Qed.

Lemma rows_lookup (n count : Z) (buf : list f32) (j : Z) :
  0 <= j < count ->
  rows n count buf !! Z.to_nat j
  = Some (take (Z.to_nat n) (drop (Z.to_nat (j * n)) buf)).
Proof.
  intros Hj. unfold rows, range.
  rewrite list_lookup_fmap, lookup_seqZ_lt by lia.
  cbn. rewrite Z2Nat.id by lia. reflexivity.
Qed.

Lemma rows_elem (n count : Z) (buf row : list f32) :
  row ∈ rows n count buf ->
  exists j, 0 <= j < count /\ row = take (Z.to_nat n) (drop (Z.to_nat (j * n)) buf).
Proof.
  unfold rows, range. intros H. apply list_elem_of_fmap in H as (j & -> & Hj).
  apply elem_of_seqZ in Hj. exists j. split; [lia|reflexivity].
Qed.

Lemma row_length (n count : Z) (buf row : list f32) :
  0 <= n -> Z.of_nat (length buf) = count * n ->
  row ∈ rows n count buf -> length row = Z.to_nat n.
Proof.
  intros Hn Hlen Hrow. apply rows_elem in Hrow as (j & Hj & ->).
  rewrite length_take, length_drop. nia.
Qed.

Lemma row_lookup (n : Z) (buf : list f32) (j i : Z) :
  0 <= j -> 0 <= i < n ->
  take (Z.to_nat n) (drop (Z.to_nat (j * n)) buf) !! Z.to_nat i
  = buf !! Z.to_nat (j * n + i).
Proof.
  intros Hj Hi. rewrite lookup_take_lt by lia. rewrite lookup_drop.
  f_equal. nia.
Qed.

Lemma reduce_axis_total {A} (f : list f32 -> option A) (d : A) (rs : list (list f32)) :
  (forall r, r ∈ rs -> is_Some (f r)) ->
  reduce_axis f rs = Returned ((fun r => default d (f r)) <$> rs).
Proof.
  induction rs as [|r rs IH]; intros Hall; [reflexivity|].
  cbn [reduce_axis fmap list_fmap].
  destruct (Hall r) as [x Hx]; [left|]. rewrite Hx.
  rewrite IH by (intros r' Hr'; apply Hall; right; exact Hr'). reflexivity.
Qed.

Lemma reduce_axis_empty {A} (f : list f32 -> option A) (r : list f32)
    (rs : list (list f32)) :
  f r = None -> reduce_axis f (r :: rs) = Raised ValueError.
Proof. intros H. cbn. rewrite H. reflexivity. Qed.

Lemma zip_with_fmap_same {A B C D} (f : B -> C -> D) (g : A -> B) (h : A -> C)
    (l : list A) :
  zip_with f (g <$> l) (h <$> l) = (fun x => f (g x) (h x)) <$> l.
Proof. induction l as [|x l IH]; [reflexivity|]. cbn. rewrite IH. reflexivity. Qed.

Lemma concat3_fmap {A} (gx gy gz : A -> f32) (l : list A) :
  concat3 (gx <$> l) (gy <$> l) (gz <$> l)
  = concat ((fun r => [gx r; gy r; gz r]) <$> l).
Proof. induction l as [|x l IH]; [reflexivity|]. cbn. rewrite IH. reflexivity. Qed.

Lemma length_concat_fmap3 {A} (f : A -> list f32) (l : list A) :
  (forall r, length (f r) = 3%nat) ->
  length (concat (f <$> l)) = (3 * length l)%nat.
Proof.
  intros Hf. induction l as [|x l IH]; [reflexivity|].
  cbn. rewrite length_app, Hf, IH. lia.
Qed.

Lemma np_argmax_is_Some (row : list f32) : row <> [] -> is_Some (np_argmax row).
Proof. destruct row; [congruence|]. intros _. eexists. reflexivity. Qed.

Lemma has_zero_elem (b : bool) (l : list f32) :
  has_zero b l = true -> S754_zero b ∈ l.
Proof.
  unfold has_zero. intros H. apply existsb_exists in H as (v & Hin & Hv).
  destruct v as [b'| | |]; try discriminate.
  apply Bool.eqb_prop in Hv as ->. apply list_elem_of_In. exact Hin.
Qed.

Section Build.

Context {build : Reduction}.

(** [max] returns an element of the row: the one the scalar loop ends
    on, up to the sign of a zero. *)
Lemma np_max_scalar (row : list f32) (m : f32) :
  scalar_max row = Some m ->
  exists s, np_max row = Some s /\ same_number m s /\ (m ∈ row -> s ∈ row).
Proof.
  intros Hm. unfold np_max. rewrite Hm. eexists. split; [reflexivity|].
  destruct m as [b| | |]; try (split; [left; reflexivity|intros Hin; exact Hin]).
  destruct (has_zero true row && has_zero false row) eqn:Hboth.
  - split; [right; eauto|]. intros _.
    apply andb_prop in Hboth as [Ht Hf].
    destruct (zero_sign row); apply has_zero_elem; assumption.
  - split; [left; reflexivity|intros Hin; exact Hin].
Qed.

(** A maximum other than zero is the value of the scalar loop. *)
Lemma np_max_nonzero (row : list f32) (m : f32) :
  scalar_max row = Some m -> F32.eqb m F32.zero = false -> np_max row = Some m.
Proof.
  intros Hm Hnz. unfold np_max. rewrite Hm.
  destruct m as [s|s| |s mm e]; try reflexivity. destruct s; discriminate.
Qed.

Lemma np_max_is_Some (row : list f32) : row <> [] -> is_Some (np_max row).
Proof.
  destruct row as [|v ip]; [congruence|]. intros _.
  destruct (np_max_scalar (v :: ip) _ eq_refl) as (s & -> & _). eexists. reflexivity.
Qed.

Lemma F_argmax_is_Some (row : list f32) : row <> [] -> is_Some (F_argmax row).
Proof.
  intros Hne. unfold F_argmax. destruct (np_argmax_is_Some row Hne) as [i ->].
  eexists. reflexivity.
Qed.

Lemma F_argmax_default (row : list f32) :
  default 0 (F_argmax row) = astype_int32 (slot_index row).
Proof. unfold F_argmax, slot_index. destruct (np_argmax row); reflexivity. Qed.

(** An index that fits [int32] is unchanged by the cast. *)
Lemma astype_int32_small (z : Z) : - 2 ^ 31 <= z < 2 ^ 31 -> astype_int32 z = z.
Proof. intros Hz. unfold astype_int32. rewrite Z.mod_small; lia. Qed.

Lemma astype_int32_range (z : Z) : - 2 ^ 31 <= astype_int32 z < 2 ^ 31.
Proof.
  unfold astype_int32.
  pose proof (Z.mod_pos_bound (z + 2 ^ 31) (2 ^ 32) ltac:(lia)). lia.
Qed.

Lemma slot_record_length (h w : Z) (row : list f32) :
  length (slot_record h w row) = 3%nat.
Proof. reflexivity. Qed.

Lemma take1_drop {A} (l : list A) (i : nat) (v : A) :
  l !! i = Some v -> take 1 (drop i l) = [v].
Proof. intros H. rewrite (drop_S l v i H). reflexivity. Qed.

(** Indexing a four-dimensional array with four indices in range. *)
Lemma index_offset4 (d0 d1 d2 d3 i0 i1 i2 i3 : Z) :
  0 <= i0 < d0 -> 0 <= i1 < d1 -> 0 <= i2 < d2 -> 0 <= i3 < d3 ->
  index_offset [d0; d1; d2; d3] [i0; i1; i2; i3] 0
  = Returned (((i0 * d1 + i1) * d2 + i2) * d3 + i3, []).
Proof.
  intros H0 H1 H2 H3. cbn [index_offset].
  repeat match goal with
         | |- context [?i <? 0] =>
             replace (i <? 0) with false by (symmetry; apply Z.ltb_ge; lia)
         | |- context [(0 <=? ?i) && (?i <? ?d)] =>
             replace ((0 <=? i) && (i <? d)) with true
               by (symmetry; apply andb_true_intro; split;
                   [apply Z.leb_le|apply Z.ltb_lt]; lia)
         end.
  rewrite Z.mul_0_l, Z.add_0_l. reflexivity.
Qed.

Lemma index_offset2 (d0 d1 i0 i1 : Z) (rest : list Z) :
  0 <= i0 < d0 -> 0 <= i1 < d1 ->
  index_offset (d0 :: d1 :: rest) [i0; i1] 0 = Returned (i0 * d1 + i1, rest).
Proof.
  intros H0 H1. cbn [index_offset].
  repeat match goal with
         | |- context [?i <? 0] =>
             replace (i <? 0) with false by (symmetry; apply Z.ltb_ge; lia)
         | |- context [(0 <=? ?i) && (?i <? ?d)] =>
             replace ((0 <=? i) && (i <? d)) with true
               by (symmetry; apply andb_true_intro; split;
                   [apply Z.leb_le|apply Z.ltb_lt]; lia)
         end.
  rewrite Z.mul_0_l, Z.add_0_l. reflexivity.
Qed.

(** ** The decoding of a well-shaped heatmap *)

Section Decode.

Variables (self : SimplePose) (σ : store) (hl : loc) (a : ndarray).
Variables (B K H W : Z).

Hypothesis Hload : σ !! hl = Some a.
Hypothesis Hshape : shape a = [B; K; H; W].
Hypothesis Hlen : Z.of_nat (length (data a)) = B * K * (H * W).
Hypothesis HB : 0 < B.
Hypothesis HK : 0 < K.
Hypothesis HH : 0 < H.
Hypothesis HW : 0 < W.
Hypothesis Hkp : keypoints self = K.
Hypothesis Hout : out_size self = (H, W).

Let rs : list (list f32) := rows (H * W) (B * K) (data a).

Hypothesis Hkeys : forall row, row ∈ rs ->
  is_Some (F32.trunc (slot_key_x W row)) /\ is_Some (F32.trunc (slot_key_y W row)).

Let l : loc := fresh (dom σ).

(** The buffer of [keypoints] once the first [j] slots are refined. *)
Let D (j : nat) : list f32 :=
  concat (slot_record H W <$> take j rs) ++ concat (slot_initial W <$> drop j rs).

Let σD (j : Z) : store := <[l := NDArray [B; K; 3] (D (Z.to_nat j))]> σ.

Lemma fresh_ne : l <> hl.
Proof.
  intros Heq. apply (is_fresh (dom σ)). fold l. rewrite Heq.
  apply elem_of_dom. eexists. exact Hload.
Qed.

Lemma σD_heatmap (j : Z) : σD j !! hl = Some a.
Proof. unfold σD. rewrite lookup_insert_ne by apply fresh_ne. exact Hload. Qed.

Lemma σD_keypoints (j : Z) : σD j !! l = Some (NDArray [B; K; 3] (D (Z.to_nat j))).
Proof. unfold σD. apply lookup_insert_eq. Qed.

Lemma rs_length : length rs = Z.to_nat (B * K).
Proof. apply rows_length. Qed.

Lemma rs_lookup (j : Z) :
  0 <= j < B * K ->
  rs !! Z.to_nat j
  = Some (take (Z.to_nat (H * W)) (drop (Z.to_nat (j * (H * W))) (data a))).
Proof. apply rows_lookup. Qed.

Lemma rs_row_length (row : list f32) : row ∈ rs -> length row = Z.to_nat (H * W).
Proof. apply (row_length (H * W) (B * K)); [lia|exact Hlen]. Qed.

Lemma rs_row_nonempty (row : list f32) : row ∈ rs -> row <> [].
Proof.
  intros Hrow Hnil. apply rs_row_length in Hrow. rewrite Hnil in Hrow.
  cbn in Hrow. lia.
Qed.

(** Reading [heatmap[b, k, r, c]] through the store. *)
Lemma get_item_slot (b k r c : Z) (row : list f32) :
  0 <= b < B -> 0 <= k < K -> 0 <= r < H -> 0 <= c < W ->
  rs !! Z.to_nat (b * K + k) = Some row ->
  get_item a [b; k; r; c] = Returned [hm_at W row r c].
Proof.
  intros Hb Hk Hr Hc Hrow.
  assert (Hj : 0 <= b * K + k < B * K) by nia.
  rewrite rs_lookup in Hrow by exact Hj. injection Hrow as <-.
  unfold get_item. rewrite Hshape, index_offset4 by assumption.
  change (size []) with 1. rewrite Z.mul_1_r. change (Z.to_nat 1) with 1%nat.
  assert (Hin : 0 <= r * W + c < H * W) by nia.
  unfold hm_at. rewrite row_lookup by lia.
  replace (((b * K + k) * H + r) * W + c) with ((b * K + k) * (H * W) + (r * W + c)) by ring.
  destruct (data a !! Z.to_nat ((b * K + k) * (H * W) + (r * W + c))) as [v|] eqn:Hv.
  - rewrite (take1_drop _ _ _ Hv). reflexivity.
  - apply lookup_ge_None in Hv. nia.
Qed.

Lemma D_split (j : nat) (row : list f32) :
  rs !! j = Some row ->
  D j = concat (slot_record H W <$> take j rs)
        ++ slot_initial W row ++ concat (slot_initial W <$> drop (S j) rs) /\
  D (S j) = concat (slot_record H W <$> take j rs)
        ++ slot_record H W row ++ concat (slot_initial W <$> drop (S j) rs).
Proof.
  intros Hrow. unfold D. split.
  - rewrite (drop_S rs row j Hrow). reflexivity.
  - rewrite (take_S_r rs j row Hrow), fmap_app, concat_app.
    cbn [fmap list_fmap concat]. rewrite app_nil_r, <- app_assoc. reflexivity.
Qed.

Lemma D_prefix_length (j : nat) :
  (j <= length rs)%nat -> length (concat (slot_record H W <$> take j rs)) = (3 * j)%nat.
Proof.
  intros Hj. rewrite length_concat_fmap3 by apply slot_record_length.
  rewrite length_take. lia.
Qed.

Let keys_x : list f32 := slot_key_x W <$> rs.
Let keys_y : list f32 := slot_key_y W <$> rs.

(** One in-place update of [keypoints]: the heatmap is read through
    the store, the slot is written. *)
Lemma refine_axis_step (d : list f32) (hi lo : list Z) (vhi vlo old : f32)
    (pos : Z) :
  get_item a hi = Returned [vhi] ->
  get_item a lo = Returned [vlo] ->
  d !! Z.to_nat pos = Some old ->
  refine_axis hl l hi lo pos (<[l := NDArray [B; K; 3] d]> σ)
  = (Returned tt,
     <[l := NDArray [B; K; 3]
              (<[Z.to_nat pos := F32.add old (offset vhi vlo)]> d)]> σ).
Proof.
  intros Hhi Hlo Hold.
  unfold refine_axis, bind, lift, load.
  rewrite lookup_insert_ne by apply fresh_ne. rewrite Hload, Hhi, Hlo.
  cbn [zip_with fmap list_fmap]. unfold iadd, bind, load.
  rewrite lookup_insert_eq. cbn [data shape]. rewrite Hold.
  rewrite insert_insert_eq. reflexivity.
Qed.

(** The body of the loops takes the store from [j] refined slots to
    [j + 1]. *)
Lemma refine_slot_step (b k : Z) :
  0 <= b < B -> 0 <= k < K ->
  refine_slot self hl l keys_x keys_y b k (σD (b * K + k))
  = (Returned tt, σD (b * K + k + 1)).
Proof.
  intros Hb Hk.
  assert (Hj : 0 <= b * K + k < B * K) by nia.
  set (j := b * K + k) in *.
  pose proof (rs_lookup j Hj) as Hrow.
  set (row := take _ _) in Hrow.
  assert (Hin : row ∈ rs) by (eapply list_elem_of_lookup_2; exact Hrow).
  destruct (Hkeys row Hin) as [[px Hpx] [py Hpy]].
  assert (Hjn : (Z.to_nat j < length rs)%nat) by (rewrite rs_length; lia).
  destruct (D_split (Z.to_nat j) row Hrow) as [HD HD'].
  pose proof (D_prefix_length (Z.to_nat j) ltac:(lia)) as HP.
  set (P := concat (slot_record H W <$> take (Z.to_nat j) rs)) in *.
  set (S := concat (slot_initial W <$> drop (Datatypes.S (Z.to_nat j)) rs)) in *.
  unfold σD. replace (Z.to_nat (j + 1)) with (Datatypes.S (Z.to_nat j)) by lia.
  rewrite HD'.
  unfold refine_slot, bind, lift, load.
  rewrite lookup_insert_ne by apply fresh_ne. rewrite Hload.
  unfold check_view. rewrite Hshape, index_offset2 by lia. cbn [length Nat.leb].
  rewrite Hkp. fold j.
  unfold item, keys_x, keys_y. rewrite !list_lookup_fmap, Hrow. cbn [fmap option_fmap option_map].
  unfold py_int. rewrite Hpx, Hpy. rewrite Hout. cbn [fst snd].
  fold (interior H W px py).
  unfold slot_record, slot_x, slot_y, slot_px, slot_py.
  rewrite Hpx, Hpy. cbn [default from_option]. unfold id.
  destruct (interior H W px py) eqn:Hint.
  - unfold interior in Hint.
    apply andb_prop in Hint as [Hx Hy].
    apply andb_prop in Hx as [Hx1 Hx2]. apply andb_prop in Hy as [Hy1 Hy2].
    apply Z.ltb_lt in Hx1, Hx2, Hy1, Hy2.
    rewrite HD. unfold slot_initial.
    rewrite (refine_axis_step _ _ _
               (hm_at W row py (px + 1)) (hm_at W row py (px - 1))
               (slot_key_x W row)).
    2:{ apply get_item_slot; try lia. exact Hrow. }
    2:{ apply get_item_slot; try lia. exact Hrow. }
    2:{ rewrite lookup_app_r by lia.
        replace (Z.to_nat (j * 3 + 0) - length P)%nat with 0%nat by lia. reflexivity. }
    rewrite (refine_axis_step _ _ _
               (hm_at W row (py + 1) px) (hm_at W row (py - 1) px)
               (slot_key_y W row)).
    2:{ apply get_item_slot; try lia. exact Hrow. }
    2:{ apply get_item_slot; try lia. exact Hrow. }
    2:{ rewrite list_lookup_insert_ne by lia. rewrite lookup_app_r by lia.
        replace (Z.to_nat (j * 3 + 1) - length P)%nat with 1%nat by lia. reflexivity. }
    f_equal. f_equal. f_equal.
    rewrite (insert_app_r_alt P _ (Z.to_nat (j * 3 + 0))) by lia.
    rewrite (insert_app_r_alt P _ (Z.to_nat (j * 3 + 1))) by lia.
    replace (Z.to_nat (j * 3 + 0) - length P)%nat with 0%nat by lia.
    replace (Z.to_nat (j * 3 + 1) - length P)%nat with 1%nat by lia.
    reflexivity.
  - unfold ret. rewrite HD. reflexivity.
Qed.

(** The decoding returns a new array whose slots are the records of
    the slices, and changes nothing else. *)
Lemma decode_heatmap_spec :
  decode_heatmap self hl σ
  = (Returned l, <[l := NDArray [B; K; 3] (concat (slot_record H W <$> rs))]> σ).
Proof.
  unfold decode_heatmap.
  rewrite (bind_returned _ _ _ _ _ (load_some _ _ _ Hload)).
  rewrite Hshape. unfold lift at 1. unfold bind at 1.
  assert (Hsize : size [B; K; H; W] = H * W * (B * K)) by (cbn; ring).
  assert (Hreshape : reshape_infer [B; K; H; W] B (keypoints self) = Returned (H * W)).
  { unfold reshape_infer. rewrite Hkp, Hsize.
    replace (K <? 0) with false by (symmetry; apply Z.ltb_ge; lia).
    replace (0 <? B) with true by (symmetry; apply Z.ltb_lt; lia).
    replace (0 <? K) with true by (symmetry; apply Z.ltb_lt; lia).
    rewrite Z.mod_mul by lia. cbn [Z.eqb negb].
    replace (B * K =? 0) with false by (symmetry; apply Z.eqb_neq; lia).
    rewrite Z.div_mul by lia. reflexivity. }
  rewrite Hreshape. unfold lift at 1. unfold bind at 1.
  rewrite Hkp. fold rs.
  rewrite (reduce_axis_total F_argmax 0 rs)
    by (intros r Hr; apply F_argmax_is_Some, rs_row_nonempty; exact Hr).
  rewrite (list_fmap_ext (fun r => default 0 (F_argmax r))
             (fun r => astype_int32 (slot_index r)) rs)
    by (intros; apply F_argmax_default).
  rewrite (reduce_axis_total np_max F32.zero rs)
    by (intros r Hr; apply np_max_is_Some, rs_row_nonempty; exact Hr).
  unfold lift at 1. unfold bind at 1. unfold lift at 1. unfold bind at 1.
  rewrite Hout. cbn [snd].
  rewrite <- !list_fmap_compose, !zip_with_fmap_same.
  change (fmap (fun x => key_x W ((F32.of_Z ∘ (fun r => astype_int32 (slot_index r))) x)
                 ((score_mask ∘ (fun r => default F32.zero (np_max r))) x)) rs)
    with keys_x.
  change (fmap (fun x => key_y W ((F32.of_Z ∘ (fun r => astype_int32 (slot_index r))) x)
                 ((score_mask ∘ (fun r => default F32.zero (np_max r))) x)) rs)
    with keys_y.
  change (fmap (fun r => default F32.zero (np_max r)) rs) with (slot_score <$> rs).
  unfold keys_x, keys_y at 1. rewrite concat3_fmap.
  unfold alloc at 1. unfold bind at 1. fold l. fold keys_x keys_y.
  assert (HD0 : concat ((fun r => [slot_key_x W r; slot_key_y W r; slot_score r]) <$> rs)
                = D 0).
  { unfold D. rewrite take_0, drop_0. reflexivity. }
  rewrite HD0. change (<[l := NDArray [B; K; 3] (D 0)]> σ) with (σD 0).
  assert (Hloop :
    for_each (range B)
      (fun b => for_each (range K)
                  (fun k => refine_slot self hl l keys_x keys_y b k))
      (σD 0)
    = (Returned tt, σD (B * K))).
  { apply (for_each_range _ (fun b => σD (b * K))); [lia|].
    intros b Hb.
    replace (b * K) with (b * K + 0) at 1 by lia.
    replace ((b + 1) * K) with (b * K + K) by ring.
    apply (for_each_range _ (fun k => σD (b * K + k))); [lia|].
    intros k Hk. rewrite Z.add_assoc. apply refine_slot_step; assumption. }
  rewrite (bind_returned _ _ _ _ _ Hloop). unfold ret.
  f_equal. unfold σD. f_equal. f_equal. unfold D.
  rewrite take_ge, drop_ge by (rewrite rs_length; lia).
  cbn. apply app_nil_r.
Qed.

End Decode.

(** ** Rounding to binary32: magnitudes *)

Lemma Zdigits2_le (z d : Z) : 0 <= z -> 0 <= d -> Zdigits2 z <= d <-> z < 2 ^ d.
Proof.
  intros Hz Hd. destruct z as [|p|p]; [|apply (iff_sym (digits_le_pow2 p d Hd))|lia].
  cbn. split; intros _; [apply Z.pow_pos_nonneg|]; lia.
Qed.

Lemma Zdigits2_nonneg (z : Z) : 0 <= Zdigits2 z.
Proof. destruct z; cbn; lia. Qed.

Lemma Zdigits2_ge (z d : Z) : 0 <= z -> 0 <= d -> d < Zdigits2 z <-> 2 ^ d <= z.
Proof. intros Hz Hd. pose proof (Zdigits2_le z d Hz Hd). lia. Qed.

Lemma Zdigits2_succ (z : Z) : 0 <= z -> Zdigits2 (z + 1) <= Zdigits2 z + 1.
Proof.
  intros Hz. pose proof (Zdigits2_nonneg z).
  apply Zdigits2_le; [lia..|].
  assert (z < 2 ^ Zdigits2 z) by (apply Zdigits2_le; lia).
  rewrite Z.pow_add_r by lia. lia.
Qed.

Lemma Zdigits2_mono (y z : Z) : 0 <= y <= z -> Zdigits2 y <= Zdigits2 z.
Proof.
  intros Hyz. pose proof (Zdigits2_nonneg z).
  apply Zdigits2_le; [lia..|].
  assert (z < 2 ^ Zdigits2 z) by (apply Zdigits2_le; lia). lia.
Qed.

Lemma Zdigits2_div_le (z k : Z) :
  0 <= z -> 0 <= k -> Zdigits2 (z / 2 ^ k) <= Z.max (Zdigits2 z - k) 0.
Proof.
  intros Hz Hk. pose proof (Zdigits2_nonneg z).
  assert (Hpow : 0 < 2 ^ k) by (apply Z.pow_pos_nonneg; lia).
  assert (Hq : 0 <= z / 2 ^ k) by (apply Z.div_pos; lia).
  assert (Hlt : z < 2 ^ Zdigits2 z) by (apply Zdigits2_le; lia).
  apply Zdigits2_le; [lia..|].
  destruct (Z.le_gt_cases k (Zdigits2 z)) as [Hle|Hgt].
  - replace (Z.max (Zdigits2 z - k) 0) with (Zdigits2 z - k) by lia.
    apply Z.div_lt_upper_bound; [lia|].
    rewrite <- Z.pow_add_r by lia. replace (k + (Zdigits2 z - k)) with (Zdigits2 z) by lia.
    exact Hlt.
  - replace (Z.max (Zdigits2 z - k) 0) with 0 by lia.
    rewrite Z.div_small; [cbn; lia|].
    split; [lia|]. assert (2 ^ Zdigits2 z <= 2 ^ k) by (apply Z.pow_le_mono_r; lia). lia.
Qed.

Lemma Zdigits2_div_ge (z k : Z) :
  0 <= z -> 0 <= k -> Zdigits2 z - k <= Zdigits2 (z / 2 ^ k).
Proof.
  intros Hz Hk. pose proof (Zdigits2_nonneg (z / 2 ^ k)).
  destruct (Z.le_gt_cases (Zdigits2 z - k) 0) as [Hle|Hgt]; [lia|].
  assert (Hpow : 0 < 2 ^ k) by (apply Z.pow_pos_nonneg; lia).
  assert (Hq : 0 <= z / 2 ^ k) by (apply Z.div_pos; lia).
  assert (Hge : 2 ^ (Zdigits2 z - 1) <= z) by (apply Zdigits2_ge; lia).
  assert (2 ^ (Zdigits2 z - 1 - k) <= z / 2 ^ k).
  { apply Z.div_le_lower_bound; [lia|].
    rewrite <- Z.pow_add_r by lia.
    replace (k + (Zdigits2 z - 1 - k)) with (Zdigits2 z - 1) by lia. exact Hge. }
  assert (Zdigits2 z - 1 - k < Zdigits2 (z / 2 ^ k)) by (apply Zdigits2_ge; lia).
  lia.
Qed.

Lemma shr_1_m (r : shr_record) : 0 <= shr_m r -> shr_m (shr_1 r) = shr_m r / 2.
Proof.
  destruct r as [m r s]. cbn [shr_m]. intros Hm.
  rewrite <- Z.div2_div.
  destruct m as [|[p|p|]|p]; try reflexivity. lia.
Qed.

Lemma shr_iter_m (n : nat) (r : shr_record) :
  0 <= shr_m r -> shr_m (Nat.iter n shr_1 r) = shr_m r / 2 ^ Z.of_nat n.
Proof.
  intros Hr. induction n as [|n IH].
  - change (Z.of_nat 0) with 0. rewrite Z.pow_0_r, Z.div_1_r. reflexivity.
  - rewrite Nat.iter_succ. rewrite shr_1_m.
    + rewrite IH, Z.div_div by (try apply Z.pow_pos_nonneg; lia).
      rewrite Nat2Z.inj_succ, Z.pow_succ_r by lia. f_equal. lia.
    + rewrite IH. apply Z.div_pos; [lia|]. apply Z.pow_pos_nonneg; lia.
Qed.

(** What [shr] does to the mantissa and the exponent. *)
Lemma shr_spec (mrs : shr_record) (e n : Z) :
  0 <= shr_m mrs ->
  (n <= 0 /\ shr mrs e n = (mrs, e)) \/
  (0 < n /\ shr_m (fst (shr mrs e n)) = shr_m mrs / 2 ^ n /\ snd (shr mrs e n) = e + n).
Proof.
  intros Hm. destruct n as [|n|n]; [left; split; [lia|reflexivity]| |left; split; [lia|reflexivity]].
  right. split; [lia|]. cbn [shr fst snd]. split; [|reflexivity].
  rewrite iter_pos_nat, shr_iter_m by exact Hm. rewrite positive_nat_Z. reflexivity.
Qed.

Lemma shr_record_of_loc_m (m : Z) (l : location) : shr_m (shr_record_of_loc m l) = m.
Proof. destruct l as [|[]]; reflexivity. Qed.

Lemma round_nearest_even_range (m : Z) (l : location) :
  m <= round_nearest_even m l <= m + 1.
Proof. destruct l as [|[]]; cbn; try destruct (Z.even m); lia. Qed.

Section Magnitude.

Let fexp := SpecFloat.fexp F32.prec F32.emax.

(** One right shift to the exponent [fexp] asks for: the mantissa
    stays non-negative, magnitude and exponent stay bounded. *)
Lemma shr_fexp_bounds (m e : Z) (l : location) (M : Z) :
  0 <= m -> -149 <= M -> Zdigits2 m + e <= M ->
  let r := shr_fexp F32.prec F32.emax m e l in
  0 <= shr_m (fst r) /\
  Zdigits2 (shr_m (fst r)) + snd r <= M /\
  snd r <= Z.max e (Z.max (M - 24) (-149)) /\
  (-149 < Zdigits2 m + e ->
   Zdigits2 m + e <= Zdigits2 (shr_m (fst r)) + snd r /\
   (0 < m -> 0 < shr_m (fst r))).
Proof.
  intros Hm HM Hd. unfold shr_fexp. fold fexp.
  pose proof (fexp_eq (Zdigits2 m + e)) as Hf. fold fexp in Hf.
  destruct (shr_spec (shr_record_of_loc m l) e (fexp (Zdigits2 m + e) - e))
    as [[Hn Heq]|[Hn [Hmz Hez]]]; [rewrite shr_record_of_loc_m; exact Hm| |].
  - cbv zeta. rewrite Heq. cbn [fst snd]. rewrite shr_record_of_loc_m. lia.
  - cbv zeta. rewrite Hmz, Hez, shr_record_of_loc_m.
    remember (fexp (Zdigits2 m + e) - e) as n eqn:Hndef.
    pose proof (Zdigits2_div_le m n Hm ltac:(lia)).
    pose proof (Zdigits2_div_ge m n Hm ltac:(lia)).
    assert (Hq : 0 <= m / 2 ^ n) by (apply Z.div_pos; [lia|apply Z.pow_pos_nonneg; lia]).
    repeat split; try lia.
    intros Hpos. destruct (Z.eq_dec (m / 2 ^ n) 0) as [Hz|Hz]; [|lia].
    rewrite Hz in *. cbn [Zdigits2] in *. lia.
Qed.

(** [binary_round_aux] of a bounded non-negative mantissa is bounded:
    no overflow, no NaN. *)
Lemma round_aux_bounded (s : bool) (m e : Z) (l : location) (M : Z) :
  0 <= m -> -149 <= M <= 126 -> e <= 104 -> Zdigits2 m + e <= M ->
  bounded (M + 1) (binary_round_aux F32.prec F32.emax s m e l).
Proof.
  intros Hm HM He Hd. unfold binary_round_aux.
  pose proof (shr_fexp_bounds m e l M Hm ltac:(lia) Hd) as H1. cbv zeta in H1.
  destruct (shr_fexp F32.prec F32.emax m e l) as [mrs' e']. cbn [fst snd] in H1.
  destruct H1 as (Hm' & Hd' & He' & _).
  pose proof (round_nearest_even_range (shr_m mrs') (loc_of_shr_record mrs')) as Hr.
  set (m1 := round_nearest_even (shr_m mrs') (loc_of_shr_record mrs')) in *.
  assert (Hd1 : Zdigits2 m1 + e' <= M + 1).
  { pose proof (Zdigits2_mono m1 (shr_m mrs' + 1) ltac:(lia)).
    pose proof (Zdigits2_succ (shr_m mrs') Hm'). lia. }
  pose proof (shr_fexp_bounds m1 e' loc_Exact (M + 1) ltac:(lia) ltac:(lia) Hd1) as H2.
  cbv zeta in H2.
  destruct (shr_fexp F32.prec F32.emax m1 e' loc_Exact) as [mrs'' e''].
  cbn [fst snd] in H2. destruct H2 as (Hm'' & Hd'' & He'' & _).
  destruct (shr_m mrs'') as [|p|p]; [exact I| |lia].
  replace (e'' <=? F32.emax - F32.prec) with true
    by (symmetry; apply Z.leb_le; unfold F32.emax, F32.prec; lia).
  cbn [bounded]. exact Hd''.
Qed.

(** The same for a positive mantissa that is not tiny: the result is
    not zero and no smaller in magnitude. *)
Lemma round_aux_at_least (s : bool) (m : positive) (e : Z) (l : location) (M : Z) :
  1 <= digits m + e <= M -> M <= 126 -> e <= 104 ->
  at_least_one (binary_round_aux F32.prec F32.emax s (Z.pos m) e l).
Proof.
  intros Hd HM He. unfold binary_round_aux.
  pose proof (shr_fexp_bounds (Z.pos m) e l M ltac:(lia) ltac:(lia) ltac:(apply Hd)) as H1.
  cbv zeta in H1. change (Zdigits2 (Z.pos m)) with (digits m) in H1.
  destruct (shr_fexp F32.prec F32.emax (Z.pos m) e l) as [mrs' e']. cbn [fst snd] in H1.
  destruct H1 as (Hm' & Hd' & He' & Hlow).
  destruct (Hlow ltac:(lia)) as [Hlow1 Hpos1]. specialize (Hpos1 ltac:(lia)).
  pose proof (round_nearest_even_range (shr_m mrs') (loc_of_shr_record mrs')) as Hr.
  set (m1 := round_nearest_even (shr_m mrs') (loc_of_shr_record mrs')) in *.
  pose proof (Zdigits2_mono m1 (shr_m mrs' + 1) ltac:(lia)).
  pose proof (Zdigits2_succ (shr_m mrs') Hm').
  pose proof (Zdigits2_mono (shr_m mrs') m1 ltac:(lia)).
  pose proof (shr_fexp_bounds m1 e' loc_Exact (M + 1) ltac:(lia) ltac:(lia) ltac:(lia)) as H2.
  cbv zeta in H2.
  destruct (shr_fexp F32.prec F32.emax m1 e' loc_Exact) as [mrs'' e''].
  cbn [fst snd] in H2. destruct H2 as (Hm'' & Hd'' & He'' & Hlow2).
  destruct (Hlow2 ltac:(lia)) as [Hlow3 Hpos2]. specialize (Hpos2 ltac:(lia)).
  destruct (shr_m mrs'') as [|p|p]; [lia| |lia].
  replace (e'' <=? F32.emax - F32.prec) with true
    by (symmetry; apply Z.leb_le; unfold F32.emax, F32.prec; lia).
  cbn [at_least_one]. change (Zdigits2 (Z.pos p)) with (digits p) in Hlow3. lia.
Qed.

End Magnitude.

Lemma bounded_weaken (M M' : Z) (x : f32) : M <= M' -> bounded M x -> bounded M' x.
Proof. destruct x; cbn; lia. Qed.

Lemma bounded_trunc (M : Z) (x : f32) : bounded M x -> is_Some (F32.trunc x).
Proof. destruct x; cbn; intros H; try contradiction; eexists; reflexivity. Qed.

Lemma at_least_one_nonzero (x : f32) : at_least_one x -> F32.nonzero x = true.
Proof. destruct x as [| | |[] m e]; cbn; intros H; try contradiction; reflexivity. Qed.

Lemma Zdigits2_opp (z : Z) : Zdigits2 (- z) = Zdigits2 z.
Proof. destruct z; reflexivity. Qed.

Lemma Zdigits2_abs_le (z d : Z) : 0 <= d -> Z.abs z < 2 ^ d -> Zdigits2 z <= d.
Proof.
  intros Hd Hz. destruct (Z.abs_spec z) as [[Hs Ha]|[Hs Ha]]; rewrite Ha in Hz.
  - apply Zdigits2_le; lia.
  - rewrite <- Zdigits2_opp. apply Zdigits2_le; lia.
Qed.

Lemma shl_align_digits (mx : positive) (ex ez : Z) :
  ez <= ex -> digits (fst (shl_align mx ex ez)) + ez = digits mx + ex.
Proof.
  intros Hez. destruct (shl_align_spec mx ex ez) as [_ Hfst].
  replace (Z.min ex ez) with ez in Hfst by lia.
  rewrite (digits_mul_pow2 mx _ (ex - ez)) by (lia || exact Hfst). lia.
Qed.

Lemma aligned_lt (mx : positive) (ex ez M : Z) :
  ez <= ex -> digits mx + ex <= M ->
  Z.pos (fst (shl_align mx ex ez)) < 2 ^ (M - ez).
Proof.
  intros Hez HM. pose proof (shl_align_digits mx ex ez Hez).
  pose proof (digits_pos (fst (shl_align mx ex ez))).
  apply digits_le_pow2; lia.
Qed.

Lemma round_bounded (s : bool) (p : positive) (e M : Z) :
  digits p + e <= M -> -149 <= M <= 126 ->
  bounded (M + 1) (binary_round F32.prec F32.emax s p e).
Proof.
  intros Hd HM. unfold binary_round. fold (digits p).
  pose proof (fexp_eq (digits p + e)) as Hf.
  set (et := SpecFloat.fexp F32.prec F32.emax (digits p + e)) in *.
  destruct (shl_align_spec p e et) as [Hsnd Hfst].
  destruct (shl_align p e et) as [mz ez]. cbn [fst snd] in Hsnd, Hfst.
  apply round_aux_bounded; [lia|lia|lia|].
  change (Zdigits2 (Z.pos mz)) with (digits mz).
  rewrite (digits_mul_pow2 p mz (e - Z.min e et)) by (lia || exact Hfst). lia.
Qed.

Lemma round_at_least (s : bool) (p : positive) (e M : Z) :
  1 <= digits p + e <= M -> M <= 126 ->
  at_least_one (binary_round F32.prec F32.emax s p e).
Proof.
  intros Hd HM. unfold binary_round. fold (digits p).
  pose proof (fexp_eq (digits p + e)) as Hf.
  set (et := SpecFloat.fexp F32.prec F32.emax (digits p + e)) in *.
  destruct (shl_align_spec p e et) as [Hsnd Hfst].
  destruct (shl_align p e et) as [mz ez]. cbn [fst snd] in Hsnd, Hfst.
  assert (digits mz = digits p + (e - Z.min e et))
    by (apply digits_mul_pow2; lia || exact Hfst).
  apply (round_aux_at_least s mz ez loc_Exact M); lia.
Qed.

Lemma normalize_bounded (m e : Z) (sz : bool) (M : Z) :
  Zdigits2 m + e <= M -> -149 <= M <= 126 ->
  bounded (M + 1) (binary_normalize F32.prec F32.emax m e sz).
Proof.
  intros Hd HM. destruct m as [|p|p]; cbn [binary_normalize];
    [exact I|apply round_bounded; assumption..].
Qed.

Lemma of_Z_bounded (n : Z) : - 2 ^ 63 < n < 2 ^ 63 -> bounded 64 (F32.of_Z n).
Proof.
  intros Hn. unfold F32.of_Z, F32.of_dyadic.
  apply (normalize_bounded n 0 false 63); [|lia].
  pose proof (Zdigits2_abs_le n 63 ltac:(lia) ltac:(lia)). lia.
Qed.

Lemma of_Z_at_least_one (n : Z) : 1 <= n < 2 ^ 63 -> at_least_one (F32.of_Z n).
Proof.
  intros Hn. destruct n as [|p|p]; [lia| |lia].
  unfold F32.of_Z, F32.of_dyadic. cbn [binary_normalize].
  pose proof (digits_pos p).
  pose proof (proj1 (digits_le_pow2 p 63 ltac:(lia)) ltac:(lia)).
  apply (round_at_least false p 0 63); lia.
Qed.

Lemma one_bounded : bounded 1 F32.one.
Proof. unfold bounded, F32.one, digits. cbn. lia. Qed.

(** Sums and differences of bounded numbers are bounded. *)
Lemma addsub_normalize_bounded (sx sy : bool) (mx my : positive) (ex ey M : Z)
    (neg : bool) :
  digits mx + ex <= M -> digits my + ey <= M -> -149 <= M <= 124 ->
  let ez := Z.min ex ey in
  let A := cond_Zopp sx (Z.pos (fst (shl_align mx ex ez))) in
  let C := cond_Zopp sy (Z.pos (fst (shl_align my ey ez))) in
  bounded (M + 2)
    (binary_normalize F32.prec F32.emax (if neg then A - C else A + C) ez false).
Proof.
  intros Hx Hy HM ez A C.
  pose proof (aligned_lt mx ex ez M ltac:(subst ez; lia) Hx) as HA.
  pose proof (aligned_lt my ey ez M ltac:(subst ez; lia) Hy) as HC.
  pose proof (digits_pos mx). pose proof (digits_pos my).
  replace (M + 2) with (M + 1 + 1) by lia.
  apply (normalize_bounded _ ez false (M + 1)); [|lia].
  assert (Hpow : 2 ^ (M + 1 - ez) = 2 * 2 ^ (M - ez)).
  { replace (M + 1 - ez) with (Z.succ (M - ez)) by lia.
    apply Z.pow_succ_r. subst ez. lia. }
  assert (Zdigits2 (if neg then A - C else A + C) <= M + 1 - ez); [|lia].
  apply Zdigits2_abs_le; [subst ez; lia|]. rewrite Hpow.
  subst A C. destruct sx, sy, neg; cbn [cond_Zopp]; lia.
Qed.

Lemma add_bounded (M : Z) (x y : f32) :
  bounded M x -> bounded M y -> -149 <= M <= 124 -> bounded (M + 2) (F32.add x y).
Proof.
  intros Hx Hy HM.
  destruct x as [sx|sx| |sx mx ex], y as [sy|sy| |sy my ey];
    cbn [bounded] in Hx, Hy; try contradiction.
  - cbn. destruct sx, sy; exact I.
  - cbn. lia.
  - cbn. lia.
  - unfold F32.add. cbn [SFadd].
    apply (addsub_normalize_bounded sx sy mx my ex ey M false); assumption.
Qed.

Lemma sub_bounded (M : Z) (x y : f32) :
  bounded M x -> bounded M y -> -149 <= M <= 124 -> bounded (M + 2) (F32.sub x y).
Proof.
  intros Hx Hy HM.
  destruct x as [sx|sx| |sx mx ex], y as [sy|sy| |sy my ey];
    cbn [bounded] in Hx, Hy; try contradiction.
  - cbn. destruct sx, sy; exact I.
  - cbn. lia.
  - cbn. lia.
  - unfold F32.sub. cbn [SFsub].
    apply (addsub_normalize_bounded sx sy mx my ex ey M true); assumption.
Qed.

Lemma div_bounded (M : Z) (x y : f32) :
  bounded M x -> at_least_one y -> -149 <= M <= 125 ->
  bounded (M + 1) (F32.div x y).
Proof.
  intros Hx Hy HM.
  destruct y as [sy|sy| |sy my ey]; cbn [at_least_one] in Hy; try contradiction.
  destruct x as [sx|sx| |sx mx ex]; cbn [bounded] in Hx; try contradiction;
    [exact I|].
  unfold F32.div. cbn [SFdiv]. unfold SFdiv_core_binary.
  cbn [Zdigits2]. fold (digits mx). fold (digits my).
  pose proof (fexp_eq (digits mx + ex - (digits my + ey))) as Hf.
  set (ef := SpecFloat.fexp F32.prec F32.emax (digits mx + ex - (digits my + ey))) in *.
  set (e' := Z.min ef (ex - ey)).
  set (s := ex - ey - e').
  set (m' := match s with
             | 0 => Z.pos mx
             | Z.pos _ => Z.shiftl (Z.pos mx) s
             | Z.neg _ => 0
             end).
  pose proof (digits_bounds mx) as [_ Hmx]. pose proof (digits_bounds my) as [Hmy _].
  pose proof (digits_pos mx). pose proof (digits_pos my).
  assert (Hs : 0 <= s) by (subst s e'; lia).
  assert (Hm' : 0 <= m' < 2 ^ (digits mx + s)).
  { subst m'. destruct s as [|p|p] eqn:Hsp; [rewrite Z.add_0_r; lia| |lia].
    rewrite Z.shiftl_mul_pow2 by lia. rewrite Z.pow_add_r by lia.
    assert (0 < 2 ^ Z.pos p) by (apply Z.pow_pos_nonneg; lia). nia. }
  pose proof (Z_div_mod m' (Z.pos my) eq_refl) as Hdm.
  destruct (Z.div_eucl m' (Z.pos my)) as [q r]. destruct Hdm as [Hdm Hr].
  assert (Hq0 : 0 <= q) by nia.
  assert (Hpow : 0 < 2 ^ (digits my - 1)) by (apply Z.pow_pos_nonneg; lia).
  assert (Hqd : Zdigits2 q <= Z.max (digits mx + s - digits my + 1) 0).
  { apply Zdigits2_le; [lia..|].
    destruct (Z.le_gt_cases 0 (digits mx + s - digits my + 1)) as [Hc|Hc].
    - replace (Z.max (digits mx + s - digits my + 1) 0)
        with (digits mx + s - digits my + 1) by lia.
      assert (Hsplit : 2 ^ (digits mx + s)
                       = 2 ^ (digits mx + s - digits my + 1) * 2 ^ (digits my - 1)).
      { rewrite <- Z.pow_add_r by lia. f_equal. lia. }
      assert (0 < 2 ^ (digits mx + s - digits my + 1)) by (apply Z.pow_pos_nonneg; lia).
      nia.
    - replace (Z.max (digits mx + s - digits my + 1) 0) with 0 by lia.
      assert (2 ^ (digits mx + s) <= 2 ^ (digits my - 1))
        by (apply Z.pow_le_mono_r; lia).
      change (2 ^ 0) with 1. nia. }
  apply round_aux_bounded; [exact Hq0|lia|subst e'; lia|subst s e'; lia].
Qed.

Lemma floor_bounded (M : Z) (x : f32) :
  bounded M x -> 0 <= M <= 124 -> bounded (M + 2) (F32.floor x).
Proof.
  intros Hx HM. destruct x as [sx|sx| |sx mx ex]; cbn [bounded] in Hx;
    try contradiction; [exact I|].
  cbn [F32.floor]. destruct (0 <=? ex) eqn:He; [cbn [bounded]; lia|].
  apply Z.leb_gt in He.
  replace (M + 2) with (M + 1 + 1) by lia.
  apply (normalize_bounded _ 0 sx (M + 1)); [|lia].
  rewrite Z.shiftr_div_pow2 by lia.
  assert (Hpow : 0 < 2 ^ (- ex)) by (apply Z.pow_pos_nonneg; lia).
  pose proof (Zdigits2_div_le (Z.pos mx) (- ex) ltac:(lia) ltac:(lia)) as Hd.
  change (Zdigits2 (Z.pos mx)) with (digits mx) in Hd.
  assert (Hq : 0 <= Z.pos mx / 2 ^ (- ex)) by (apply Z.div_pos; lia).
  destruct sx; cbn [cond_Zopp]; [|lia].
  pose proof (Z.div_mod (Z.pos mx) (2 ^ (- ex)) ltac:(lia)) as H1.
  pose proof (Z.mod_pos_bound (Z.pos mx) (2 ^ (- ex)) Hpow) as H2.
  pose proof (Z.div_mod (- Z.pos mx) (2 ^ (- ex)) ltac:(lia)) as H3.
  pose proof (Z.mod_pos_bound (- Z.pos mx) (2 ^ (- ex)) Hpow) as H4.
  rewrite <- Zdigits2_opp.
  assert (0 <= - (- Z.pos mx / 2 ^ (- ex)) <= Z.pos mx / 2 ^ (- ex) + 1) by nia.
  pose proof (Zdigits2_mono (- (- Z.pos mx / 2 ^ (- ex))) (Z.pos mx / 2 ^ (- ex) + 1)
                ltac:(lia)).
  pose proof (Zdigits2_succ (Z.pos mx / 2 ^ (- ex)) Hq). lia.
Qed.

Lemma fmod_bounded (M : Z) (x y : f32) :
  F32.is_finite x = true -> bounded M y -> at_least_one y -> -149 <= M <= 126 ->
  bounded (M + 1) (F32.fmod x y).
Proof.
  intros Hx Hy Hy1 HM.
  destruct y as [sy|sy| |sy my ey]; cbn [at_least_one] in Hy1; try contradiction.
  cbn [bounded] in Hy.
  destruct x as [sx|sx| |sx mx ex]; try discriminate; [exact I|].
  cbn [F32.fmod].
  set (ez := Z.min ex ey).
  apply (normalize_bounded _ ez sx M); [|lia].
  pose proof (aligned_lt my ey ez M ltac:(subst ez; lia) Hy) as HB.
  pose proof (Z.rem_bound_pos (Z.pos (fst (shl_align mx ex ez)))
                (Z.pos (fst (shl_align my ey ez))) ltac:(lia) ltac:(lia)) as Hrem.
  pose proof (digits_pos my).
  assert (Zdigits2 (Z.rem (Z.pos (fst (shl_align mx ex ez)))
                      (Z.pos (fst (shl_align my ey ez)))) <= M - ez)
    by (apply Zdigits2_le; subst ez; lia).
  destruct sx; cbn [cond_Zopp]; rewrite ?Zdigits2_opp; lia.
Qed.

Lemma mul_mask_bounded (M : Z) (x mask : f32) :
  bounded M x -> mask = F32.one \/ mask = F32.zero -> -149 <= M <= 125 ->
  bounded (M + 1) (F32.mul x mask).
Proof.
  intros Hx [->| ->] HM;
    destruct x as [sx|sx| |sx mx ex]; cbn [bounded] in Hx; try contradiction;
    try exact I.
  unfold F32.mul, F32.one. cbn [SFmul].
  pose proof (digits_pos mx).
  apply round_aux_bounded; [lia|lia|lia|].
  change (Zdigits2 (Z.pos (mx * 8388608))) with (digits (mx * 8388608)).
  rewrite (digits_mul_pow2 mx (mx * 8388608) 23) by lia. lia.
Qed.

Lemma bounded_finite (M : Z) (x : f32) : bounded M x -> F32.is_finite x = true.
Proof. destruct x; cbn; intros H; try contradiction; reflexivity. Qed.

(** [%] and [//] of bounded numbers by a number that is at least one
    are bounded. *)
Lemma npy_divmod_bounded (a b : f32) :
  bounded 64 a -> bounded 64 b -> at_least_one b ->
  bounded 80 (fst (npy_divmod a b)) /\ bounded 80 (snd (npy_divmod a b)).
Proof.
  intros Ha Hb Hb1. unfold npy_divmod.
  rewrite (at_least_one_nonzero b Hb1). cbn [negb].
  pose proof (fmod_bounded 64 a b (bounded_finite _ _ Ha) Hb Hb1 ltac:(lia)) as Hmod.
  set (mod0 := F32.fmod a b) in *. cbn in Hmod.
  assert (Hdiv : bounded 68 (F32.div (F32.sub a mod0) b)).
  { apply (div_bounded 67); [|exact Hb1|lia].
    apply (sub_bounded 65); [eapply bounded_weaken; [|exact Ha]; lia|exact Hmod|lia]. }
  set (div0 := F32.div (F32.sub a mod0) b) in *.
  assert (Hpair : forall md : f32 * f32,
            bounded 70 (fst md) -> bounded 70 (snd md) ->
            bounded 80 (fst (let '(mod1, div1) := md in
               (if F32.nonzero div1
                then let fl := F32.floor div1 in
                     if F32.ltb F32.half (F32.sub div1 fl) then F32.add fl F32.one else fl
                else F32.copysign_zero (F32.div a b), mod1))) /\
            bounded 80 (snd (let '(mod1, div1) := md in
               (if F32.nonzero div1
                then let fl := F32.floor div1 in
                     if F32.ltb F32.half (F32.sub div1 fl) then F32.add fl F32.one else fl
                else F32.copysign_zero (F32.div a b), mod1)))).
  { intros [mod1 div1] Hm1 Hd1. cbn [fst snd] in *. split.
    - destruct (F32.nonzero div1); [|exact I].
      pose proof (floor_bounded 70 div1 Hd1 ltac:(lia)) as Hfl.
      cbv zeta. destruct (F32.ltb _ _).
      + eapply bounded_weaken; [|apply (add_bounded 72)]; [lia|exact Hfl| |lia].
        eapply bounded_weaken; [|exact one_bounded]. lia.
      + eapply bounded_weaken; [|exact Hfl]. lia.
    - eapply bounded_weaken; [|exact Hm1]. lia. }
  apply Hpair.
  - destruct (F32.nonzero mod0); [destruct (negb _)|]; cbn [fst].
    + eapply bounded_weaken; [|apply (add_bounded 65)]; [lia|exact Hmod| |lia].
      eapply bounded_weaken; [|exact Hb]. lia.
    + eapply bounded_weaken; [|exact Hmod]. lia.
    + exact I.
  - destruct (F32.nonzero mod0); [destruct (negb _)|]; cbn [snd].
    + apply (sub_bounded 68); [exact Hdiv| |lia].
      eapply bounded_weaken; [|exact one_bounded]. lia.
    + eapply bounded_weaken; [|exact Hdiv]. lia.
    + eapply bounded_weaken; [|exact Hdiv]. lia.
Qed.

(** The entries of [keys_x] and [keys_y] are finite whatever the index
    and the width, so [int(...)] never fails on them. *)
Lemma keys_bounded (w i : Z) (mask : f32) :
  - 2 ^ 63 < i < 2 ^ 63 -> 1 <= w < 2 ^ 63 -> mask = F32.one \/ mask = F32.zero ->
  bounded 81 (key_x w (F32.of_Z i) mask) /\ bounded 81 (key_y w (F32.of_Z i) mask).
Proof.
  intros Hi Hw Hmask.
  pose proof (of_Z_bounded i Hi) as Ha.
  pose proof (of_Z_bounded w ltac:(lia)) as Hb.
  pose proof (of_Z_at_least_one w Hw) as Hb1.
  destruct (npy_divmod_bounded _ _ Ha Hb Hb1) as [Hq Hr].
  unfold key_x, key_y, np_remainder, np_floor_divide.
  rewrite (at_least_one_nonzero _ Hb1). cbn [negb].
  split; apply (mul_mask_bounded 80); (assumption || lia).
Qed.

(** ** The decoding, slice by slice *)

Lemma same_number_exact (v s : f32) :
  same_number v s -> F32.eqb s F32.zero = false -> s = v.
Proof. intros [->|(b & b' & -> & ->)] Hs; [reflexivity|discriminate]. Qed.

Lemma slot_index_spec (row : list f32) :
  row <> [] ->
  exists r v, slot_index row = Z.of_nat r /\ argmax_post row r /\
              row !! r = Some v /\ same_number v (slot_score row) /\
              slot_score row ∈ row.
Proof.
  intros Hne. destruct (np_argmax_post row Hne) as (r & Hr & Hpost & Hmax).
  destruct Hpost as (v & Hv & Hrest).
  rewrite Hv in Hmax.
  destruct (np_max_scalar row v Hmax) as (s & Hs & Hsame & Hin).
  exists r, v. unfold slot_index, slot_score. rewrite Hr, Hs. cbn.
  split; [reflexivity|]. split; [exists v; split; assumption|].
  split; [exact Hv|]. split; [exact Hsame|].
  apply Hin. eapply list_elem_of_lookup_2. exact Hv.
Qed.

(** A score other than zero is the entry at the argmax itself. *)
Lemma slot_score_at (row : list f32) :
  row <> [] -> F32.eqb (slot_score row) F32.zero = false ->
  exists r, slot_index row = Z.of_nat r /\ argmax_post row r /\
            row !! r = Some (slot_score row).
Proof.
  intros Hne Hnz. destruct (slot_index_spec row Hne) as (r & v & Hr & Hpost & Hv & Hs & _).
  exists r. rewrite (same_number_exact v _ Hs Hnz). auto.
Qed.

Lemma slot_index_range (row : list f32) :
  row <> [] -> 0 <= slot_index row < Z.of_nat (length row).
Proof.
  intros Hne. destruct (slot_index_spec row Hne) as (r & v & -> & _ & Hr & _).
  apply lookup_lt_Some in Hr. lia.
Qed.

Lemma score_mask_cases (s : f32) : score_mask s = F32.one \/ score_mask s = F32.zero.
Proof. unfold score_mask. destruct (F32.ltb _ _); [left|right]; reflexivity. Qed.

Lemma slot_keys_bounded (w : Z) (row : list f32) :
  row <> [] -> Z.of_nat (length row) < 2 ^ 63 -> 1 <= w < 2 ^ 63 ->
  bounded 81 (slot_key_x w row) /\ bounded 81 (slot_key_y w row).
Proof.
  intros Hne Hlen Hw. pose proof (astype_int32_range (slot_index row)).
  apply keys_bounded; [lia|exact Hw|apply score_mask_cases].
Qed.

Lemma size4 (B K H W : Z) : size [B; K; H; W] = B * K * (H * W).
Proof. cbn. ring. Qed.

Lemma well_shaped_sizes (self : SimplePose) (a : ndarray) (B K H W : Z) :
  well_shaped self a B K H W ->
  Z.of_nat (length (data a)) = B * K * (H * W) /\
  0 < H * W < 2 ^ 63 /\ W < 2 ^ 63.
Proof.
  intros (Hv & Hs & HB & HK & HH & HW & _). destruct Hv as (_ & Hlen & Hsz).
  rewrite Hs, size4 in Hlen, Hsz. split; [exact Hlen|]. nia.
Qed.

Lemma slice_in_rows (a : ndarray) (B K H W b k : Z) :
  0 <= b < B -> 0 <= k < K ->
  rows (H * W) (B * K) (data a) !! Z.to_nat (b * K + k) = Some (slice a K H W b k).
Proof. intros Hb Hk. unfold slice. apply rows_lookup. nia. Qed.

(** For a well-shaped heatmap the decoding returns a new array of shape
    [(B, K, 3)] whose buffer lists the records of the slices, and leaves
    every other array as it was. *)
Theorem decode_heatmap_correct (self : SimplePose) (σ : store) (hl : loc)
    (a : ndarray) (B K H W : Z) :
  σ !! hl = Some a ->
  well_shaped self a B K H W ->
  decode_heatmap self hl σ
  = (Returned (fresh (dom σ)),
     <[fresh (dom σ) :=
         NDArray [B; K; 3]
           (concat (slot_record H W <$> rows (H * W) (B * K) (data a)))]> σ).
Proof.
  intros Hload Hws.
  destruct (well_shaped_sizes _ _ _ _ _ _ Hws) as (Hlen & Hn & HW63).
  destruct Hws as (Hv & Hs & HB & HK & HH & HW & Hkp & Hout).
  apply decode_heatmap_spec; try assumption.
  intros row Hrow.
  assert (Hrl : length row = Z.to_nat (H * W))
    by (apply (row_length (H * W) (B * K) (data a)); [lia|exact Hlen|exact Hrow]).
  assert (Hne : row <> []) by (intros ->; cbn in Hrl; lia).
  destruct (slot_keys_bounded W row Hne ltac:(lia) ltac:(lia)) as [Hx Hy].
  split; eapply bounded_trunc; eassumption.
Qed.

(** Reading the slot [(b, k)] of an array of records. *)
Lemma get_item_records {A} (f : A -> list f32) (rs : list A) (B K b k : Z) (r : A) :
  (forall r, length (f r) = 3%nat) ->
  0 <= b < B -> 0 <= k < K ->
  rs !! Z.to_nat (b * K + k) = Some r ->
  get_item (NDArray [B; K; 3] (concat (f <$> rs))) [b; k] = Returned (f r).
Proof.
  intros Hf Hb Hk Hr. unfold get_item. cbn [shape data].
  rewrite index_offset2 by assumption.
  change (size [3]) with 3. change (Z.to_nat 3) with 3%nat.
  replace (Z.to_nat ((b * K + k) * 3)) with (3 * Z.to_nat (b * K + k))%nat by nia.
  f_equal. revert Hr. generalize (Z.to_nat (b * K + k)). clear Hb Hk.
  induction rs as [|r0 rs IH]; intros j Hr; [discriminate|].
  destruct j as [|j].
  - cbn in Hr. injection Hr as ->. cbn [fmap list_fmap concat].
    rewrite Nat.mul_0_r, drop_0.
    rewrite take_app_length'; [reflexivity|]. rewrite Hf. reflexivity.
  - cbn in Hr. cbn [fmap list_fmap concat].
    replace (3 * S j)%nat with (length (f r0) + 3 * j)%nat by (rewrite Hf; lia).
    rewrite drop_app_add. apply IH. exact Hr.
Qed.

(** ** What the decoding writes *)

Lemma writes_only_ret (l0 : loc) {A} (x : A) : writes_only l0 (ret x).
Proof. intros s l _. reflexivity. Qed.

Lemma writes_only_lift (l0 : loc) {A} (r : result A) : writes_only l0 (lift r).
Proof. intros s l _. reflexivity. Qed.

Lemma writes_only_load (l0 l1 : loc) : writes_only l0 (load l1).
Proof. intros s l _. unfold load. destruct (s !! l1); reflexivity. Qed.

Lemma writes_only_bind (l0 : loc) {A B} (m : M A) (k : A -> M B) :
  writes_only l0 m -> (forall x, writes_only l0 (k x)) -> writes_only l0 (bind m k).
Proof.
  intros Hm Hk s l Hl. unfold bind. specialize (Hm s l Hl).
  destruct (m s) as [[x|e] s']; cbn [snd] in *; [|exact Hm].
  rewrite (Hk x s' l Hl). exact Hm.
Qed.

Lemma writes_only_iadd (l0 : loc) (i : Z) (v : list f32) : writes_only l0 (iadd l0 i v).
Proof.
  unfold iadd. apply writes_only_bind; [apply writes_only_load|].
  intros a s l Hl.
  destruct v as [|x [|y v]]; try reflexivity.
  destruct (data a !! Z.to_nat i); [|reflexivity].
  cbn [snd]. apply lookup_insert_ne. congruence.
Qed.

Lemma writes_only_for_each (l0 : loc) {A} (xs : list A) (body : A -> M unit) :
  (forall x, writes_only l0 (body x)) -> writes_only l0 (for_each xs body).
Proof.
  intros Hbody. induction xs as [|x xs IH]; cbn [for_each].
  - apply writes_only_ret.
  - apply writes_only_bind; [apply Hbody|]. intros _. exact IH.
Qed.

Lemma writes_only_refine_axis (hl l0 : loc) (hi lo : list Z) (pos : Z) :
  writes_only l0 (refine_axis hl l0 hi lo pos).
Proof.
  unfold refine_axis.
  apply writes_only_bind; [apply writes_only_load|]. intros a.
  apply writes_only_bind; [apply writes_only_lift|]. intros vhi.
  apply writes_only_bind; [apply writes_only_lift|]. intros vlo.
  apply writes_only_iadd.
Qed.

Lemma writes_only_refine_slot (self : SimplePose) (hl l0 : loc)
    (keys_x keys_y : list f32) (b k : Z) :
  writes_only l0 (refine_slot self hl l0 keys_x keys_y b k).
Proof.
  unfold refine_slot.
  apply writes_only_bind; [apply writes_only_load|]. intros a.
  apply writes_only_bind; [apply writes_only_lift|]. intros _.
  apply writes_only_bind; [apply writes_only_lift|]. intros kx.
  apply writes_only_bind; [apply writes_only_lift|]. intros px.
  apply writes_only_bind; [apply writes_only_lift|]. intros ky.
  apply writes_only_bind; [apply writes_only_lift|]. intros py.
  destruct (_ && _); [|apply writes_only_ret].
  apply writes_only_bind; [apply writes_only_refine_axis|]. intros _.
  apply writes_only_refine_axis.
Qed.

(** Whatever the input, the decoding changes no array that existed
    before the call, and what it returns is the array it allocated. *)
Theorem decode_heatmap_frame (self : SimplePose) (hl : loc) (σ σ' : store)
    (r : result loc) :
  decode_heatmap self hl σ = (r, σ') ->
  (forall l, l ∈ dom σ -> σ' !! l = σ !! l) /\
  (forall kp, r = Returned kp -> kp = fresh (dom σ)).
Proof.
  assert (Hfresh : forall l, l ∈ dom σ -> l <> fresh (dom σ)).
  { intros l Hl ->. exact (is_fresh (dom σ) Hl). }
  assert (Hstop : forall e : exn, (Raised e, σ) = (r, σ') ->
            (forall l, l ∈ dom σ -> σ' !! l = σ !! l) /\
            (forall kp, r = Returned kp -> kp = fresh (dom σ))).
  { intros e Heq. injection Heq as <- <-. split; [reflexivity|discriminate]. }
  unfold decode_heatmap, bind at 1, load.
  destruct (σ !! hl) as [a|]; [|apply Hstop].
  unfold bind at 1, lift at 1.
  destruct (shape a) as [|batch shp]; [apply Hstop|].
  unfold bind at 1, lift at 1.
  destruct (reshape_infer _ _ _) as [n|e]; [|apply Hstop].
  unfold bind at 1, lift at 1.
  destruct (reduce_axis F_argmax _) as [indices|e]; [|apply Hstop].
  unfold bind at 1, lift at 1.
  destruct (reduce_axis np_max _) as [scores|e]; [|apply Hstop].
  unfold bind at 1, alloc at 1.
  set (l0 := fresh (dom σ)) in *.
  match goal with
  | |- context [bind (for_each ?xs ?body) ?k ?s] =>
      pose proof (writes_only_for_each l0 xs body) as Hloop;
      set (loop := for_each xs body) in *; set (s1 := s) in *
  end.
  assert (Hw : writes_only l0 loop).
  { apply Hloop. intros b. apply writes_only_for_each. intros k.
    apply writes_only_refine_slot. }
  unfold bind. pose proof (Hw s1) as Hs.
  destruct (loop s1) as [[[]|e] s2]; cbn [fst snd] in *;
    intros Heq; injection Heq as <- <-.
  - split.
    + intros l Hl. rewrite (Hs l (Hfresh l Hl)). subst s1.
      apply lookup_insert_ne. intros Heq. apply (Hfresh l Hl). congruence.
    + intros kp Hkp. injection Hkp as <-. reflexivity.
  - split; [|discriminate].
    intros l Hl. rewrite (Hs l (Hfresh l Hl)). subst s1.
    apply lookup_insert_ne. intros Heq. apply (Hfresh l Hl). congruence.
Qed.

(** ** Slices of at most [2^24] cells: exact coordinates *)

Lemma slot_keys_exact (w : Z) (row : list f32) :
  row <> [] -> Z.of_nat (length row) < 2 ^ 24 -> 0 < w < 2 ^ 24 ->
  (F32.ltb F32.zero (slot_score row) = true ->
   slot_key_x w row = F32.of_Z (slot_index row mod w) /\
   slot_key_y w row = F32.of_Z (slot_index row / w)) /\
  (F32.ltb F32.zero (slot_score row) = false ->
   slot_key_x w row = F32.zero /\ slot_key_y w row = F32.zero).
Proof.
  intros Hne Hlen Hw. pose proof (slot_index_range row Hne) as Hi.
  pose proof (Z.mod_pos_bound (slot_index row) w ltac:(lia)) as Hmod.
  assert (Hq : 0 <= slot_index row / w) by (apply Z.div_pos; lia).
  assert (Hq2 : slot_index row / w <= slot_index row)
    by (apply Z.div_le_upper_bound; nia).
  unfold slot_key_x, slot_key_y, key_x, key_y, score_mask.
  rewrite astype_int32_small by lia.
  rewrite np_remainder_of_Z, np_floor_divide_of_Z by lia.
  split; intros ->.
  - rewrite !mul_one_of_Z by lia. split; reflexivity.
  - rewrite !mul_zero_of_Z by lia. split; reflexivity.
Qed.

Lemma slot_position_exact (w : Z) (row : list f32) :
  row <> [] -> Z.of_nat (length row) < 2 ^ 24 -> 0 < w < 2 ^ 24 ->
  (F32.ltb F32.zero (slot_score row) = true ->
   slot_px w row = slot_index row mod w /\ slot_py w row = slot_index row / w) /\
  (F32.ltb F32.zero (slot_score row) = false ->
   slot_px w row = 0 /\ slot_py w row = 0).
Proof.
  intros Hne Hlen Hw. pose proof (slot_index_range row Hne) as Hi.
  pose proof (Z.mod_pos_bound (slot_index row) w ltac:(lia)) as Hmod.
  assert (Hq : 0 <= slot_index row / w) by (apply Z.div_pos; lia).
  assert (Hq2 : slot_index row / w <= slot_index row)
    by (apply Z.div_le_upper_bound; nia).
  destruct (slot_keys_exact w row Hne Hlen Hw) as [Hpos Hgate].
  unfold slot_px, slot_py. split; intros Hs.
  - destruct (Hpos Hs) as [-> ->]. rewrite !trunc_of_Z by lia. split; reflexivity.
  - destruct (Hgate Hs) as [-> ->]. split; reflexivity.
Qed.

Lemma np_sign_cases (d : f32) :
  np_sign d = F32.one \/ np_sign d = SFopp F32.one \/ np_sign d = F32.zero \/
  (np_sign d = S754_nan /\ d = S754_nan).
Proof.
  unfold np_sign.
  destruct d as [s|s| |s m e]; try destruct s; cbn; auto.
Qed.

(** [np_sign] is the sign function the specification describes. *)
Lemma np_sign_spec (d : f32) :
  (F32.ltb F32.zero d = true -> np_sign d = F32.one) /\
  (F32.ltb d F32.zero = true -> np_sign d = SFopp F32.one) /\
  (F32.eqb d F32.zero = true -> np_sign d = F32.zero).
Proof.
  unfold np_sign.
  destruct d as [s|s| |s m e]; try destruct s; cbn; repeat split;
    intros H; (reflexivity || discriminate).
Qed.

Lemma round_aux_not_nan (s : bool) (m e : Z) (l : location) :
  0 <= m -> binary_round_aux F32.prec F32.emax s m e l <> S754_nan.
Proof.
  intros Hm. unfold binary_round_aux.
  pose proof (shr_fexp_bounds m e l (Z.max (Zdigits2 m + e) (-149)) Hm
                ltac:(lia) ltac:(lia)) as H1. cbv zeta in H1.
  destruct (shr_fexp F32.prec F32.emax m e l) as [mrs' e']. cbn [fst snd] in H1.
  destruct H1 as (Hm' & _).
  pose proof (round_nearest_even_range (shr_m mrs') (loc_of_shr_record mrs')) as Hr.
  set (m1 := round_nearest_even (shr_m mrs') (loc_of_shr_record mrs')) in *.
  pose proof (shr_fexp_bounds m1 e' loc_Exact (Z.max (Zdigits2 m1 + e') (-149))
                ltac:(lia) ltac:(lia) ltac:(lia)) as H2. cbv zeta in H2.
  destruct (shr_fexp F32.prec F32.emax m1 e' loc_Exact) as [mrs'' e''].
  cbn [fst snd] in H2. destruct H2 as (Hm'' & _).
  destruct (shr_m mrs'') as [|p|p]; [discriminate| |lia].
  destruct (e'' <=? F32.emax - F32.prec); discriminate.
Qed.

Lemma normalize_not_nan (m e : Z) (sz : bool) :
  binary_normalize F32.prec F32.emax m e sz <> S754_nan.
Proof.
  destruct m as [|p|p]; cbn [binary_normalize]; [discriminate| |];
    unfold binary_round; destruct (shl_align _ _ _) as [mz ez];
    apply round_aux_not_nan; lia.
Qed.

(** The difference of two finite numbers is a number. *)
Lemma sub_finite_not_nan (x y : f32) :
  F32.is_finite x = true -> F32.is_finite y = true -> F32.sub x y <> S754_nan.
Proof.
  intros Hx Hy.
  destruct x as [sx|sx| |sx mx ex], y as [sy|sy| |sy my ey]; try discriminate.
  - cbn. destruct sx, sy; discriminate.
  - unfold F32.sub. cbn [SFsub]. apply normalize_not_nan.
Qed.

Lemma mul_sign_quarter :
  F32.mul F32.one F32.quarter = F32.quarter /\
  F32.mul (SFopp F32.one) F32.quarter = SFopp F32.quarter /\
  F32.mul F32.zero F32.quarter = F32.zero.
Proof. repeat split; reflexivity. Qed.

(** The offset of finite neighbours is a quarter, up or down, or zero. *)
Lemma offset_finite (hi lo : f32) :
  F32.is_finite hi = true -> F32.is_finite lo = true ->
  offset hi lo = F32.quarter \/ offset hi lo = SFopp F32.quarter \/
  offset hi lo = F32.zero.
Proof.
  intros Hhi Hlo. unfold offset.
  destruct (np_sign_cases (F32.sub hi lo)) as [->|[->|[->|[_ Hnan]]]].
  - left. reflexivity.
  - right. left. reflexivity.
  - right. right. reflexivity.
  - destruct (sub_finite_not_nan hi lo Hhi Hlo Hnan).
Qed.

Lemma of_Z_quarters (n : Z) :
  0 <= n < 2 ^ 22 -> F32.of_Z n = F32.of_dyadic (4 * n) (-2).
Proof.
  intros Hn. unfold F32.of_Z.
  rewrite <- (of_dyadic_shift n 0 2) by lia.
  f_equal. lia.
Qed.

(** Adding the offset to an integer below [2^22] is exact. *)
Lemma add_offset_exact (n : Z) (o : f32) (t : Z) :
  1 <= n < 2 ^ 22 ->
  (o = F32.quarter /\ t = 4 * n + 1) \/ (o = SFopp F32.quarter /\ t = 4 * n - 1) \/
  (o = F32.zero /\ t = 4 * n) ->
  F32.add (F32.of_Z n) o = F32.of_dyadic t (-2).
Proof.
  intros Hn Ho.
  destruct n as [|n|n]; [lia| |lia].
  pose proof (int_exp_range n ltac:(lia)) as He.
  destruct Ho as [[-> ->]|[[-> ->]|[-> ->]]].
  - rewrite of_Z_pos by lia. unfold F32.add, F32.quarter. cbn [SFadd cond_Zopp].
    replace (Z.min (int_exp n) (-25)) with (-25) by lia.
    rewrite align_int by lia.
    rewrite <- (of_dyadic_shift (4 * Z.pos n + 1) (-2) 23) by lia.
    unfold F32.of_dyadic. f_equal.
    change (fst (shl_align 8388608 (-25) (-25))) with 8388608%positive.
    change (- -25) with 25. lia.
  - rewrite of_Z_pos by lia. unfold F32.add, F32.quarter. cbn [SFadd SFopp cond_Zopp negb].
    replace (Z.min (int_exp n) (-25)) with (-25) by lia.
    rewrite align_int by lia.
    rewrite <- (of_dyadic_shift (4 * Z.pos n - 1) (-2) 23) by lia.
    unfold F32.of_dyadic. f_equal.
    change (fst (shl_align 8388608 (-25) (-25))) with 8388608%positive.
    change (- -25) with 25. lia.
  - rewrite <- of_Z_quarters by lia. rewrite of_Z_pos by lia. reflexivity.
Qed.

(** [of_dyadic] is monotone on numbers it represents exactly. *)
Lemma of_dyadic_leb (t1 t2 e : Z) :
  0 <= t1 <= t2 -> t2 < 2 ^ 24 -> -149 <= e <= 100 ->
  F32.leb (F32.of_dyadic t1 e) (F32.of_dyadic t2 e) = true.
Proof.
  intros Ht Ht2 He.
  destruct t2 as [|t2|t2]; [replace t1 with 0 by lia; reflexivity| |lia].
  rewrite (of_dyadic_finite t2) by lia.
  destruct t1 as [|t1|t1]; [reflexivity| |lia].
  rewrite (of_dyadic_finite t1) by lia.
  assert (Hd : digits t1 <= digits t2) by (apply digits_mono; lia).
  pose proof (digits_pos t1).
  assert (Hd2 : digits t2 <= 24) by (apply digits_le_pow2; lia).
  set (e1 := Z.max (digits t1 + e - 24) (-149)).
  set (e2 := Z.max (digits t2 + e - 24) (-149)).
  assert (Hp1 : 0 < 2 ^ (e - e1)) by (apply Z.pow_pos_nonneg; subst e1; lia).
  assert (Hp2 : 0 < 2 ^ (e - e2)) by (apply Z.pow_pos_nonneg; subst e2; lia).
  apply leb_key; [reflexivity..|]. cbn [order_key]. unfold key_le, key_lt.
  rewrite !Z2Pos.id by lia.
  destruct (Z.eq_dec e1 e2) as [Heq|Hne].
  - rewrite Heq. assert (Z.pos t1 * 2 ^ (e - e2) <= Z.pos t2 * 2 ^ (e - e2)) by nia.
    destruct (Z.eq_dec (Z.pos t1 * 2 ^ (e - e2)) (Z.pos t2 * 2 ^ (e - e2))) as [Hm|Hm].
    + right. rewrite Hm. reflexivity.
    + left. lia.
  - left. subst e1 e2. lia.
Qed.

(** ** The result, slot by slot *)

Lemma records_lookup {A} (f : A -> list f32) (rs : list A) (j : nat) (r : A)
    (c : nat) :
  (forall r, length (f r) = 3%nat) -> (c < 3)%nat ->
  rs !! j = Some r ->
  concat (f <$> rs) !! (3 * j + c)%nat = f r !! c.
Proof.
  intros Hf Hc. revert j. induction rs as [|r0 rs IH]; intros j Hr; [discriminate|].
  cbn [fmap list_fmap concat]. destruct j as [|j].
  - cbn in Hr. injection Hr as ->. rewrite Nat.mul_0_r, Nat.add_0_l.
    apply lookup_app_l. rewrite Hf. exact Hc.
  - cbn in Hr. rewrite lookup_app_r by (rewrite Hf; lia).
    rewrite Hf. replace (3 * S j + c - 3)%nat with (3 * j + c)%nat by lia.
    apply IH. exact Hr.
Qed.

Lemma to_nat_slot (j c : Z) :
  0 <= j -> 0 <= c -> Z.to_nat (j * 3 + c) = (3 * Z.to_nat j + Z.to_nat c)%nat.
Proof. intros Hj Hc. lia. Qed.

(** The array the decoding returns, read slot by slot: as a sub-array
    [keypoints[b, k]] and as positions of the buffer. *)
Lemma decode_heatmap_slots (self : SimplePose) (σ : store) (hl : loc)
    (a : ndarray) (B K H W : Z) :
  σ !! hl = Some a ->
  well_shaped self a B K H W ->
  exists arr,
    decode_heatmap self hl σ
    = (Returned (fresh (dom σ)), <[fresh (dom σ) := arr]> σ) /\
    shape arr = [B; K; 3] /\
    Z.of_nat (length (data arr)) = B * K * 3 /\
    forall b k, 0 <= b < B -> 0 <= k < K ->
      get_item arr [b; k] = Returned (slot_record H W (slice a K H W b k)) /\
      data arr !! Z.to_nat ((b * K + k) * 3 + 0) = Some (slot_x H W (slice a K H W b k)) /\
      data arr !! Z.to_nat ((b * K + k) * 3 + 1) = Some (slot_y H W (slice a K H W b k)) /\
      data arr !! Z.to_nat ((b * K + k) * 3 + 2) = Some (slot_score (slice a K H W b k)).
Proof.
  intros Hload Hws. eexists. split; [apply (decode_heatmap_correct _ _ _ _ _ _ _ _ Hload Hws)|].
  destruct Hws as (_ & _ & HB & HK & _).
  cbn [shape data]. split; [reflexivity|]. split.
  - rewrite length_concat_fmap3 by apply slot_record_length.
    rewrite rows_length. nia.
  - intros b k Hb Hk.
    pose proof (slice_in_rows a B K H W b k Hb Hk) as Hrow.
    split; [apply (get_item_records _ _ B K b k _ (slot_record_length H W) Hb Hk Hrow)|].
    unfold slice in *.
    assert (Hj : 0 <= b * K + k) by nia.
    revert Hrow Hj. generalize (b * K + k). intros j Hrow Hj.
    rewrite !(to_nat_slot j) by (exact Hj || discriminate).
    change (Z.to_nat 0) with 0%nat. change (Z.to_nat 1) with 1%nat.
    change (Z.to_nat 2) with 2%nat.
    rewrite (records_lookup _ _ _ _ 0%nat (slot_record_length H W) ltac:(lia) Hrow).
    rewrite (records_lookup _ _ _ _ 1%nat (slot_record_length H W) ltac:(lia) Hrow).
    rewrite (records_lookup _ _ _ _ 2%nat (slot_record_length H W) ltac:(lia) Hrow).
    repeat split; reflexivity.
Qed.

Lemma slice_length (self : SimplePose) (a : ndarray) (B K H W b k : Z) :
  well_shaped self a B K H W -> 0 <= b < B -> 0 <= k < K ->
  Z.of_nat (length (slice a K H W b k)) = H * W.
Proof.
  intros Hws Hb Hk.
  destruct (well_shaped_sizes _ _ _ _ _ _ Hws) as (Hlen & Hn & _).
  pose proof (slice_in_rows a B K H W b k Hb Hk) as Hrow.
  apply list_elem_of_lookup_2 in Hrow.
  rewrite (row_length (H * W) (B * K) (data a) _ ltac:(lia) Hlen Hrow). lia.
Qed.

Lemma slice_nonempty (self : SimplePose) (a : ndarray) (B K H W b k : Z) :
  well_shaped self a B K H W -> 0 <= b < B -> 0 <= k < K ->
  slice a K H W b k <> [].
Proof.
  intros Hws Hb Hk Hnil.
  pose proof (slice_length self a B K H W b k Hws Hb Hk) as Hl.
  destruct (well_shaped_sizes _ _ _ _ _ _ Hws) as (_ & Hn & _).
  rewrite Hnil in Hl. cbn in Hl. lia.
Qed.

Lemma np_max_slot_score (row : list f32) : row <> [] -> np_max row = Some (slot_score row).
Proof.
  intros Hne. unfold slot_score. destruct (np_max_is_Some row Hne) as [v ->]. reflexivity.
Qed.


Lemma mul_zero_bounded (M : Z) (x : f32) :
  bounded M x -> F32.eqb (F32.mul x F32.zero) F32.zero = true /\
                 F32.trunc (F32.mul x F32.zero) = Some 0.
Proof.
  destruct x as [s|s| |s m e]; cbn [bounded]; intros H; try contradiction;
    split; reflexivity.
Qed.

Lemma interior_origin (h w : Z) : interior h w 0 0 = false.
Proof. reflexivity. Qed.

(** A slice whose peak is not positive: the keys are zero and the loops
    leave the slot alone. *)
Lemma slot_gated (h w : Z) (row : list f32) :
  row <> [] -> Z.of_nat (length row) < 2 ^ 63 -> 1 <= w < 2 ^ 63 ->
  F32.ltb F32.zero (slot_score row) = false ->
  F32.eqb (slot_key_x w row) F32.zero = true /\
  F32.eqb (slot_key_y w row) F32.zero = true /\
  slot_x h w row = slot_key_x w row /\ slot_y h w row = slot_key_y w row.
Proof.
  intros Hne Hlen Hw Hs. pose proof (astype_int32_range (slot_index row)) as Hi.
  pose proof (of_Z_bounded (astype_int32 (slot_index row)) ltac:(lia)) as Ha.
  pose proof (of_Z_bounded w ltac:(lia)) as Hb.
  pose proof (of_Z_at_least_one w Hw) as Hb1.
  destruct (npy_divmod_bounded _ _ Ha Hb Hb1) as [Hq Hr].
  assert (Hkx : slot_key_x w row
                = F32.mul (snd (npy_divmod (F32.of_Z (astype_int32 (slot_index row)))
                                                  (F32.of_Z w))) F32.zero).
  { unfold slot_key_x, key_x, np_remainder, score_mask.
    rewrite Hs, (at_least_one_nonzero _ Hb1). reflexivity. }
  assert (Hky : slot_key_y w row
                = F32.mul (fst (npy_divmod (F32.of_Z (astype_int32 (slot_index row)))
                                                  (F32.of_Z w))) F32.zero).
  { unfold slot_key_y, key_y, np_floor_divide, score_mask.
    rewrite Hs, (at_least_one_nonzero _ Hb1). reflexivity. }
  destruct (mul_zero_bounded _ _ Hr) as [Hx0 Hxt].
  destruct (mul_zero_bounded _ _ Hq) as [Hy0 Hyt].
  unfold slot_x, slot_y, slot_px, slot_py.
  rewrite Hkx, Hky, Hxt, Hyt. cbn [default from_option]. unfold id.
  rewrite interior_origin. repeat split; assumption.
Qed.

Lemma leb_same_number (w v s : f32) :
  same_number v s -> F32.leb w s = F32.leb w v.
Proof.
  intros [->|(b & b' & -> & ->)]; [reflexivity|].
  destruct w as [?|[]| |[] ? ?]; reflexivity.
Qed.

Lemma ltb_zero_nonzero (s : f32) :
  F32.ltb F32.zero s = true -> F32.eqb s F32.zero = false.
Proof. destruct s as [[]|[]| |[] m e]; cbn; congruence. Qed.

(** Without a NaN the score is an entry of the slice that no entry
    exceeds. *)
Lemma slot_score_max (row : list f32) :
  row <> [] -> S754_nan ∉ row ->
  slot_score row ∈ row /\ Forall (fun w => F32.leb w (slot_score row) = true) row.
Proof.
  intros Hne Hnan.
  destruct (slot_index_spec row Hne) as (r & v & _ & (u & Hu & _ & Hall) & Hv & Hs & Hin).
  split; [exact Hin|].
  assert (u = v) as -> by congruence.
  apply Forall_forall. intros w Hw. rewrite (leb_same_number w v _ Hs).
  destruct Hall as [Hn|Hall].
  - apply is_nan_true in Hn. subst v. exfalso. apply Hnan.
    eapply list_elem_of_lookup_2. exact Hv.
  - apply list_elem_of_lookup in Hw as [j Hj]. exact (Hall j w Hj).
Qed.

Lemma nan_in_max (row : list f32) :
  S754_nan ∈ row -> slot_score row = S754_nan.
Proof.
  intros Hin.
  assert (Hne : row <> []) by (intros ->; inversion Hin).
  destruct (slot_index_spec row Hne) as (r & v & _ & (u & Hu & _ & Hall) & Hv & Hs & _).
  assert (u = v) as -> by congruence.
  assert (v = S754_nan) as ->.
  { destruct Hall as [Hnan|Hall]; [apply is_nan_true; exact Hnan|].
    apply list_elem_of_lookup in Hin as [j Hj].
    specialize (Hall j S754_nan Hj). rewrite leb_nan_l in Hall. discriminate. }
  destruct Hs as [->|(b & b' & Hb & _)]; [reflexivity|discriminate].
Qed.

Lemma inf_in_max (row : list f32) :
  S754_infinity false ∈ row -> S754_nan ∉ row ->
  slot_score row = S754_infinity false.
Proof.
  intros Hin Hnone.
  assert (Hne : row <> []) by (intros ->; inversion Hin).
  destruct (slot_score_max row Hne Hnone) as [_ Hall].
  rewrite Forall_forall in Hall. specialize (Hall _ Hin).
  destruct (slot_score row) as [s|[]| |s m e]; cbn in Hall; try discriminate; reflexivity.
Qed.

(** The offset is a quarter, up or down, or zero, unless the difference
    of the neighbours is NaN. *)
Lemma offset_cases (hi lo : f32) :
  (F32.is_nan (F32.sub hi lo) = false /\ bounded 1 (offset hi lo)) \/
  (F32.is_nan (F32.sub hi lo) = true /\ offset hi lo = S754_nan).
Proof.
  assert (Hq : bounded 1 F32.quarter) by (vm_compute; discriminate).
  assert (Hq' : bounded 1 (SFopp F32.quarter)) by (vm_compute; discriminate).
  destruct mul_sign_quarter as (Hone & Hopp & _).
  unfold offset. destruct (F32.sub hi lo) as [s|s| |s m e].
  - left. split; [reflexivity|]. destruct s; exact I.
  - left. split; [reflexivity|].
    destruct s; [change (np_sign (S754_infinity true)) with (SFopp F32.one)
                |change (np_sign (S754_infinity false)) with F32.one].
    + rewrite Hopp. exact Hq'.
    + rewrite Hone. exact Hq.
  - right. split; reflexivity.
  - left. split; [reflexivity|].
    destruct s; [change (np_sign (S754_finite true m e)) with (SFopp F32.one)
                |change (np_sign (S754_finite false m e)) with F32.one].
    + rewrite Hopp. exact Hq'.
    + rewrite Hone. exact Hq.
Qed.

Lemma add_offset_nan (kx hi lo : f32) :
  bounded 81 kx ->
  F32.is_nan (F32.add kx (offset hi lo)) = F32.is_nan (F32.sub hi lo) /\
  F32.is_finite (F32.add kx (offset hi lo)) = negb (F32.is_nan (F32.sub hi lo)).
Proof.
  intros Hk. destruct (offset_cases hi lo) as [[-> Hb]|[-> ->]].
  - pose proof (add_bounded 81 kx _ Hk (bounded_weaken 1 81 _ ltac:(lia) Hb)
                  ltac:(lia)) as Hadd.
    pose proof (bounded_finite _ _ Hadd) as Hf. split; [|exact Hf].
    destruct (F32.add kx _); cbn in *; congruence.
  - destruct kx; cbn in Hk; try contradiction; split; reflexivity.
Qed.

(** A coordinate is NaN exactly when the slot was refined with
    neighbours whose difference is NaN; otherwise it is finite. *)
Lemma slot_xy_nan (h w : Z) (row : list f32) :
  row <> [] -> Z.of_nat (length row) < 2 ^ 63 -> 1 <= w < 2 ^ 63 ->
  let px := slot_px w row in
  let py := slot_py w row in
  (F32.is_nan (slot_x h w row) = true <->
   interior h w px py = true /\
   F32.is_nan (F32.sub (hm_at w row py (px + 1)) (hm_at w row py (px - 1))) = true) /\
  (F32.is_nan (slot_y h w row) = true <->
   interior h w px py = true /\
   F32.is_nan (F32.sub (hm_at w row (py + 1) px) (hm_at w row (py - 1) px)) = true) /\
  (F32.is_nan (slot_x h w row) = false -> F32.is_finite (slot_x h w row) = true) /\
  (F32.is_nan (slot_y h w row) = false -> F32.is_finite (slot_y h w row) = true).
Proof.
  intros Hne Hlen Hw px py.
  destruct (slot_keys_bounded w row Hne Hlen Hw) as [Hkx Hky].
  unfold slot_x, slot_y. fold px py.
  destruct (interior h w px py).
  - destruct (add_offset_nan _ (hm_at w row py (px + 1)) (hm_at w row py (px - 1)) Hkx)
      as [-> ->].
    destruct (add_offset_nan _ (hm_at w row (py + 1) px) (hm_at w row (py - 1) px) Hky)
      as [-> ->].
    repeat apply conj; try tauto; intros ->; reflexivity.
  - pose proof (bounded_finite _ _ Hkx) as Hfx.
    pose proof (bounded_finite _ _ Hky) as Hfy.
    assert (Hnx : F32.is_nan (slot_key_x w row) = false)
      by (destruct (slot_key_x w row); cbn in *; congruence).
    assert (Hny : F32.is_nan (slot_key_y w row) = false)
      by (destruct (slot_key_y w row); cbn in *; congruence).
    rewrite Hnx, Hny.
    repeat apply conj; try (intros [? ?]; discriminate); try discriminate; auto.
Qed.

End Build.

(** * Properties stated by the specification *)

Lemma heatmap5_well_shaped : well_shaped model5 heatmap5 1 2 5 5.
Proof.
  unfold well_shaped, nd_valid. cbn [shape data heatmap5].
  repeat split; try lia; try reflexivity.
  repeat constructor; lia.
Qed.

(** ** Shape and order of the result *)

(** C6 (amended). For every heatmap tensor of shape (B, K, H, W) that
    fits the model, [K] being the configured number of keypoints and
    (H, W) the configured output grid, the decoding returns an array of
    shape (B, K, 3) with 3*B*K elements; the record of batch element [b]
    and keypoint [k] is at positions [(b*K + k)*3 + 0, 1, 2] of the
    row-major buffer (batch-major, then keypoint-major) and holds x, y
    and the score, in this order, of the slice [heatmap[b, k, :, :]]; the
    score is the maximum of that slice. *)
Theorem C6_result_shape_and_order {build : Reduction} (self : SimplePose) (σ : store)
    (hl : loc) (a : ndarray) (B K H W : Z) :
  σ !! hl = Some a ->
  well_shaped self a B K H W ->
  exists kp arr σ',
    decode_heatmap self hl σ = (Returned kp, σ') /\
    σ' !! kp = Some arr /\
    shape arr = [B; K; 3] /\
    Z.of_nat (length (data arr)) = B * K * 3 /\
    forall b k, 0 <= b < B -> 0 <= k < K ->
      let hm := slice a K H W b k in
      data arr !! Z.to_nat ((b * K + k) * 3 + 0) = Some (slot_x H W hm) /\
      data arr !! Z.to_nat ((b * K + k) * 3 + 1) = Some (slot_y H W hm) /\
      data arr !! Z.to_nat ((b * K + k) * 3 + 2) = Some (slot_score hm) /\
      get_item arr [b; k] = Returned [slot_x H W hm; slot_y H W hm; slot_score hm] /\
      np_max hm = Some (slot_score hm).
Proof.
  intros Hload Hws.
  destruct (decode_heatmap_slots self σ hl a B K H W Hload Hws)
    as (arr & Hrun & Hshape & Hlen & Hslots).
  exists (fresh (dom σ)), arr, (<[fresh (dom σ) := arr]> σ).
  split; [exact Hrun|]. split; [apply lookup_insert_eq|].
  split; [exact Hshape|]. split; [exact Hlen|].
  intros b k Hb Hk hm. destruct (Hslots b k Hb Hk) as (Hget & Hx & Hy & Hs).
  repeat split; try assumption.
  apply np_max_slot_score. apply (slice_nonempty self a B K H W b k Hws Hb Hk).
Qed.

Lemma C6_witness :
  exists kp arr σ',
    decode_heatmap model5 1%positive store5 = (Returned kp, σ') /\
    σ' !! kp = Some arr /\
    shape arr = [1; 2; 3] /\
    Z.of_nat (length (data arr)) = 1 * 2 * 3 /\
    forall b k, 0 <= b < 1 -> 0 <= k < 2 ->
      let hm := slice heatmap5 2 5 5 b k in
      data arr !! Z.to_nat ((b * 2 + k) * 3 + 0) = Some (slot_x 5 5 hm) /\
      data arr !! Z.to_nat ((b * 2 + k) * 3 + 1) = Some (slot_y 5 5 hm) /\
      data arr !! Z.to_nat ((b * 2 + k) * 3 + 2) = Some (slot_score hm) /\
      get_item arr [b; k] = Returned [slot_x 5 5 hm; slot_y 5 5 hm; slot_score hm] /\
      np_max hm = Some (slot_score hm).
Proof.
  apply (C6_result_shape_and_order model5 store5 1%positive heatmap5 1 2 5 5).
  - reflexivity.
  - exact heatmap5_well_shaped.
Defined.

(** A model configured for one keypoint on a 5x5 grid: on a tensor of
    shape (1, 1, 3, 10), whose peak at flat position 12 it takes for the
    interior cell (2, 2) of its own grid, the read of row 3 raises; on the
    two channels of [heatmap5] it returns one record, not two. *)
Lemma C6_counterexample :
  keypoints model_inf = 1 /\ out_size model_inf = (5, 5) /\
  (shape heatmap_wide = [1; 1; 3; 10] /\
   Z.of_nat (length (data heatmap_wide)) = 1 * 1 * 3 * 10 /\
   np_argmax (data heatmap_wide) = Some 12 /\
   fst (decode_heatmap model_inf 1%positive {[ 1%positive := heatmap_wide ]})
   = Raised IndexError) /\
  (shape heatmap5 = [1; 2; 5; 5] /\
   exists kp arr σ',
     decode_heatmap model_inf 1%positive store5 = (Returned kp, σ') /\
     σ' !! kp = Some arr /\
     shape arr = [1; 1; 3]).
Proof.
  split; [reflexivity|]. split; [reflexivity|]. split.
  - repeat split; vm_compute; reflexivity.
  - split; [reflexivity|]. eexists _, _, _.
    split; [vm_compute; reflexivity|]. split; vm_compute; reflexivity.
Qed.

(** ** Gating by the score *)





(** ** The input is not written *)

(** C8. Whatever the input, the decoding does not change the heatmap
    tensor it reads, nor any other array that existed before the call;
    the array it returns is a new one, distinct from the input: the
    updates in place only touch that new array. *)
Theorem C8_input_not_mutated {build : Reduction} (self : SimplePose) (σ σ' : store) (hl : loc)
    (a : ndarray) (r : result loc) :
  σ !! hl = Some a ->
  decode_heatmap self hl σ = (r, σ') ->
  σ' !! hl = Some a /\
  (forall l, l ∈ dom σ -> σ' !! l = σ !! l) /\
  (forall kp, r = Returned kp -> (kp ∉ dom σ) /\ kp <> hl).
Proof.
  intros Hload Hrun.
  destruct (decode_heatmap_frame self hl σ σ' r Hrun) as [Hframe Hnew].
  assert (Hin : hl ∈ dom σ) by (apply elem_of_dom; eexists; exact Hload).
  split; [rewrite (Hframe hl Hin); exact Hload|]. split; [exact Hframe|].
  intros kp Hkp. rewrite (Hnew kp Hkp). split; [apply is_fresh|].
  intros Heq. apply (is_fresh (dom σ)). rewrite Heq. exact Hin.
Qed.

Lemma C8_witness :
  snd (decode_heatmap model5 7%positive store5') !! 7%positive = Some heatmap5 /\
  (forall l, l ∈ dom store5' ->
     snd (decode_heatmap model5 7%positive store5') !! l = store5' !! l) /\
  (forall kp, fst (decode_heatmap model5 7%positive store5') = Returned kp ->
     (kp ∉ dom store5') /\ kp <> 7%positive).
Proof.
  apply (C8_input_not_mutated model5 store5' _ 7%positive heatmap5).
  - reflexivity.
  - apply surjective_pairing.
Defined.

(** ** Returning the heatmap *)

(** C5. A model constructed with [return_heatmap=True] returns, for
    every input, what the network produced: the heatmap itself, with the
    store as the network left it. Nothing is decoded and no array of
    records is allocated. The option is an attribute fixed by
    [__init__]; [__call__] takes the input alone. *)
Theorem C5_return_heatmap {build : Reduction} (backbone decoder final_block : loc -> M loc)
    (in_size : Z * Z) (keypoints : Z) (x : loc) (σ : store) :
  return_heatmap (SimplePose_init true in_size keypoints) = true /\
  SimplePose_call backbone decoder final_block
    (SimplePose_init true in_size keypoints) x σ
  = (x1 <- backbone x ;; x2 <- decoder x1 ;; final_block x2) σ.
Proof.
  split; [reflexivity|].
  unfold SimplePose_call. cbn [return_heatmap SimplePose_init].
  unfold bind. destruct (backbone x σ) as [[x1|e] s1]; [|reflexivity].
  destruct (decoder x1 s1) as [[x2|e] s2]; [|reflexivity].
  destruct (final_block x2 s2) as [[h|e] s3]; reflexivity.
Qed.

(** ** Non-finite values *)

Lemma heatmap_inf_well_shaped : well_shaped model_inf heatmap_inf 1 1 5 5.
Proof.
  unfold well_shaped, nd_valid. cbn [shape data heatmap_inf].
  repeat split; try lia; try reflexivity.
  repeat constructor; lia.
Qed.

(** C9 (amended). On a heatmap that fits the model (configured number
    of keypoints and output grid), non-finite values are not an error:
    whatever the values, the call returns. They reach the score
    unfiltered: the score [s] of a record is the maximum NumPy computes
    for the slice, NaN as soon as the slice holds a NaN, otherwise an
    entry that no entry exceeds, so plus infinity when the slice holds
    one. They do not reach x and y as such. A slice that holds a NaN is
    gated: [x == 0] and [y == 0]. In general x (and likewise y) is NaN
    exactly when the slot was refined, its position [(px, py)] being
    interior, and the difference of the two neighbours on that axis is
    NaN, as for neighbours that are infinities of one sign in
    [heatmap_inf]; in every other case it is finite. Nothing is clamped. *)
Theorem C9_non_finite_pass_through {build : Reduction} (self : SimplePose) (σ : store)
    (hl : loc) (a : ndarray) (B K H W b k : Z) :
  σ !! hl = Some a ->
  well_shaped self a B K H W ->
  0 <= b < B -> 0 <= k < K ->
  (exists kp arr σ' x y s,
     decode_heatmap self hl σ = (Returned kp, σ') /\
     σ' !! kp = Some arr /\
     let hm := slice a K H W b k in
     let px := slot_px W hm in
     let py := slot_py W hm in
     get_item arr [b; k] = Returned [x; y; s] /\
     np_max hm = Some s /\
     (S754_nan ∈ hm ->
      s = S754_nan /\ F32.eqb x F32.zero = true /\ F32.eqb y F32.zero = true) /\
     (S754_nan ∉ hm -> s ∈ hm /\ Forall (fun w => F32.leb w s = true) hm) /\
     (S754_infinity false ∈ hm -> S754_nan ∉ hm -> s = S754_infinity false) /\
     (F32.is_nan x = true <->
      interior H W px py = true /\
      F32.is_nan (F32.sub (hm_at W hm py (px + 1)) (hm_at W hm py (px - 1))) = true) /\
     (F32.is_nan y = true <->
      interior H W px py = true /\
      F32.is_nan (F32.sub (hm_at W hm (py + 1) px) (hm_at W hm (py - 1) px)) = true) /\
     (F32.is_nan x = false -> F32.is_finite x = true) /\
     (F32.is_nan y = false -> F32.is_finite y = true)) /\
  (exists kp arr σ',
     decode_heatmap model_inf 1%positive {[ 1%positive := heatmap_inf ]}
     = (Returned kp, σ') /\
     σ' !! kp = Some arr /\
     get_item arr [0; 0] = Returned [S754_nan; S754_nan; F32.one]).
Proof.
  intros Hload Hws Hb Hk. split.
  - destruct (decode_heatmap_slots self σ hl a B K H W Hload Hws)
      as (arr & Hrun & _ & _ & Hslots).
    destruct (Hslots b k Hb Hk) as (Hget & _).
    pose proof (slice_nonempty self a B K H W b k Hws Hb Hk) as Hne.
    pose proof (slice_length self a B K H W b k Hws Hb Hk) as Hlen.
    destruct (well_shaped_sizes _ _ _ _ _ _ Hws) as (_ & Hn & HW63).
    assert (HW : 0 < W) by (destruct Hws as (_ & _ & _ & _ & _ & HW & _); exact HW).
    exists (fresh (dom σ)), arr, (<[fresh (dom σ) := arr]> σ),
      (slot_x H W (slice a K H W b k)), (slot_y H W (slice a K H W b k)),
      (slot_score (slice a K H W b k)).
    split; [exact Hrun|]. split; [apply lookup_insert_eq|].
    cbv zeta. split; [exact Hget|].
    split; [apply np_max_slot_score; exact Hne|].
    split.
    { intros Hnan. pose proof (nan_in_max _ Hnan) as Hs.
      split; [exact Hs|].
      assert (Hgate : F32.ltb F32.zero (slot_score (slice a K H W b k)) = false)
        by (rewrite Hs; reflexivity).
      destruct (slot_gated H W (slice a K H W b k) Hne ltac:(lia) ltac:(lia) Hgate)
        as (Hx0 & Hy0 & -> & ->).
      split; assumption. }
    split; [apply slot_score_max; exact Hne|].
    split; [apply inf_in_max|].
    exact (slot_xy_nan H W (slice a K H W b k) Hne ltac:(lia) ltac:(lia)).
  - eexists _, _, _. split; [vm_compute; reflexivity|].
    split; vm_compute; reflexivity.
Qed.

Lemma C9_witness :
  (exists kp arr σ' x y s,
     decode_heatmap model_inf 1%positive {[ 1%positive := heatmap_inf ]}
     = (Returned kp, σ') /\
     σ' !! kp = Some arr /\
     let hm := slice heatmap_inf 1 5 5 0 0 in
     let px := slot_px 5 hm in
     let py := slot_py 5 hm in
     get_item arr [0; 0] = Returned [x; y; s] /\
     np_max hm = Some s /\
     (S754_nan ∈ hm ->
      s = S754_nan /\ F32.eqb x F32.zero = true /\ F32.eqb y F32.zero = true) /\
     (S754_nan ∉ hm -> s ∈ hm /\ Forall (fun w => F32.leb w s = true) hm) /\
     (S754_infinity false ∈ hm -> S754_nan ∉ hm -> s = S754_infinity false) /\
     (F32.is_nan x = true <->
      interior 5 5 px py = true /\
      F32.is_nan (F32.sub (hm_at 5 hm py (px + 1)) (hm_at 5 hm py (px - 1))) = true) /\
     (F32.is_nan y = true <->
      interior 5 5 px py = true /\
      F32.is_nan (F32.sub (hm_at 5 hm (py + 1) px) (hm_at 5 hm (py - 1) px)) = true) /\
     (F32.is_nan x = false -> F32.is_finite x = true) /\
     (F32.is_nan y = false -> F32.is_finite y = true)) /\
  (exists kp arr σ',
     decode_heatmap model_inf 1%positive {[ 1%positive := heatmap_inf ]}
     = (Returned kp, σ') /\
     σ' !! kp = Some arr /\
     get_item arr [0; 0] = Returned [S754_nan; S754_nan; F32.one]).
Proof.
  apply (C9_non_finite_pass_through model_inf {[ 1%positive := heatmap_inf ]}
           1%positive heatmap_inf 1 1 5 5 0 0).
  - reflexivity.
  - exact heatmap_inf_well_shaped.
  - lia.
  - lia.
Defined.

(** A slice with a NaN in its interior gives the record (0, 0, NaN): the
    NaN reaches the score and gates the coordinates. And on a grid of
    three rows the 5x5 model raises on a slice that holds an infinity. *)
Lemma C9_counterexample :
  (S754_nan ∈ data heatmap_nan /\
   np_argmax (data heatmap_nan) = Some 12 /\
   exists kp arr σ',
     decode_heatmap model_inf 1%positive {[ 1%positive := heatmap_nan ]}
     = (Returned kp, σ') /\
     σ' !! kp = Some arr /\
     get_item arr [0; 0] = Returned [F32.zero; F32.zero; S754_nan]) /\
  (out_size model_inf = (5, 5) /\
   shape heatmap_short_inf = [1; 1; 3; 5] /\
   S754_infinity false ∈ data heatmap_short_inf /\
   fst (decode_heatmap model_inf 1%positive {[ 1%positive := heatmap_short_inf ]})
   = Raised IndexError).
Proof.
  split.
  - split; [vm_compute; set_solver|]. split; [vm_compute; reflexivity|].
    eexists _, _, _. split; [vm_compute; reflexivity|].
    split; vm_compute; reflexivity.
  - split; [reflexivity|]. split; [reflexivity|].
    split; [vm_compute; set_solver|]. vm_compute. reflexivity.
Qed.

(** ** Sub-pixel refinement *)

Lemma peak_data_length (n m : nat) :
  Z.of_nat (length (peak_data n m)) = Z.of_nat n + 1 + Z.of_nat m.
Proof.
  unfold peak_data. rewrite length_app, length_replicate. cbn [length].
  rewrite length_replicate. lia.
Qed.

Lemma peak_data_peak (n m : nat) : peak_data n m !! n = Some F32.one.
Proof.
  unfold peak_data. rewrite lookup_app_r by (rewrite length_replicate; lia).
  rewrite length_replicate, Nat.sub_diag. reflexivity.
Qed.

Lemma peak_data_other (n m i : nat) (w : f32) :
  i <> n -> peak_data n m !! i = Some w -> w = F32.zero.
Proof.
  unfold peak_data. intros Hi Hw.
  apply lookup_app_Some in Hw as [Hw|[Hge Hw]].
  - apply lookup_replicate_1 in Hw as [-> _]. reflexivity.
  - rewrite length_replicate in Hge, Hw.
    destruct (i - n)%nat as [|j] eqn:Hj; [lia|]. cbn in Hw.
    apply lookup_replicate_1 in Hw as [-> _]. reflexivity.
Qed.

Lemma peak_data_at (n m i : nat) :
  (i < n + 1 + m)%nat ->
  peak_data n m !! i = Some (if (i =? n)%nat then F32.one else F32.zero).
Proof.
  intros Hi. destruct (Nat.eqb_spec i n) as [->|Hne]; [apply peak_data_peak|].
  destruct (peak_data n m !! i) as [w|] eqn:Hw.
  - rewrite (peak_data_other n m i w Hne Hw). reflexivity.
  - apply lookup_ge_None in Hw.
    pose proof (peak_data_length n m). lia.
Qed.

(** The peak of [peak_data] is where the one is. *)
Lemma peak_data_argmax (n m : nat) : argmax_post (peak_data n m) n.
Proof.
  exists F32.one. split; [apply peak_data_peak|]. split.
  - intros j w Hj Hw. rewrite (peak_data_other n m j w ltac:(lia) Hw).
    split; [reflexivity|right; reflexivity].
  - right. intros j w Hw. destruct (Nat.eq_dec j n) as [->|Hne].
    + rewrite peak_data_peak in Hw. injection Hw as <-. reflexivity.
    + rewrite (peak_data_other n m j w Hne Hw). reflexivity.
Qed.

Lemma peak_data_slot {build : Reduction} (n m : nat) :
  np_argmax (peak_data n m) = Some (Z.of_nat n) /\
  slot_index (peak_data n m) = Z.of_nat n /\
  slot_score (peak_data n m) = F32.one.
Proof.
  destruct (np_argmax_intro _ _ (peak_data_argmax n m)) as [Harg Hmax].
  rewrite peak_data_peak in Hmax.
  unfold slot_index, slot_score.
  rewrite Harg, (np_max_nonzero _ _ Hmax eq_refl).
  repeat split; reflexivity.
Qed.

Section Big_peak.

Context {build : Reduction}.

Variables (n m : nat) (N : Z).
Hypothesis HN : Z.of_nat n = N.
Hypothesis Hsum : N + 1 + Z.of_nat m = 16793600.

Lemma peak_heatmap_well_shaped : well_shaped model_big (peak_heatmap n m) 1 1 4100 4096.
Proof.
  unfold well_shaped, nd_valid. cbn [shape data peak_heatmap].
  split; [split; [|split]|].
  - repeat constructor; lia.
  - rewrite peak_data_length, HN, Hsum. reflexivity.
  - reflexivity.
  - repeat split; try lia; reflexivity.
Qed.

Lemma peak_slice : slice (peak_heatmap n m) 1 4100 4096 0 0 = peak_data n m.
Proof.
  unfold slice. cbn [data peak_heatmap].
  change ((0 * 1 + 0) * (4100 * 4096)) with 0. change (Z.to_nat 0) with 0%nat.
  rewrite drop_0. apply take_ge.
  pose proof (peak_data_length n m) as Hl. rewrite HN, Hsum in Hl.
  apply Nat2Z.inj_le. rewrite Hl, Z2Nat.id by discriminate. discriminate.
Qed.

Lemma peak_hm_at (r c : Z) :
  0 <= r * 4096 + c < 16793600 ->
  hm_at 4096 (peak_data n m) r c
  = if r * 4096 + c =? N then F32.one else F32.zero.
Proof.
  intros Hi. unfold hm_at.
  rewrite peak_data_at by (apply Nat2Z.inj_lt;
    rewrite !Nat2Z.inj_add, Z2Nat.id, HN by lia; cbn; lia).
  cbn [default from_option]. unfold id.
  destruct (Z.eqb_spec (r * 4096 + c) N) as [Heq|Hne].
  - replace (Z.to_nat (r * 4096 + c) =? n)%nat with true; [reflexivity|].
    symmetry. apply Nat.eqb_eq. rewrite Heq, <- HN. apply Nat2Z.id.
  - replace (Z.to_nat (r * 4096 + c) =? n)%nat with false; [reflexivity|].
    symmetry. apply Nat.eqb_neq. intros Heq. apply Hne.
    rewrite <- HN, <- Heq. rewrite Z2Nat.id; lia.
Qed.

Lemma peak_slot_index : slot_index (peak_data n m) = N.
Proof. destruct (peak_data_slot n m) as (_ & -> & _). exact HN. Qed.

Lemma peak_slot_score : slot_score (peak_data n m) = F32.one.
Proof. apply peak_data_slot. Qed.

Lemma peak_argmax : np_argmax (peak_data n m) = Some N.
Proof. destruct (peak_data_slot n m) as (-> & _). rewrite HN. reflexivity. Qed.

(** What the decoding returns for this heatmap. *)
Lemma peak_decode :
  exists arr,
    decode_heatmap model_big 1%positive {[ 1%positive := peak_heatmap n m ]}
    = (Returned (fresh (dom ({[ 1%positive := peak_heatmap n m ]} : store))),
       <[fresh (dom ({[ 1%positive := peak_heatmap n m ]} : store)) := arr]>
         {[ 1%positive := peak_heatmap n m ]}) /\
    get_item arr [0; 0]
    = Returned [slot_x 4100 4096 (peak_data n m);
                slot_y 4100 4096 (peak_data n m); F32.one].
Proof.
  destruct (decode_heatmap_slots model_big {[ 1%positive := peak_heatmap n m ]}
              1%positive (peak_heatmap n m) 1 1 4100 4096
              (lookup_singleton_eq _ _) peak_heatmap_well_shaped)
    as (arr & Hrun & _ & _ & Hslots).
  exists arr. split; [exact Hrun|].
  destruct (Hslots 0 0 ltac:(lia) ltac:(lia)) as (Hget & _).
  rewrite Hget, peak_slice. unfold slot_record. rewrite peak_slot_score. reflexivity.
Qed.

End Big_peak.

Lemma interior_iff (h w px py : Z) :
  interior h w px py = true <-> (1 < px < w - 1 /\ 1 < py < h - 1).
Proof.
  unfold interior. rewrite !andb_true_iff, !Z.ltb_lt. tauto.
Qed.

(** C1 (amended). On a heatmap that fits the model (configured number
    of keypoints, (H, W) the configured output grid), for every slice
    with [H * W < 2^24] whose peak value is above zero, with the peak at
    flat position [idx], column [col = idx mod W] and row
    [row = idx div W]:
    if [1 < col < W-1] and [1 < row < H-1] the record holds
    [x = col + 0.25 * sign(hm[row, col+1] - hm[row, col-1])] and
    [y = row + 0.25 * sign(hm[row+1, col] - hm[row-1, col])], in binary32
    arithmetic; otherwise it holds [(col, row)] with no offset. The sign
    is [1] above zero, [-1] below zero and [0] at zero. *)
Theorem C1_subpixel_refinement {build : Reduction} (self : SimplePose) (σ : store)
    (hl : loc) (a : ndarray) (B K H W b k : Z) :
  σ !! hl = Some a ->
  well_shaped self a B K H W ->
  H * W < 2 ^ 24 ->
  0 <= b < B -> 0 <= k < K ->
  F32.ltb F32.zero (slot_score (slice a K H W b k)) = true ->
  let hm := slice a K H W b k in
  let idx := slot_index hm in
  let col := idx mod W in
  let row := idx / W in
  np_argmax hm = Some idx /\
  hm !! Z.to_nat idx = Some (slot_score hm) /\
  (exists kp arr σ',
     decode_heatmap self hl σ = (Returned kp, σ') /\
     σ' !! kp = Some arr /\
     ((1 < col < W - 1 /\ 1 < row < H - 1) ->
      get_item arr [b; k]
      = Returned
          [F32.add (F32.of_Z col)
             (F32.mul (np_sign (F32.sub (hm_at W hm row (col + 1))
                                        (hm_at W hm row (col - 1)))) F32.quarter);
           F32.add (F32.of_Z row)
             (F32.mul (np_sign (F32.sub (hm_at W hm (row + 1) col)
                                        (hm_at W hm (row - 1) col))) F32.quarter);
           slot_score hm]) /\
     (~ (1 < col < W - 1 /\ 1 < row < H - 1) ->
      get_item arr [b; k] = Returned [F32.of_Z col; F32.of_Z row; slot_score hm])) /\
  (forall v,
     (F32.ltb F32.zero v = true -> np_sign v = F32.one) /\
     (F32.ltb v F32.zero = true -> np_sign v = SFopp F32.one) /\
     (F32.eqb v F32.zero = true -> np_sign v = F32.zero)).
Proof.
  intros Hload Hws Hsmall Hb Hk Hscore hm idx col row.
  pose proof (slice_nonempty self a B K H W b k Hws Hb Hk) as Hne.
  pose proof (slice_length self a B K H W b k Hws Hb Hk) as Hlen.
  assert (HW : 0 < W < 2 ^ 24).
  { destruct Hws as (_ & _ & _ & _ & HH & HW & _). nia. }
  destruct (slot_score_at hm Hne (ltb_zero_nonzero _ Hscore)) as (r & Hr & _ & Hpeak).
  split.
  { unfold idx, slot_index. destruct (np_argmax_is_Some hm Hne) as [i ->]. reflexivity. }
  split.
  { unfold idx. rewrite Hr, Nat2Z.id. exact Hpeak. }
  split; [|apply np_sign_spec].
  destruct (decode_heatmap_slots self σ hl a B K H W Hload Hws)
    as (arr & Hrun & _ & _ & Hslots).
  destruct (Hslots b k Hb Hk) as (Hget & _).
  exists (fresh (dom σ)), arr, (<[fresh (dom σ) := arr]> σ).
  split; [exact Hrun|]. split; [apply lookup_insert_eq|].
  assert (Hlen24 : Z.of_nat (length hm) < 2 ^ 24) by (unfold hm; rewrite Hlen; exact Hsmall).
  destruct (slot_keys_exact W hm Hne Hlen24 HW) as [Hkeys _].
  destruct (slot_position_exact W hm Hne Hlen24 HW) as [Hpos _].
  destruct (Hkeys Hscore) as [Hkx Hky]. destruct (Hpos Hscore) as [Hpx Hpy].
  fold hm in Hget. rewrite Hget. unfold slot_record, slot_x, slot_y.
  rewrite Hkx, Hky, Hpx, Hpy. fold idx col row.
  split; intros Hint.
  - apply interior_iff in Hint. rewrite Hint. reflexivity.
  - destruct (interior H W col row) eqn:Hi; [|reflexivity].
    apply interior_iff in Hi. contradiction.
Qed.

Lemma C1_witness :
  let hm := slice heatmap5 2 5 5 0 0 in
  let idx := slot_index hm in
  let col := idx mod 5 in
  let row := idx / 5 in
  np_argmax hm = Some idx /\
  hm !! Z.to_nat idx = Some (slot_score hm) /\
  (exists kp arr σ',
     decode_heatmap model5 1%positive store5 = (Returned kp, σ') /\
     σ' !! kp = Some arr /\
     ((1 < col < 5 - 1 /\ 1 < row < 5 - 1) ->
      get_item arr [0; 0]
      = Returned
          [F32.add (F32.of_Z col)
             (F32.mul (np_sign (F32.sub (hm_at 5 hm row (col + 1))
                                        (hm_at 5 hm row (col - 1)))) F32.quarter);
           F32.add (F32.of_Z row)
             (F32.mul (np_sign (F32.sub (hm_at 5 hm (row + 1) col)
                                        (hm_at 5 hm (row - 1) col))) F32.quarter);
           slot_score hm]) /\
     (~ (1 < col < 5 - 1 /\ 1 < row < 5 - 1) ->
      get_item arr [0; 0] = Returned [F32.of_Z col; F32.of_Z row; slot_score hm])) /\
  (forall v,
     (F32.ltb F32.zero v = true -> np_sign v = F32.one) /\
     (F32.ltb v F32.zero = true -> np_sign v = SFopp F32.one) /\
     (F32.eqb v F32.zero = true -> np_sign v = F32.zero)).
Proof.
  apply (C1_subpixel_refinement model5 store5 1%positive heatmap5 1 2 5 5 0 0).
  - reflexivity.
  - exact heatmap5_well_shaped.
  - reflexivity.
  - lia.
  - lia.
  - vm_compute. reflexivity.
Defined.

Lemma n_c1_eq : Z.of_nat n_c1 = 16777219.
Proof. unfold n_c1. apply Z2Nat.id. discriminate. Qed.

Lemma m_c1_sum : 16777219 + 1 + Z.of_nat m_c1 = 16793600.
Proof. unfold m_c1. rewrite Z2Nat.id by discriminate. reflexivity. Qed.

(** How the slot coordinates follow from the keys and the neighbours. *)
Lemma slot_xy_interior {build : Reduction} (H W : Z) (hm : list f32) (kx ky : f32) (px py : Z)
    (xr xl yd yu : f32) :
  slot_key_x W hm = kx -> slot_key_y W hm = ky ->
  F32.trunc kx = Some px -> F32.trunc ky = Some py ->
  interior H W px py = true ->
  hm_at W hm py (px + 1) = xr -> hm_at W hm py (px - 1) = xl ->
  hm_at W hm (py + 1) px = yd -> hm_at W hm (py - 1) px = yu ->
  slot_x H W hm = F32.add kx (offset xr xl) /\
  slot_y H W hm = F32.add ky (offset yd yu).
Proof.
  intros Hkx Hky Hpx Hpy Hint Hxr Hxl Hyd Hyu.
  unfold slot_x, slot_y, slot_px, slot_py.
  rewrite Hkx, Hky, Hpx, Hpy. cbn [default from_option]. unfold id.
  rewrite Hint, Hxr, Hxl, Hyd, Hyu. split; reflexivity.
Qed.

Lemma slot_xy_exterior {build : Reduction} (H W : Z) (hm : list f32) (kx ky : f32) (px py : Z) :
  slot_key_x W hm = kx -> slot_key_y W hm = ky ->
  F32.trunc kx = Some px -> F32.trunc ky = Some py ->
  interior H W px py = false ->
  slot_x H W hm = kx /\ slot_y H W hm = ky.
Proof.
  intros Hkx Hky Hpx Hpy Hint.
  unfold slot_x, slot_y, slot_px, slot_py.
  rewrite Hkx, Hky, Hpx, Hpy. cbn [default from_option]. unfold id.
  rewrite Hint. split; reflexivity.
Qed.

(** The values the decoding computes for that slice. *)
Lemma c1_index : slot_index (peak_data n_c1 m_c1) = 16777219.
Proof. exact (peak_slot_index n_c1 m_c1 16777219 n_c1_eq). Qed.

Lemma c1_hm_at (r c : Z) :
  0 <= r * 4096 + c < 16793600 ->
  hm_at 4096 (peak_data n_c1 m_c1) r c
  = if r * 4096 + c =? 16777219 then F32.one else F32.zero.
Proof. exact (peak_hm_at n_c1 m_c1 16777219 n_c1_eq m_c1_sum r c). Qed.

Lemma c1_keys :
  slot_key_x 4096 (peak_data n_c1 m_c1) = F32.of_Z 4 /\
  slot_key_y 4096 (peak_data n_c1 m_c1) = F32.of_Z 4096.
Proof.
  unfold slot_key_x, slot_key_y.
  rewrite c1_index, peak_slot_score. split; vm_compute; reflexivity.
Qed.

Lemma c1_slot :
  slot_x 4100 4096 (peak_data n_c1 m_c1) = F32.of_dyadic 15 (-2) /\
  slot_y 4100 4096 (peak_data n_c1 m_c1) = F32.of_Z 4096.
Proof.
  destruct c1_keys as [Hkx Hky].
  destruct (slot_xy_interior 4100 4096 _ _ _ 4 4096 _ _ _ _ Hkx Hky
              eq_refl eq_refl eq_refl
              (c1_hm_at 4096 (4 + 1) ltac:(lia)) (c1_hm_at 4096 (4 - 1) ltac:(lia))
              (c1_hm_at (4096 + 1) 4 ltac:(lia)) (c1_hm_at (4096 - 1) 4 ltac:(lia)))
    as [-> ->].
  split; vm_compute; reflexivity.
Qed.

Lemma add_offset_congr (k v1 v2 w1 w2 : f32) :
  v1 = w1 -> v2 = w2 ->
  F32.add k (F32.mul (np_sign (F32.sub v1 v2)) F32.quarter) = F32.add k (offset w1 w2).
Proof. intros -> ->. reflexivity. Qed.

Lemma c1_expected :
  F32.add (F32.of_Z 3)
    (F32.mul (np_sign (F32.sub (hm_at 4096 (peak_data n_c1 m_c1) 4096 (3 + 1))
                               (hm_at 4096 (peak_data n_c1 m_c1) 4096 (3 - 1))))
       F32.quarter)
  = F32.of_Z 3.
Proof.
  etransitivity.
  - exact (add_offset_congr _ _ _ _ _ (c1_hm_at 4096 (3 + 1) ltac:(lia))
             (c1_hm_at 4096 (3 - 1) ltac:(lia))).
  - vm_compute. reflexivity.
Qed.

(** On a 4100 x 4096 slice the peak at row 4096, column 3 is decoded as
    x = 3.75. Under a 5x5 grid an 8x8 slice with its peak at row 3,
    column 4 is decoded as (3, 5): flat position 28 is split by the
    configured width 5. And a model of one keypoint returns one record
    for the two channels of [heatmap5_rev]: the interior peak (2, 2) of
    channel 1 is found at flat position 37 of both channels together and
    decoded as (2, 7). *)
Lemma C1_counterexample :
  (well_shaped model_big heatmap_c1 1 1 4100 4096 /\
   let hm := slice heatmap_c1 1 4100 4096 0 0 in
   np_argmax hm = Some 16777219 /\
   F32.ltb F32.zero (slot_score hm) = true /\
   16777219 mod 4096 = 3 /\ 16777219 / 4096 = 4096 /\
   (1 < 3 < 4096 - 1 /\ 1 < 4096 < 4100 - 1) /\
   exists kp arr σ' x y,
     decode_heatmap model_big 1%positive {[ 1%positive := heatmap_c1 ]}
     = (Returned kp, σ') /\
     σ' !! kp = Some arr /\
     get_item arr [0; 0] = Returned [x; y; slot_score hm] /\
     x = F32.of_dyadic 15 (-2) /\
     F32.add (F32.of_Z 3)
       (F32.mul (np_sign (F32.sub (hm_at 4096 hm 4096 (3 + 1))
                                  (hm_at 4096 hm 4096 (3 - 1)))) F32.quarter)
     = F32.of_Z 3 /\
     x <> F32.of_Z 3) /\
  (keypoints model_inf = 1 /\ out_size model_inf = (5, 5) /\
   shape heatmap8 = [1; 1; 8; 8] /\
   let hm := slice heatmap8 1 8 8 0 0 in
   np_argmax hm = Some 28 /\
   F32.ltb F32.zero (slot_score hm) = true /\
   28 mod 8 = 4 /\ 28 / 8 = 3 /\
   (1 < 4 < 8 - 1 /\ 1 < 3 < 8 - 1) /\
   F32.add (F32.of_Z 4)
     (F32.mul (np_sign (F32.sub (hm_at 8 hm 3 (4 + 1)) (hm_at 8 hm 3 (4 - 1))))
        F32.quarter)
   = F32.of_dyadic 17 (-2) /\
   exists kp arr σ',
     decode_heatmap model_inf 1%positive {[ 1%positive := heatmap8 ]}
     = (Returned kp, σ') /\
     σ' !! kp = Some arr /\
     get_item arr [0; 0] = Returned [F32.of_Z 3; F32.of_Z 5; F32.of_Z 9]) /\
  (keypoints model_inf = 1 /\ out_size model_inf = (5, 5) /\
   shape heatmap5_rev = [1; 2; 5; 5] /\
   let hm := slice heatmap5_rev 2 5 5 0 1 in
   np_argmax hm = Some 12 /\
   F32.ltb F32.zero (slot_score hm) = true /\
   12 mod 5 = 2 /\ 12 / 5 = 2 /\
   (1 < 2 < 5 - 1 /\ 1 < 2 < 5 - 1) /\
   exists kp arr σ',
     decode_heatmap model_inf 1%positive {[ 1%positive := heatmap5_rev ]}
     = (Returned kp, σ') /\
     σ' !! kp = Some arr /\
     shape arr = [1; 1; 3] /\
     data arr = [F32.of_Z 2; F32.of_Z 7; F32.of_Z 5] /\
     get_item arr [0; 1] = Raised IndexError).
Proof.
  split; [|split].
  3:{ cbv zeta. repeat apply conj; try lia; try (vm_compute; reflexivity).
      eexists _, _, _. split; [vm_compute; reflexivity|].
      repeat apply conj; vm_compute; reflexivity. }
  - split; [exact (peak_heatmap_well_shaped n_c1 m_c1 16777219 n_c1_eq m_c1_sum)|].
    cbv zeta. unfold heatmap_c1.
    rewrite (peak_slice n_c1 m_c1 16777219 n_c1_eq m_c1_sum).
    split; [exact (peak_argmax n_c1 m_c1 16777219 n_c1_eq)|].
    rewrite peak_slot_score.
    split; [reflexivity|]. split; [reflexivity|]. split; [reflexivity|].
    split; [lia|].
    destruct (peak_decode n_c1 m_c1 16777219 n_c1_eq m_c1_sum) as (arr & Hrun & Hget).
    destruct c1_slot as (Hx & Hy).
    eexists _, arr, _, _, _.
    split; [exact Hrun|]. split; [apply lookup_insert_eq|].
    split; [exact Hget|]. split; [exact Hx|].
    split; [exact c1_expected|].
    rewrite Hx. vm_compute. discriminate.
  - cbv zeta. repeat apply conj; try lia; try (vm_compute; reflexivity).
    eexists _, _, _. split; [vm_compute; reflexivity|].
    split; vm_compute; reflexivity.
Qed.

(** ** Location of the peak *)










(** ** Coordinates stay in the grid *)

Lemma hm_at_finite (w : Z) (row : list f32) (r c : Z) :
  Forall (fun v => F32.is_finite v = true) row ->
  F32.is_finite (hm_at w row r c) = true.
Proof.
  intros Hall. unfold hm_at.
  destruct (row !! Z.to_nat (r * w + c)) as [v|] eqn:Hv; [|reflexivity].
  exact (Forall_lookup_1 _ _ _ _ Hall Hv).
Qed.

Lemma slice_finite (a : ndarray) (K H W b k : Z) :
  Forall (fun v => F32.is_finite v = true) (data a) ->
  Forall (fun v => F32.is_finite v = true) (slice a K H W b k).
Proof. intros Hall. unfold slice. apply Forall_take, Forall_drop, Hall. Qed.

Lemma of_Z_leb (n m : Z) :
  0 <= n <= m -> m < 2 ^ 24 -> F32.leb (F32.of_Z n) (F32.of_Z m) = true.
Proof. intros Hn Hm. unfold F32.of_Z. apply of_dyadic_leb; lia. Qed.

Lemma add_zero_of_Z (n : Z) :
  0 <= n < 2 ^ 24 -> F32.add (F32.of_Z n) F32.zero = F32.of_Z n.
Proof.
  intros Hn. destruct n as [|n|n]; [reflexivity| |lia].
  rewrite of_Z_pos by lia. reflexivity.
Qed.

(** A grid coordinate moved by a quarter, inside the grid, stays
    between the first and the last coordinate. *)
Lemma coordinate_in_range (n m : Z) (o : f32) :
  0 <= n <= m -> m < 2 ^ 24 ->
  o = F32.zero \/
  ((o = F32.quarter \/ o = SFopp F32.quarter) /\ 1 <= n < m /\ m < 2 ^ 22) ->
  F32.leb F32.zero (F32.add (F32.of_Z n) o) = true /\
  F32.leb (F32.add (F32.of_Z n) o) (F32.of_Z m) = true.
Proof.
  intros Hn Hm [->|[Ho [Hn1 Hm22]]].
  - rewrite add_zero_of_Z by lia. rewrite <- of_Z_0.
    split; apply of_Z_leb; lia.
  - assert (exists t, F32.add (F32.of_Z n) o = F32.of_dyadic t (-2) /\
                      4 * n - 1 <= t <= 4 * n + 1) as (t & -> & Ht).
    { destruct Ho as [->| ->].
      - exists (4 * n + 1). split; [|lia]. apply add_offset_exact; [lia|]. left. auto.
      - exists (4 * n - 1). split; [|lia]. apply add_offset_exact; [lia|].
        right. left. auto. }
    rewrite (of_Z_quarters m) by lia.
    change F32.zero with (F32.of_dyadic 0 (-2)).
    split; apply of_dyadic_leb; lia.
Qed.

(** C10 (amended). For every heatmap tensor of shape (B, K, H, W)
    matching the configured output grid, with [H * W < 2^24] and finite
    values, every returned record has [0 <= x <= W-1] and
    [0 <= y <= H-1]: [x] and [y] are integers [col] and [row] of the grid
    plus an offset that is [0.25], [-0.25] or [0], not zero only where
    [2 <= col <= W-2] and [2 <= row <= H-2]; a record whose score is not
    above zero sits at [(0, 0)]. *)
Theorem C10_coordinates_in_grid {build : Reduction} (self : SimplePose) (σ : store) (hl : loc)
    (a : ndarray) (B K H W b k : Z) :
  σ !! hl = Some a ->
  well_shaped self a B K H W ->
  H * W < 2 ^ 24 ->
  Forall (fun v => F32.is_finite v = true) (data a) ->
  0 <= b < B -> 0 <= k < K ->
  exists kp arr σ' x y s,
    decode_heatmap self hl σ = (Returned kp, σ') /\
    σ' !! kp = Some arr /\
    get_item arr [b; k] = Returned [x; y; s] /\
    (F32.leb F32.zero x = true /\ F32.leb x (F32.of_Z (W - 1)) = true) /\
    (F32.leb F32.zero y = true /\ F32.leb y (F32.of_Z (H - 1)) = true) /\
    (exists col row ox oy,
       0 <= col <= W - 1 /\ 0 <= row <= H - 1 /\
       x = F32.add (F32.of_Z col) ox /\ y = F32.add (F32.of_Z row) oy /\
       (ox = F32.quarter \/ ox = SFopp F32.quarter \/ ox = F32.zero) /\
       (oy = F32.quarter \/ oy = SFopp F32.quarter \/ oy = F32.zero) /\
       (ox <> F32.zero \/ oy <> F32.zero ->
        2 <= col <= W - 2 /\ 2 <= row <= H - 2)) /\
    (F32.ltb F32.zero s = false -> x = F32.zero /\ y = F32.zero).
Proof.
  intros Hload Hws Hsmall Hfin Hb Hk.
  set (hm := slice a K H W b k).
  pose proof (slice_nonempty self a B K H W b k Hws Hb Hk) as Hne.
  pose proof (slice_length self a B K H W b k Hws Hb Hk) as Hlen.
  pose proof (slice_finite a K H W b k Hfin) as Hfin'.
  fold hm in Hne, Hlen, Hfin'.
  assert (HHW : 0 < H /\ 0 < W).
  { destruct Hws as (_ & _ & _ & _ & HH & HW & _). lia. }
  assert (HW : 0 < W < 2 ^ 24) by nia.
  assert (HH : 0 < H < 2 ^ 24) by nia.
  assert (Hlen24 : Z.of_nat (length hm) < 2 ^ 24) by (rewrite Hlen; exact Hsmall).
  destruct (decode_heatmap_slots self σ hl a B K H W Hload Hws)
    as (arr & Hrun & _ & _ & Hslots).
  destruct (Hslots b k Hb Hk) as (Hget & _). fold hm in Hget.
  exists (fresh (dom σ)), arr, (<[fresh (dom σ) := arr]> σ),
    (slot_x H W hm), (slot_y H W hm), (slot_score hm).
  split; [exact Hrun|]. split; [apply lookup_insert_eq|]. split; [exact Hget|].
  destruct (slot_keys_exact W hm Hne Hlen24 HW) as [Hkeys Hkeys0].
  destruct (slot_position_exact W hm Hne Hlen24 HW) as [Hpos Hpos0].
  pose proof (slot_index_range hm Hne) as Hidx. rewrite Hlen in Hidx.
  set (col := slot_index hm mod W) in *. set (row := slot_index hm / W) in *.
  assert (Hcol : 0 <= col < W) by (apply Z.mod_pos_bound; lia).
  assert (Hrow : 0 <= row < H).
  { split; [apply Z.div_pos; lia|]. apply Z.div_lt_upper_bound; lia. }
  assert (Hmain : exists c r ox oy,
            slot_x H W hm = F32.add (F32.of_Z c) ox /\
            slot_y H W hm = F32.add (F32.of_Z r) oy /\
            0 <= c <= W - 1 /\ 0 <= r <= H - 1 /\
            (ox = F32.quarter \/ ox = SFopp F32.quarter \/ ox = F32.zero) /\
            (oy = F32.quarter \/ oy = SFopp F32.quarter \/ oy = F32.zero) /\
            (ox <> F32.zero \/ oy <> F32.zero ->
             (1 < c < W - 1 /\ 1 < r < H - 1)) /\
            (F32.ltb F32.zero (slot_score hm) = false ->
             c = 0 /\ r = 0 /\ ox = F32.zero /\ oy = F32.zero)).
  { destruct (F32.ltb F32.zero (slot_score hm)) eqn:Hs.
    - destruct (Hkeys eq_refl) as [Hkx Hky]. destruct (Hpos eq_refl) as [Hpx Hpy].
      destruct (interior H W col row) eqn:Hint.
      + exists col, row,
          (offset (hm_at W hm row (col + 1)) (hm_at W hm row (col - 1))),
          (offset (hm_at W hm (row + 1) col) (hm_at W hm (row - 1) col)).
        unfold slot_x, slot_y. rewrite Hkx, Hky, Hpx, Hpy, Hint.
        apply interior_iff in Hint.
        repeat apply conj; try lia; try discriminate; try reflexivity.
        * apply offset_finite; apply hm_at_finite; exact Hfin'.
        * apply offset_finite; apply hm_at_finite; exact Hfin'.
      + exists col, row, F32.zero, F32.zero.
        unfold slot_x, slot_y. rewrite Hkx, Hky, Hpx, Hpy, Hint.
        rewrite !add_zero_of_Z by lia.
        repeat apply conj; try lia; try discriminate; try reflexivity; auto.
        intros [Hc|Hc]; congruence.
    - destruct (Hkeys0 eq_refl) as [Hkx Hky]. destruct (Hpos0 eq_refl) as [Hpx Hpy].
      exists 0, 0, F32.zero, F32.zero.
      unfold slot_x, slot_y. rewrite Hkx, Hky, Hpx, Hpy, interior_origin.
      repeat apply conj; try lia; try reflexivity; auto.
      intros [Hc|Hc]; congruence. }
  destruct Hmain as (c & r & ox & oy & Hx & Hy & Hc & Hr & Hox & Hoy & Hin & Hgate).
  assert (Hxr : ox = F32.zero \/
                ((ox = F32.quarter \/ ox = SFopp F32.quarter) /\
                 1 <= c < W - 1 /\ W - 1 < 2 ^ 22)).
  { destruct Hox as [Ho|[Ho|Ho]]; [right|right|left; exact Ho].
    all: assert (Hnz : ox <> F32.zero) by (rewrite Ho; discriminate).
    all: destruct (Hin (or_introl Hnz)) as [Hci Hri].
    all: split; [auto|]; split; [lia|nia]. }
  assert (Hyr : oy = F32.zero \/
                ((oy = F32.quarter \/ oy = SFopp F32.quarter) /\
                 1 <= r < H - 1 /\ H - 1 < 2 ^ 22)).
  { destruct Hoy as [Ho|[Ho|Ho]]; [right|right|left; exact Ho].
    all: assert (Hnz : oy <> F32.zero) by (rewrite Ho; discriminate).
    all: destruct (Hin (or_intror Hnz)) as [Hci Hri].
    all: split; [auto|]; split; [lia|nia]. }
  split.
  { rewrite Hx. apply coordinate_in_range; [lia|lia|exact Hxr]. }
  split.
  { rewrite Hy. apply coordinate_in_range; [lia|lia|exact Hyr]. }
  split.
  { exists c, r, ox, oy. repeat apply conj; try lia; try assumption.
    intros Hnz. destruct (Hin Hnz). lia. }
  intros Hs. destruct (Hgate Hs) as (-> & -> & -> & ->).
  rewrite Hx, Hy. split; reflexivity.
Qed.

Lemma heatmap5_finite : Forall (fun v => F32.is_finite v = true) (data heatmap5).
Proof. repeat constructor. Qed.

Lemma C10_witness :
  exists kp arr σ' x y s,
    decode_heatmap model5 1%positive store5 = (Returned kp, σ') /\
    σ' !! kp = Some arr /\
    get_item arr [0; 0] = Returned [x; y; s] /\
    (F32.leb F32.zero x = true /\ F32.leb x (F32.of_Z (5 - 1)) = true) /\
    (F32.leb F32.zero y = true /\ F32.leb y (F32.of_Z (5 - 1)) = true) /\
    (exists col row ox oy,
       0 <= col <= 5 - 1 /\ 0 <= row <= 5 - 1 /\
       x = F32.add (F32.of_Z col) ox /\ y = F32.add (F32.of_Z row) oy /\
       (ox = F32.quarter \/ ox = SFopp F32.quarter \/ ox = F32.zero) /\
       (oy = F32.quarter \/ oy = SFopp F32.quarter \/ oy = F32.zero) /\
       (ox <> F32.zero \/ oy <> F32.zero ->
        2 <= col <= 5 - 2 /\ 2 <= row <= 5 - 2)) /\
    (F32.ltb F32.zero s = false -> x = F32.zero /\ y = F32.zero).
Proof.
  apply (C10_coordinates_in_grid model5 store5 1%positive heatmap5 1 2 5 5 0 0).
  - reflexivity.
  - exact heatmap5_well_shaped.
  - reflexivity.
  - exact heatmap5_finite.
  - lia.
  - lia.
Defined.

Lemma n_c10_eq : Z.of_nat n_c10 = 16793599.
Proof. unfold n_c10. apply Z2Nat.id. discriminate. Qed.

Lemma m_c10_sum : 16793599 + 1 + Z.of_nat 0 = 16793600.
Proof. reflexivity. Qed.

Lemma peak_data_finite (n m : nat) :
  Forall (fun v => F32.is_finite v = true) (peak_data n m).
Proof.
  unfold peak_data. apply Forall_app. split; [apply Forall_replicate; reflexivity|].
  constructor; [reflexivity|]. apply Forall_replicate. reflexivity.
Qed.

Lemma c10_index : slot_index (peak_data n_c10 0) = 16793599.
Proof. exact (peak_slot_index n_c10 0%nat 16793599 n_c10_eq). Qed.

Lemma c10_keys :
  slot_key_x 4096 (peak_data n_c10 0) = F32.of_Z 0 /\
  slot_key_y 4096 (peak_data n_c10 0) = F32.of_Z 4100.
Proof.
  unfold slot_key_x, slot_key_y.
  rewrite c10_index, peak_slot_score. split; vm_compute; reflexivity.
Qed.

Lemma C10_counterexample :
  well_shaped model_big heatmap_c10 1 1 4100 4096 /\
  Forall (fun v => F32.is_finite v = true) (data heatmap_c10) /\
  np_argmax (slice heatmap_c10 1 4100 4096 0 0) = Some 16793599 /\
  16793599 / 4096 = 4099 /\
  exists kp arr σ' x y s,
    decode_heatmap model_big 1%positive {[ 1%positive := heatmap_c10 ]}
    = (Returned kp, σ') /\
    σ' !! kp = Some arr /\
    get_item arr [0; 0] = Returned [x; y; s] /\
    y = F32.of_Z 4100 /\
    F32.leb y (F32.of_Z (4100 - 1)) = false.
Proof.
  split; [exact (peak_heatmap_well_shaped n_c10 0%nat 16793599 n_c10_eq m_c10_sum)|].
  split; [apply peak_data_finite|].
  unfold heatmap_c10.
  rewrite (peak_slice n_c10 0%nat 16793599 n_c10_eq m_c10_sum).
  split; [exact (peak_argmax n_c10 0%nat 16793599 n_c10_eq)|].
  split; [reflexivity|].
  destruct c10_keys as [Hkx Hky].
  destruct (peak_decode n_c10 0%nat 16793599 n_c10_eq m_c10_sum) as (arr & Hrun & Hget).
  destruct (slot_xy_exterior 4100 4096 _ _ _ 0 4100 Hkx Hky eq_refl eq_refl eq_refl)
    as [Hx Hy].
  rewrite Hx, Hy in Hget.
  eexists _, arr, _, _, _, _.
  split; [exact Hrun|]. split; [apply lookup_insert_eq|].
  split; [exact Hget|]. split; [reflexivity|].
  vm_compute. reflexivity.
Qed.

(** ** Tensors the decoding refuses *)

Lemma reshape_infer_cases (shp : list Z) (batch kp : Z) :
  0 <= batch -> 0 <= size shp ->
  (exists e, reshape_infer shp batch kp = Raised e /\
             (e = AssertionError \/ e = InvalidType \/ e = ValueError)) \/
  (exists n, reshape_infer shp batch kp = Returned n /\
             0 < batch /\ 0 < kp /\ 0 <= n /\ size shp = batch * kp * n).
Proof.
  intros Hb Hs. unfold reshape_infer.
  destruct (Z.ltb_spec kp 0) as [Hk|Hk]; [left; eauto|].
  destruct (Z.eqb_spec (size shp mod
              ((if 0 <? batch then batch else 1) * (if 0 <? kp then kp else 1))) 0)
    as [Hm|Hm]; cbn [negb]; [|left; eauto].
  destruct (Z.eqb_spec (batch * kp) 0) as [Hz|Hz]; [left; eauto|].
  right. eexists. split; [reflexivity|].
  assert (0 < batch) by nia. assert (0 < kp) by nia.
  destruct (Z.ltb_spec 0 batch); [|lia]. destruct (Z.ltb_spec 0 kp); [|lia].
  pose proof (Z.div_mod (size shp) (batch * kp) Hz) as Hdm. rewrite Hm in Hdm.
  repeat split; try lia.
Qed.

Lemma size_nonneg (shp : list Z) : Forall (fun d => 0 <= d) shp -> 0 <= size shp.
Proof.
  induction 1 as [|d shp Hd _ IH]; cbn; [lia|]. unfold size in IH. nia.
Qed.

Lemma rows_cons (n count : Z) (buf : list f32) :
  0 < count ->
  exists rest, rows n count buf = take (Z.to_nat n) buf :: rest.
Proof.
  intros Hc. unfold rows, range. rewrite seqZ_cons by lia.
  rewrite fmap_cons. eexists. f_equal.
Qed.

Lemma rows_nonempty (n count : Z) (buf row : list f32) :
  0 < n -> Z.of_nat (length buf) = count * n ->
  row ∈ rows n count buf -> row <> [].
Proof.
  intros Hn Hlen Hrow. pose proof (row_length n count buf row ltac:(lia) Hlen Hrow) as Hl.
  intros ->. cbn in Hl. lia.
Qed.

(** [heatmap[b, k, :, :]] needs four axes. *)
Lemma check_view_low_rank (a : ndarray) :
  (length (shape a) < 4)%nat -> check_view a 0 0 = Raised IndexError.
Proof.
  intros Hr. unfold check_view.
  destruct (shape a) as [|d0 [|d1 rest]]; cbn [index_offset]; try reflexivity.
  - destruct ((0 <=? _) && _); reflexivity.
  - destruct ((0 <=? _) && _); [|reflexivity].
    destruct ((0 <=? _) && _); [|reflexivity].
    cbn [length] in Hr.
    destruct (Nat.leb_spec 2 (length rest)); [lia|reflexivity].
Qed.

Lemma for_each_first_raises {A} (x : A) (xs : list A) (body : A -> M unit)
    (s s' : store) (e : exn) :
  body x s = (Raised e, s') -> for_each (x :: xs) body s = (Raised e, s').
Proof. intros H. cbn [for_each]. apply bind_raised. exact H. Qed.

Lemma range_cons (n : Z) : 0 < n -> exists rest, range n = 0 :: rest.
Proof. intros Hn. unfold range. rewrite seqZ_cons by lia. eauto. Qed.

(** C4 (amended). For every heatmap tensor of rank below four, or with
    a zero dimension (zero batch, zero keypoint count or an empty spatial
    axis), the decoding raises and returns no result. The exception is one
    of NumPy's and Chainer's own, [IndexError], [ValueError],
    [InvalidType] or [AssertionError]: the code has no shape check of its
    own. Every array that existed before the call is unchanged, and with a
    zero dimension the call stops before the result array is allocated. *)
Theorem C4_malformed_shape_raises {build : Reduction} (self : SimplePose) (σ : store) (hl : loc)
    (a : ndarray) :
  σ !! hl = Some a ->
  nd_valid a ->
  (length (shape a) < 4)%nat \/ size (shape a) = 0 ->
  exists e σ',
    decode_heatmap self hl σ = (Raised e, σ') /\
    (e = IndexError \/ e = ValueError \/ e = InvalidType \/ e = AssertionError) /\
    (forall l, l ∈ dom σ -> σ' !! l = σ !! l) /\
    (size (shape a) = 0 -> σ' = σ).
Proof.
  intros Hload (Hdims & Hlen & _) Hbad.
  assert (Hgoal : exists e σ',
            decode_heatmap self hl σ = (Raised e, σ') /\
            (e = IndexError \/ e = ValueError \/ e = InvalidType \/ e = AssertionError) /\
            (size (shape a) = 0 -> σ' = σ)).
  { unfold decode_heatmap.
    rewrite (bind_returned _ _ σ σ a (load_some hl σ a Hload)).
    destruct (shape a) as [|batch shp] eqn:Hshape.
    { exists IndexError, σ. split; [reflexivity|]. split; [auto|reflexivity]. }
    unfold bind at 1, lift at 1.
    assert (Hbatch : 0 <= batch) by (inversion Hdims; assumption).
    pose proof (size_nonneg _ Hdims) as Hsize.
    destruct (reshape_infer_cases (batch :: shp) batch (keypoints self) Hbatch Hsize)
      as [(e & He & Hcase)|(n & Hn & Hb & Hk & Hn0 & Hsz)].
    { unfold bind at 1, lift at 1. rewrite He. exists e, σ.
      split; [reflexivity|]. split; [tauto|reflexivity]. }
    unfold bind at 1, lift at 1. rewrite Hn.
    destruct (Z.eq_dec n 0) as [->|Hnz].
    { destruct (rows_cons 0 (batch * keypoints self) (data a) ltac:(nia)) as [rest ->].
      unfold bind at 1, lift at 1.
      rewrite (reduce_axis_empty F_argmax (take (Z.to_nat 0) (data a)) rest eq_refl).
      exists ValueError, σ. split; [reflexivity|]. split; [auto|reflexivity]. }
    assert (Hrank : (length (shape a) < 4)%nat).
    { rewrite Hshape. destruct Hbad as [Hr|Hz]; [exact Hr|nia]. }
    assert (Hrows : forall r, r ∈ rows n (batch * keypoints self) (data a) -> r <> []).
    { intros r Hr. eapply rows_nonempty; [|exact (eq_trans Hlen Hsz)|exact Hr]. lia. }
    unfold bind at 1, lift at 1.
    rewrite (reduce_axis_total F_argmax 0).
    2:{ intros r Hr. apply F_argmax_is_Some, Hrows, Hr. }
    unfold bind at 1, lift at 1.
    rewrite (reduce_axis_total np_max F32.zero).
    2:{ intros r Hr. apply np_max_is_Some, Hrows, Hr. }
    unfold bind at 1, alloc at 1.
    destruct (range_cons batch Hb) as [bs ->].
    destruct (range_cons (keypoints self) Hk) as [ks ->].
    eexists IndexError, _. split.
    - apply bind_raised. apply for_each_first_raises.
      apply for_each_first_raises. unfold refine_slot.
      erewrite bind_returned.
      2:{ apply load_some. rewrite lookup_insert_ne; [exact Hload|].
          intros <-. apply (is_fresh (dom σ)). apply elem_of_dom. eauto. }
      apply bind_raised. unfold lift. rewrite check_view_low_rank by exact Hrank.
      reflexivity.
    - split; [auto|]. intros Hz. nia. }
  destruct Hgoal as (e & σ' & Hrun & He & Hz).
  exists e, σ'. split; [exact Hrun|]. split; [exact He|]. split; [|exact Hz].
  exact (proj1 (decode_heatmap_frame self hl σ σ' (Raised e) Hrun)).
Qed.

Lemma tensor3_valid : nd_valid tensor3.
Proof. unfold nd_valid. cbn. repeat split; try lia. repeat constructor; lia. Qed.

Lemma tensor5_valid : nd_valid tensor5.
Proof. unfold nd_valid. cbn. repeat split; try lia. repeat constructor; lia. Qed.

Lemma C4_witness :
  exists e σ',
    decode_heatmap model4 1%positive {[ 1%positive := tensor3 ]} = (Raised e, σ') /\
    (e = IndexError \/ e = ValueError \/ e = InvalidType \/ e = AssertionError) /\
    (forall l, l ∈ dom ({[ 1%positive := tensor3 ]} : store) ->
               σ' !! l = ({[ 1%positive := tensor3 ]} : store) !! l) /\
    (size (shape tensor3) = 0 -> σ' = {[ 1%positive := tensor3 ]}).
Proof.
  apply (C4_malformed_shape_raises model4 {[ 1%positive := tensor3 ]} 1%positive tensor3).
  - reflexivity.
  - exact tensor3_valid.
  - left. cbn. lia.
Defined.

Lemma C4_counterexample :
  (nd_valid tensor5 /\ length (shape tensor5) <> 4%nat /\
   fst (decode_heatmap model4 1%positive {[ 1%positive := tensor5 ]})
   = Returned 2%positive) /\
  (nd_valid tensor3 /\ length (shape tensor3) = 3%nat /\
   fst (decode_heatmap model4 1%positive {[ 1%positive := tensor3 ]})
   = Raised IndexError /\
   snd (decode_heatmap model4 1%positive {[ 1%positive := tensor3 ]}) !! 2%positive
   = Some (NDArray [1; 1; 3] [F32.zero; F32.one; F32.one])).
Proof.
  split.
  - split; [exact tensor5_valid|]. split; [discriminate|]. vm_compute. reflexivity.
  - split; [exact tensor3_valid|]. split; [reflexivity|].
    split; vm_compute; reflexivity.
Qed.

(** * Further properties of the decoding *)

(** ** Slices are decoded independently *)

(** X1. The record of a slot depends on its own slice and on the grid
    alone: two heatmaps, of any batch sizes, that agree on one slice give
    the same record for it, whatever their other slices hold and although
    the loops update one shared array. *)
Theorem decode_slot_local {build : Reduction} (self1 self2 : SimplePose) (σ1 σ2 : store) (h1 h2 : loc)
    (a1 a2 : ndarray) (B1 B2 K H W b1 k1 b2 k2 : Z) :
  σ1 !! h1 = Some a1 -> σ2 !! h2 = Some a2 ->
  well_shaped self1 a1 B1 K H W -> well_shaped self2 a2 B2 K H W ->
  0 <= b1 < B1 -> 0 <= k1 < K -> 0 <= b2 < B2 -> 0 <= k2 < K ->
  slice a1 K H W b1 k1 = slice a2 K H W b2 k2 ->
  exists kp1 arr1 σ1' kp2 arr2 σ2' rec,
    decode_heatmap self1 h1 σ1 = (Returned kp1, σ1') /\ σ1' !! kp1 = Some arr1 /\
    decode_heatmap self2 h2 σ2 = (Returned kp2, σ2') /\ σ2' !! kp2 = Some arr2 /\
    get_item arr1 [b1; k1] = Returned rec /\
    get_item arr2 [b2; k2] = Returned rec.
Proof.
  intros Hl1 Hl2 Hw1 Hw2 Hb1 Hk1 Hb2 Hk2 Hslice.
  destruct (decode_heatmap_slots self1 σ1 h1 a1 B1 K H W Hl1 Hw1)
    as (arr1 & Hrun1 & _ & _ & Hs1).
  destruct (decode_heatmap_slots self2 σ2 h2 a2 B2 K H W Hl2 Hw2)
    as (arr2 & Hrun2 & _ & _ & Hs2).
  destruct (Hs1 b1 k1 Hb1 Hk1) as (Hg1 & _).
  destruct (Hs2 b2 k2 Hb2 Hk2) as (Hg2 & _).
  eexists _, arr1, _, _, arr2, _, _.
  split; [exact Hrun1|]. split; [apply lookup_insert_eq|].
  split; [exact Hrun2|]. split; [apply lookup_insert_eq|].
  split; [exact Hg1|]. rewrite Hg2, Hslice. reflexivity.
Qed.

Lemma heatmap5_pair_well_shaped : well_shaped model5 heatmap5_pair 2 2 5 5.
Proof.
  unfold well_shaped, nd_valid. cbn [shape data heatmap5_pair].
  repeat split; try lia; try reflexivity.
  repeat constructor; lia.
Qed.

Lemma decode_slot_local_witness :
  exists kp1 arr1 σ1' kp2 arr2 σ2' rec,
    decode_heatmap model5 1%positive store5 = (Returned kp1, σ1') /\
    σ1' !! kp1 = Some arr1 /\
    decode_heatmap model5 3%positive {[ 3%positive := heatmap5_pair ]}
    = (Returned kp2, σ2') /\
    σ2' !! kp2 = Some arr2 /\
    get_item arr1 [0; 0] = Returned rec /\
    get_item arr2 [1; 0] = Returned rec.
Proof.
  apply (decode_slot_local model5 model5 store5 {[ 3%positive := heatmap5_pair ]}
           1%positive 3%positive heatmap5 heatmap5_pair 1 2 2 5 5 0 0 1 0).
  - reflexivity.
  - reflexivity.
  - exact heatmap5_well_shaped.
  - exact heatmap5_pair_well_shaped.
  - lia.
  - lia.
  - lia.
  - lia.
  - reflexivity.
Defined.

(** ** Batches concatenate *)

Lemma rows_app (n c1 c2 : Z) (d1 d2 : list f32) :
  0 <= n -> 0 <= c1 -> 0 <= c2 -> Z.of_nat (length d1) = c1 * n ->
  rows n (c1 + c2) (d1 ++ d2) = rows n c1 d1 ++ rows n c2 d2.
Proof.
  intros Hn Hc1 Hc2 Hlen. unfold rows, range.
  rewrite seqZ_app by lia. rewrite fmap_app. f_equal.
  - apply list_fmap_ext. intros i j Hj.
    apply lookup_seqZ in Hj as [-> Hi].
    rewrite drop_app_le by nia.
    apply take_app_le. rewrite length_drop. nia.
  - replace (0 + c1) with (c1 + 0) by lia.
    rewrite <- (fmap_add_seqZ c1 0 c2), <- list_fmap_compose.
    apply list_fmap_ext. intros i j Hj.
    apply lookup_seqZ in Hj as [-> Hi]. cbn [compose].
    f_equal. rewrite drop_app_ge by nia. f_equal. nia.
Qed.

(** X2. Decoding two batches stacked along the batch axis gives the
    records of the first followed by the records of the second. *)
Theorem decode_batch_concat {build : Reduction} (self : SimplePose) (σ σ1 σ2 : store) (h h1 h2 : loc)
    (a1 a2 : ndarray) (B1 B2 K H W : Z) :
  σ1 !! h1 = Some a1 -> σ2 !! h2 = Some a2 ->
  σ !! h = Some (NDArray [B1 + B2; K; H; W] (data a1 ++ data a2)) ->
  well_shaped self a1 B1 K H W -> well_shaped self a2 B2 K H W ->
  (B1 + B2) * K * (H * W) < 2 ^ 63 ->
  exists kp arr σ' kp1 arr1 σ1' kp2 arr2 σ2',
    decode_heatmap self h σ = (Returned kp, σ') /\ σ' !! kp = Some arr /\
    decode_heatmap self h1 σ1 = (Returned kp1, σ1') /\ σ1' !! kp1 = Some arr1 /\
    decode_heatmap self h2 σ2 = (Returned kp2, σ2') /\ σ2' !! kp2 = Some arr2 /\
    shape arr = [B1 + B2; K; 3] /\
    shape arr1 = [B1; K; 3] /\ shape arr2 = [B2; K; 3] /\
    data arr = data arr1 ++ data arr2.
Proof.
  intros Hl1 Hl2 Hl Hw1 Hw2 Hsz.
  destruct (well_shaped_sizes _ _ _ _ _ _ Hw1) as (Hlen1 & _ & _).
  destruct (well_shaped_sizes _ _ _ _ _ _ Hw2) as (Hlen2 & _ & _).
  assert (Hw : well_shaped self (NDArray [B1 + B2; K; H; W] (data a1 ++ data a2))
                 (B1 + B2) K H W).
  { destruct Hw1 as ((Hd1 & _) & Hs1 & HB1 & HK & HH & HW & Hkp & Hout).
    destruct Hw2 as (_ & _ & HB2 & _).
    unfold well_shaped, nd_valid. cbn [shape data].
    rewrite size4, length_app, Nat2Z.inj_add, Hlen1, Hlen2.
    repeat split; try lia; try assumption.
    repeat constructor; lia. }
  rewrite (decode_heatmap_correct self σ h _ _ _ _ _ Hl Hw).
  rewrite (decode_heatmap_correct self σ1 h1 _ _ _ _ _ Hl1 Hw1).
  rewrite (decode_heatmap_correct self σ2 h2 _ _ _ _ _ Hl2 Hw2).
  eexists _, _, _, _, _, _, _, _, _.
  split; [reflexivity|]. split; [apply lookup_insert_eq|].
  split; [reflexivity|]. split; [apply lookup_insert_eq|].
  split; [reflexivity|]. split; [apply lookup_insert_eq|].
  cbn [shape data]. repeat split.
  destruct Hw1 as (_ & _ & HB1 & HK & HH & HW & _).
  destruct Hw2 as (_ & _ & HB2 & _).
  replace ((B1 + B2) * K) with (B1 * K + B2 * K) by ring.
  rewrite rows_app by nia. rewrite fmap_app, concat_app. reflexivity.
Qed.

Lemma decode_batch_concat_witness :
  exists kp arr σ' kp1 arr1 σ1' kp2 arr2 σ2',
    decode_heatmap model5 3%positive {[ 3%positive := heatmap5_pair ]}
    = (Returned kp, σ') /\ σ' !! kp = Some arr /\
    decode_heatmap model5 1%positive store5 = (Returned kp1, σ1') /\
    σ1' !! kp1 = Some arr1 /\
    decode_heatmap model5 7%positive store5' = (Returned kp2, σ2') /\
    σ2' !! kp2 = Some arr2 /\
    shape arr = [1 + 1; 2; 3] /\
    shape arr1 = [1; 2; 3] /\ shape arr2 = [1; 2; 3] /\
    data arr = data arr1 ++ data arr2.
Proof.
  apply (decode_batch_concat model5 {[ 3%positive := heatmap5_pair ]} store5 store5'
           3%positive 1%positive 7%positive heatmap5 heatmap5 1 1 2 5 5).
  - reflexivity.
  - reflexivity.
  - reflexivity.
  - exact heatmap5_well_shaped.
  - exact heatmap5_well_shaped.
  - reflexivity.
Defined.

(** ** The position addresses the peak *)



(** ** A tensor that does not split into keypoint rows *)

(** X4. When the number of elements of the tensor is not a multiple
    of [batch * keypoints], [F.reshape] refuses it: the call raises
    [InvalidType] before anything is computed or allocated. *)
Theorem decode_size_mismatch {build : Reduction} (self : SimplePose) (σ : store) (hl : loc)
    (a : ndarray) (batch : Z) (shp : list Z) :
  σ !! hl = Some a ->
  shape a = batch :: shp ->
  0 < batch -> 0 < keypoints self ->
  size (shape a) mod (batch * keypoints self) <> 0 ->
  decode_heatmap self hl σ = (Raised InvalidType, σ).
Proof.
  intros Hload Hshape Hb Hk Hmod. unfold decode_heatmap.
  rewrite (bind_returned _ _ σ σ a (load_some hl σ a Hload)).
  rewrite Hshape in *. unfold bind at 1, lift at 1.
  unfold bind at 1, lift at 1. unfold reshape_infer.
  destruct (Z.ltb_spec (keypoints self) 0); [lia|].
  destruct (Z.ltb_spec 0 batch); [|lia].
  destruct (Z.ltb_spec 0 (keypoints self)); [|lia].
  destruct (Z.eqb_spec (size (batch :: shp) mod (batch * keypoints self)) 0);
    [contradiction|reflexivity].
Qed.

Lemma decode_size_mismatch_witness :
  decode_heatmap model5 1%positive {[ 1%positive := heatmap_odd ]}
  = (Raised InvalidType, {[ 1%positive := heatmap_odd ]}).
Proof.
  apply (decode_size_mismatch model5 {[ 1%positive := heatmap_odd ]} 1%positive
           heatmap_odd 1 [3; 5; 5]).
  - reflexivity.
  - reflexivity.
  - lia.
  - reflexivity.
  - discriminate.
Defined.

(** ** The whole call *)

(** X5. In keypoint mode, when the three stages return and the
    heatmap fits the model, [__call__] returns a new array of shape
    [(batch, keypoints, 3)], as [_test] asserts, and leaves every array
    the stages produced as it was. *)
Theorem SimplePose_call_keypoints {build : Reduction} (backbone decoder final_block : loc -> M loc)
    (self : SimplePose) (x x1 x2 h : loc) (σ σ1 σ2 σ3 : store)
    (a : ndarray) (B K H W : Z) :
  return_heatmap self = false ->
  backbone x σ = (Returned x1, σ1) ->
  decoder x1 σ1 = (Returned x2, σ2) ->
  final_block x2 σ2 = (Returned h, σ3) ->
  σ3 !! h = Some a ->
  well_shaped self a B K H W ->
  exists kp arr σ',
    SimplePose_call backbone decoder final_block self x σ = (Returned kp, σ') /\
    σ' !! kp = Some arr /\
    shape arr = [B; keypoints self; 3] /\
    (kp ∉ dom σ3) /\
    (forall l, l ∈ dom σ3 -> σ' !! l = σ3 !! l).
Proof.
  intros Hmode Hb Hd Hf Hload Hws.
  destruct (decode_heatmap_slots self σ3 h a B K H W Hload Hws)
    as (arr & Hrun & Hshape & _ & _).
  exists (fresh (dom σ3)), arr, (<[fresh (dom σ3) := arr]> σ3).
  split.
  { unfold SimplePose_call.
    rewrite (bind_returned _ _ _ _ _ Hb), (bind_returned _ _ _ _ _ Hd),
      (bind_returned _ _ _ _ _ Hf), Hmode. exact Hrun. }
  split; [apply lookup_insert_eq|].
  split; [destruct Hws as (_ & _ & _ & _ & _ & _ & -> & _); exact Hshape|].
  split; [apply is_fresh|].
  intros l Hl. apply lookup_insert_ne. intros <-. exact (is_fresh (dom σ3) Hl).
Qed.

Lemma SimplePose_call_keypoints_witness :
  exists kp arr σ',
    SimplePose_call (fun x => ret x) (fun x => ret x) (fun x => ret x)
      model5 1%positive store5 = (Returned kp, σ') /\
    σ' !! kp = Some arr /\
    shape arr = [1; keypoints model5; 3] /\
    (kp ∉ dom store5) /\
    (forall l, l ∈ dom store5 -> σ' !! l = store5 !! l).
Proof.
  apply (SimplePose_call_keypoints (fun x => ret x) (fun x => ret x) (fun x => ret x)
           model5 1%positive 1%positive 1%positive 1%positive
           store5 store5 store5 store5 heatmap5 1 2 5 5).
  - reflexivity.
  - reflexivity.
  - reflexivity.
  - reflexivity.
  - reflexivity.
  - exact heatmap5_well_shaped.
Defined.

(** * The construction of the network *)

(** ** The decoder built by [__init__] *)

Lemma unit_name_inj (i j : Z) :
  "unit" +:+ pretty i = "unit" +:+ pretty j -> i = j.
Proof. intros Heq. apply (inj pretty). exact (inj (String.app "unit") _ _ Heq). Qed.

Lemma units_from_names (i cin : Z) (cs : list Z) (name : string) :
  name ∈ (units_from i cin cs).*1 ->
  exists j, i + 1 <= j <= i + Z.of_nat (length cs) /\ name = "unit" +:+ pretty j.
Proof.
  revert i cin. induction cs as [|c cs IH]; intros i cin Hin; cbn in Hin.
  - inversion Hin.
  - apply elem_of_cons in Hin as [->|Hin].
    + exists (i + 1). cbn [length]. split; [lia|reflexivity].
    + destruct (IH _ _ Hin) as (j & Hj & ->). exists j. cbn [length]. split; [lia|reflexivity].
Qed.

Lemma units_from_NoDup (i cin : Z) (cs : list Z) : NoDup (units_from i cin cs).*1.
Proof.
  revert i cin. induction cs as [|c cs IH]; intros i cin; cbn.
  - constructor.
  - constructor; [|apply IH].
    intros Hin. destruct (units_from_names _ _ _ _ Hin) as (j & Hj & Heq).
    apply unit_name_inj in Heq. lia.
Qed.

Lemma units_from_length (i cin : Z) (cs : list Z) :
  length (units_from i cin cs) = length cs.
Proof. revert i cin. induction cs as [|c cs IH]; intros i cin; cbn; [|rewrite IH]; reflexivity. Qed.

Lemma units_from_lookup (i cin : Z) (cs : list Z) (n : nat) (c_in c_out : Z) :
  (cin :: cs) !! n = Some c_in -> cs !! n = Some c_out ->
  units_from i cin cs !! n
  = Some ("unit" +:+ pretty (i + Z.of_nat n + 1), DeconvBlock_default c_in c_out 4 2 1).
Proof.
  revert i cin n. induction cs as [|c cs IH]; intros i cin n Hin Hout; [discriminate|].
  destruct n as [|n].
  - injection Hin as <-. injection Hout as <-.
    change (Z.of_nat 0) with 0. rewrite Z.add_0_r. reflexivity.
  - etransitivity; [exact (IH (i + 1) c n Hin Hout)|].
    replace (i + 1 + Z.of_nat n + 1) with (i + Z.of_nat (S n) + 1) by lia.
    reflexivity.
Qed.

Lemma last_cons_default (c : Z) (cs : list Z) :
  last (c :: cs) = Some (default c (last cs)).
Proof.
  revert c. induction cs as [|d cs IH]; intros c; [reflexivity|].
  rewrite last_cons_cons, IH. reflexivity.
Qed.

Lemma new_links_app (construct : link -> option py_exn) (l1 l2 : list link) :
  new_links construct (l1 ++ l2)
  = (_ <~ new_links construct l1 ;; new_links construct l2).
Proof.
  induction l1 as [|l l1 IH]; [reflexivity|]. cbn [new_links app].
  destruct (construct l); [reflexivity|exact IH].
Qed.

Lemma new_links_inl (construct : link -> option py_exn) (ls : list link) (e : py_exn) :
  new_links construct ls = inl e -> exists l, l ∈ ls /\ construct l = Some e.
Proof.
  induction ls as [|l ls IH]; [discriminate|]. cbn [new_links].
  destruct (construct l) as [e'|] eqn:Hl.
  - intros [= <-]. exists l. split; [left|exact Hl].
  - intros H. destruct (IH H) as (l' & Hin & Hl'). exists l'. split; [right; exact Hin|exact Hl'].
Qed.

Lemma new_links_inr (construct : link -> option py_exn) (ls : list link) :
  new_links construct ls = inr tt <-> forall l, l ∈ ls -> construct l = None.
Proof.
  induction ls as [|l ls IH]; cbn [new_links].
  - split; [intros _ l Hin; inversion Hin|reflexivity].
  - destruct (construct l) as [e|] eqn:Hl.
    + split; [discriminate|]. intros H. specialize (H l ltac:(left)). congruence.
    + rewrite IH. split.
      * intros H l' Hin. apply elem_of_cons in Hin as [->|Hin]; [exact Hl|exact (H _ Hin)].
      * intros H l' Hin. apply H. right. exact Hin.
Qed.

(** A block with the default arguments: its three links, then itself. *)
Lemma DeconvBlock_new_default (construct : link -> option py_exn) (cin cout : Z) :
  DeconvBlock_new construct cin cout 4 2 1 1 1 false true (1, -5) (Some lambda_relu)
  = (_ <~ new_links construct
            [Deconvolution2D cin cout 4 2 1 true 1 1;
             BatchNormalization cout (1, -5);
             get_activation_layer lambda_relu] ;;
     inr (DeconvBlock_default cin cout 4 2 1)).
Proof. reflexivity. Qed.

(** The loop constructs the links of its units in order and stops at the
    first that cannot be built; no registration meets a name that is
    taken. *)
Lemma decoder_units_spec (construct : link -> option py_exn) (cs : list Z)
    (i cin : Z) (seq : sequential DeconvBlock) :
  (forall name, name ∈ seq.*1 -> exists j, j <= i /\ name = "unit" +:+ pretty j) ->
  decoder_units construct i cin cs seq
  = (_ <~ new_links construct (unit_links cin cs) ;;
     inr (default cin (last cs), seq ++ units_from i cin cs)).
Proof.
  revert i cin seq. induction cs as [|c cs IH]; intros i cin seq Hseq.
  - cbn. rewrite app_nil_r. reflexivity.
  - cbn [decoder_units unit_links units_from].
    rewrite DeconvBlock_new_default, new_links_app.
    destruct (new_links construct _) as [e|[]]; [reflexivity|]. cbn [and_then].
    unfold register.
    rewrite bool_decide_eq_false_2.
    2:{ intros Hin. destruct (Hseq _ Hin) as (j & Hj & Heq).
        apply unit_name_inj in Heq. lia. }
    cbn [and_then]. rewrite IH.
    + rewrite last_cons_default, <- app_assoc. reflexivity.
    + intros name Hin. rewrite fmap_app in Hin.
      apply elem_of_app in Hin as [Hin|Hin].
      * destruct (Hseq _ Hin) as (j & Hj & ->). exists j. split; [lia|reflexivity].
      * cbn in Hin. apply list_elem_of_singleton in Hin as ->.
        exists (i + 1). split; [lia|reflexivity].
Qed.

(** What [__init__] does when the assertion passes: it constructs the
    links of the units and of the final block, in this order, and
    returns the object if none of them raises. *)
Lemma SimplePose_new_ok {Backbone} (construct : link -> option py_exn)
    (b : Backbone) (boc : Z) (channels : list Z) (rh : bool) (in_size : Z * Z)
    (kp : Z) :
  SimplePose_new construct b boc channels rh 3 in_size kp
  = (_ <~ new_links construct
            (unit_links boc channels
             ++ [conv1x1 (default boc (last channels)) kp true]) ;;
     inr {| attributes := SimplePose_init rh in_size kp;
            backbone := b;
            decoder := units_from 0 boc channels;
            final_block := conv1x1 (default boc (last channels)) kp true |}).
Proof.
  unfold SimplePose_new. cbn [Z.eqb Pos.eqb negb].
  rewrite decoder_units_spec by (intros name Hin; inversion Hin).
  rewrite new_links_app.
  destruct (new_links construct (unit_links boc channels)) as [e|[]]; [reflexivity|].
  cbn [and_then fst snd app]. 
  destruct (new_links construct [_]) as [e|[]]; reflexivity.
Qed.

Lemma SimplePose_new_assert {Backbone} (construct : link -> option py_exn)
    (b : Backbone) (boc : Z) (channels : list Z)
    (rh : bool) (in_channels : Z) (in_size : Z * Z) (kp : Z) :
  in_channels <> 3 ->
  SimplePose_new construct b boc channels rh in_channels in_size kp
  = inl (Library AssertionError).
Proof.
  intros Hne. unfold SimplePose_new.
  destruct (Z.eqb_spec in_channels 3); [contradiction|reflexivity].
Qed.

(** The object [__init__] returns, when it returns. *)
Lemma SimplePose_new_inr {Backbone} (construct : link -> option py_exn)
    (b : Backbone) (boc : Z) (channels : list Z)
    (rh : bool) (in_channels : Z) (in_size : Z * Z) (kp : Z)
    (net : SimplePoseNet Backbone) :
  SimplePose_new construct b boc channels rh in_channels in_size kp = inr net ->
  in_channels = 3 /\
  (forall l, l ∈ unit_links boc channels
                 ++ [conv1x1 (default boc (last channels)) kp true] ->
     construct l = None) /\
  net = {| attributes := SimplePose_init rh in_size kp;
           backbone := b;
           decoder := units_from 0 boc channels;
           final_block := conv1x1 (default boc (last channels)) kp true |}.
Proof.
  intros Hnew. destruct (Z.eq_dec in_channels 3) as [->|Hne].
  2:{ rewrite SimplePose_new_assert in Hnew by exact Hne. discriminate. }
  split; [reflexivity|]. rewrite SimplePose_new_ok in Hnew.
  destruct (new_links construct _) as [e|[]] eqn:Hl; [discriminate|].
  split; [apply new_links_inr; exact Hl|]. cbn in Hnew. congruence.
Qed.

(** X6. [__init__] raises [AssertionError] when [in_channels] is not 3,
    before it constructs any link. Otherwise it fails only with the
    exception of a constructor of one of its links (the three links of
    each decoder unit and the final [conv1x1]), never at a registration,
    and it returns when all these links can be constructed. The object
    it returns holds the backbone and the arguments as given, with
    [out_size = in_size // 4] rounded down in both directions. *)
Theorem SimplePose_new_in_channels {Backbone} (construct : link -> option py_exn)
    (b : Backbone) (boc : Z) (channels : list Z) (rh : bool) (in_channels : Z)
    (in_size : Z * Z) (kp : Z) :
  let links := unit_links boc channels
               ++ [conv1x1 (default boc (last channels)) kp true] in
  (in_channels <> 3 ->
   SimplePose_new construct b boc channels rh in_channels in_size kp
   = inl (Library AssertionError)) /\
  (in_channels = 3 ->
   forall e,
     SimplePose_new construct b boc channels rh in_channels in_size kp = inl e ->
     exists l, l ∈ links /\ construct l = Some e) /\
  (in_channels = 3 -> (forall l, l ∈ links -> construct l = None) ->
   exists net,
     SimplePose_new construct b boc channels rh in_channels in_size kp = inr net) /\
  (forall net,
     SimplePose_new construct b boc channels rh in_channels in_size kp = inr net ->
     in_channels = 3 /\
     (forall l, l ∈ links -> construct l = None) /\
     backbone net = b /\
     attributes net = SimplePose_init rh in_size kp /\
     return_heatmap (attributes net) = rh /\
     keypoints (attributes net) = kp /\
     4 * fst (out_size (attributes net)) <= fst in_size
       < 4 * fst (out_size (attributes net)) + 4 /\
     4 * snd (out_size (attributes net)) <= snd in_size
       < 4 * snd (out_size (attributes net)) + 4).
Proof.
  intros links. split; [apply SimplePose_new_assert|]. split; [|split].
  - intros -> e. rewrite SimplePose_new_ok. fold links.
    destruct (new_links construct links) as [e'|[]] eqn:Hl; [|discriminate].
    intros [= <-]. exact (new_links_inl _ _ _ Hl).
  - intros -> Hall. rewrite SimplePose_new_ok. fold links.
    rewrite (proj2 (new_links_inr construct links) Hall). eexists. reflexivity.
  - intros net Hnew.
    destruct (SimplePose_new_inr _ _ _ _ _ _ _ _ _ Hnew) as (Hin & Hall & ->).
    split; [exact Hin|]. split; [exact Hall|].
    cbn [backbone attributes SimplePose_init return_heatmap keypoints out_size fst snd].
    repeat split; try reflexivity.
    all: match goal with
         | |- context [?a / 4] =>
             pose proof (Z.div_mod a 4 ltac:(lia));
             pose proof (Z.mod_pos_bound a 4 ltac:(lia)); lia
         end.
Qed.

(** With [keypoints = -1] the constructor of the final block raises, and
    so does [__init__]. *)
Lemma SimplePose_new_in_channels_witness :
  SimplePose_new example_construct tt 1 [] false 3 (20, 20) (-1)
  = inl (Library ValueError) /\
  exists l, l ∈ [conv1x1 1 (-1) true] /\ example_construct l = Some (Library ValueError).
Proof.
  split; [reflexivity|].
  apply (proj1 (proj2 (SimplePose_new_in_channels example_construct tt 1 [] false 3
                         (20, 20) (-1))) eq_refl (Library ValueError)).
  reflexivity.
Defined.

(** X7. The decoder of an object [__init__] returned has one unit per
    entry of [channels], registered as ["unit1"], ["unit2"], ... without
    a name clash. Unit [n] is a 4x4 deconvolution of stride 2 and padding
    1 with batch normalisation and activation; it takes the channels the
    unit before it produces, the first takes [backbone_out_channels], and
    the final block takes the channels of the last unit. *)
Theorem SimplePose_new_decoder {Backbone} (construct : link -> option py_exn)
    (b : Backbone) (boc : Z) (channels : list Z) (rh : bool) (in_channels : Z)
    (in_size : Z * Z) (kp : Z) (net : SimplePoseNet Backbone) :
  SimplePose_new construct b boc channels rh in_channels in_size kp = inr net ->
  length (decoder net) = length channels /\
  NoDup (decoder net).*1 /\
  (forall n c_in c_out,
     (boc :: channels) !! n = Some c_in -> channels !! n = Some c_out ->
     decoder net !! n
     = Some ("unit" +:+ pretty (Z.of_nat n + 1),
             {| activate := true; use_bn := true;
                conv := Deconvolution2D c_in c_out 4 2 1 true 1 1;
                bn := Some (BatchNormalization c_out (1, -5));
                activ := Some (get_activation_layer lambda_relu) |})) /\
  final_block net = conv1x1 (default boc (last channels)) kp true.
Proof.
  intros Hnew. destruct (SimplePose_new_inr _ _ _ _ _ _ _ _ _ Hnew) as (_ & _ & ->).
  cbn [decoder final_block].
  split; [apply units_from_length|]. split; [apply units_from_NoDup|].
  split; [|reflexivity].
  intros n c_in c_out Hin Hout.
  rewrite (units_from_lookup 0 boc channels n c_in c_out Hin Hout).
  rewrite Z.add_0_l. reflexivity.
Qed.

Lemma SimplePose_new_decoder_witness :
  SimplePose_new example_construct tt 512 [256; 256; 256] false 3 (256, 192) 17
  = inr example_net /\
  length (decoder example_net) = length [256; 256; 256] /\
  NoDup (decoder example_net).*1 /\
  (forall n c_in c_out,
     (512 :: [256; 256; 256]) !! n = Some c_in -> [256; 256; 256] !! n = Some c_out ->
     decoder example_net !! n
     = Some ("unit" +:+ pretty (Z.of_nat n + 1),
             {| activate := true; use_bn := true;
                conv := Deconvolution2D c_in c_out 4 2 1 true 1 1;
                bn := Some (BatchNormalization c_out (1, -5));
                activ := Some (get_activation_layer lambda_relu) |})) /\
  final_block example_net = conv1x1 (default 512 (last [256; 256; 256])) 17 true.
Proof.
  split; [vm_compute; reflexivity|].
  apply (SimplePose_new_decoder example_construct tt 512 [256; 256; 256] false 3
           (256, 192) 17 example_net).
  vm_compute. reflexivity.
Defined.

(** ** [DeconvBlock] *)

(** The call of a block built by [__init__], link by link. *)
Lemma DeconvBlock_call_links {T} (run : link -> T -> attempt T)
    (cin cout k s p d g : Z) (use_bias with_bn : bool) (eps : Z * Z)
    (act : option activation) (x : T) :
  DeconvBlock_call run (DeconvBlock_init cin cout k s p d g use_bias with_bn eps act) x
  = (y <~ run (Deconvolution2D cin cout k s p (negb use_bias) d g) x ;;
     y <~ (if with_bn then run (BatchNormalization cout eps) y else inr y) ;;
     match act with
     | Some a => run (get_activation_layer a) y
     | None => inr y
     end).
Proof.
  unfold DeconvBlock_call, DeconvBlock_init.
  cbn [conv use_bn bn activate activ].
  destruct (run _ x) as [e|y]; [reflexivity|]. cbn [and_then].
  destruct with_bn; cbn [getattr and_then].
  - destruct (run _ y) as [e|z]; [reflexivity|]. cbn [and_then].
    destruct act as [a|]; cbn; [destruct (run _ z)|]; reflexivity.
  - destruct act as [a|]; cbn; [destruct (run _ y)|]; reflexivity.
Qed.

(** X8. A block built by [__init__] never misses an attribute when
    called: [bn] and [activ] are read exactly when they were created. The
    call applies the deconvolution, then the normalisation if [use_bn],
    then the activation unless [activation] is [None], and stops at the
    first link that raises. *)
Theorem DeconvBlock_call_init {T} (run : link -> T -> attempt T)
    (cin cout k s p d g : Z) (use_bias with_bn : bool) (eps : Z * Z)
    (act : option activation) (x : T) :
  DeconvBlock_call run (DeconvBlock_init cin cout k s p d g use_bias with_bn eps act) x
  = (y <~ run (Deconvolution2D cin cout k s p (negb use_bias) d g) x ;;
     y <~ (if with_bn then run (BatchNormalization cout eps) y else inr y) ;;
     match act with
     | Some a => run (get_activation_layer a) y
     | None => inr y
     end) /\
  ((forall l t, run l t <> inl AttributeError) ->
   DeconvBlock_call run (DeconvBlock_init cin cout k s p d g use_bias with_bn eps act) x
   <> inl AttributeError).
Proof.
  pose proof (DeconvBlock_call_links run cin cout k s p d g use_bias with_bn eps act x)
    as Heq.
  split; [exact Heq|].
  intros Hrun. rewrite Heq. clear Heq.
  destruct (run _ x) as [e|y] eqn:H1; cbn [and_then].
  { intros Hc. injection Hc as ->. exact (Hrun _ _ H1). }
  destruct with_bn.
  - destruct (run _ y) as [e|z] eqn:H2; cbn [and_then].
    { intros Hc. injection Hc as ->. exact (Hrun _ _ H2). }
    destruct act as [a|]; [apply Hrun|discriminate].
  - cbn [and_then]. destruct act as [a|]; [apply Hrun|discriminate].
Qed.

(** ** Shapes through the decoder *)

Section Shapes.

Variable run : link -> list Z -> attempt (list Z).

(** The shape rules of the links, for inputs of the right number of
    channels. *)
Hypothesis run_deconvolution :
  forall cin cout k s p nobias d n h w,
    0 < get_deconv_outsize h k s p d -> 0 < get_deconv_outsize w k s p d ->
    run (Deconvolution2D cin cout k s p nobias d 1) [n; cin; h; w]
    = inr [n; cout; get_deconv_outsize h k s p d; get_deconv_outsize w k s p d].
Hypothesis run_normalization :
  forall size eps n rest,
    run (BatchNormalization size eps) (n :: size :: rest) = inr (n :: size :: rest).
Hypothesis run_activation :
  forall a shp, run (get_activation_layer a) shp = inr shp.
Hypothesis run_conv1x1 :
  forall cin cout use_bias n h w,
    run (conv1x1 cin cout use_bias) [n; cin; h; w] = inr [n; cout; h; w].

(** A unit of the decoder doubles height and width. *)
Lemma unit_doubles (cin cout n h w : Z) :
  0 < h -> 0 < w ->
  DeconvBlock_call run (DeconvBlock_default cin cout 4 2 1) [n; cin; h; w]
  = inr [n; cout; 2 * h; 2 * w].
Proof.
  intros Hh Hw.
  unfold DeconvBlock_default. rewrite DeconvBlock_call_links.
  assert (Ho : forall z, get_deconv_outsize z 4 2 1 1 = 2 * z)
    by (intros z; unfold get_deconv_outsize; lia).
  rewrite run_deconvolution by (rewrite Ho; lia). cbn [and_then].
  rewrite run_normalization. cbn [and_then].
  rewrite run_activation, !Ho. reflexivity.
Qed.

Lemma sequential_call_cons {A T} (call : A -> T -> attempt T) (p : string * A)
    (seq : sequential A) (x y : T) :
  call p.2 x = inr y ->
  sequential_call call (p :: seq) x = sequential_call call seq y.
Proof. intros H. unfold sequential_call. cbn [foldl and_then]. rewrite H. reflexivity. Qed.

Lemma units_from_shape (cs : list Z) (i cin n h w : Z) :
  0 < h -> 0 < w ->
  sequential_call (DeconvBlock_call run) (units_from i cin cs) [n; cin; h; w]
  = inr [n; default cin (last cs);
         2 ^ Z.of_nat (length cs) * h; 2 ^ Z.of_nat (length cs) * w].
Proof.
  revert i cin h w. induction cs as [|c cs IH]; intros i cin h w Hh Hw.
  - cbn. rewrite !Z.mul_1_l. reflexivity.
  - cbn [units_from].
    rewrite (sequential_call_cons (DeconvBlock_call run)
               ("unit" +:+ pretty (i + 1), DeconvBlock_default cin c 4 2 1) _ _ _
               (unit_doubles cin c n h w Hh Hw)).
    rewrite IH by lia. rewrite last_cons_default. cbn [default from_option length].
    rewrite Nat2Z.inj_succ, Z.pow_succ_r by lia.
    unfold id. f_equal. f_equal. f_equal. f_equal; [ring|f_equal; ring].
Qed.

(** X9. If the links follow Chainer's shape rules, the decoder and the
    final block of an object [__init__] returned map a feature map of
    [backbone_out_channels] channels and size [h x w] to a heatmap of
    [keypoints] channels and size [2^m h x 2^m w], [m] being the number of
    decoder units: eight times the size for the three units of
    [get_simplepose]. *)
Theorem SimplePose_heatmap_shape {Backbone} (construct : link -> option py_exn)
    (b : Backbone) (boc : Z) (channels : list Z) (rh : bool) (in_channels : Z)
    (in_size : Z * Z) (kp n h w : Z) (net : SimplePoseNet Backbone) :
  SimplePose_new construct b boc channels rh in_channels in_size kp = inr net ->
  0 < h -> 0 < w ->
  (x <~ sequential_call (DeconvBlock_call run) (decoder net) [n; boc; h; w] ;;
   run (final_block net) x)
  = inr [n; kp; 2 ^ Z.of_nat (length channels) * h;
                2 ^ Z.of_nat (length channels) * w] /\
  (length channels = 3%nat ->
   (x <~ sequential_call (DeconvBlock_call run) (decoder net) [n; boc; h; w] ;;
    run (final_block net) x)
   = inr [n; kp; 8 * h; 8 * w]).
Proof.
  intros Hnew Hh Hw.
  destruct (SimplePose_new_inr _ _ _ _ _ _ _ _ _ Hnew) as (_ & _ & ->).
  cbn [decoder final_block].
  rewrite units_from_shape by assumption. cbn [and_then].
  rewrite run_conv1x1. split; [reflexivity|].
  intros ->. reflexivity.
Qed.

End Shapes.

Lemma SimplePose_heatmap_shape_witness :
  SimplePose_new example_construct tt 512 [256; 256; 256] false 3 (256, 192) 17
  = inr example_net /\
  (x <~ sequential_call (DeconvBlock_call shape_rules) (decoder example_net)
          [14; 512; 8; 6] ;;
   shape_rules (final_block example_net) x)
  = inr [14; 17; 2 ^ Z.of_nat (length [256; 256; 256]) * 8;
                 2 ^ Z.of_nat (length [256; 256; 256]) * 6] /\
  (length [256; 256; 256] = 3%nat ->
   (x <~ sequential_call (DeconvBlock_call shape_rules) (decoder example_net)
           [14; 512; 8; 6] ;;
    shape_rules (final_block example_net) x)
   = inr [14; 17; 8 * 8; 8 * 6]).
Proof.
  split; [vm_compute; reflexivity|].
  apply (SimplePose_heatmap_shape shape_rules) with (construct := example_construct)
    (b := tt) (rh := false) (in_channels := 3) (in_size := (256, 192)).
  - intros. cbn. rewrite Z.eqb_refl. reflexivity.
  - intros. cbn. rewrite Z.eqb_refl. reflexivity.
  - intros. reflexivity.
  - intros. cbn. rewrite Z.eqb_refl. reflexivity.
  - vm_compute. reflexivity.
  - lia.
  - lia.
Defined.

(** ** [get_simplepose] and the named models *)

(** X10. [get_simplepose] builds the network with three decoder units
    of 256 channels before it looks at [pretrained]: an exception of
    [SimplePose(...)], such as the [AssertionError] of a wrong
    [in_channels] or the exception of a link that cannot be constructed,
    is raised whatever [model_name] and [pretrained] are. When the
    network is built: without [pretrained] it is returned and the model
    store is never consulted, whatever [model_name] is; with [pretrained]
    and a [model_name] that is [None] or empty the call raises
    [ValueError], and with a name it loads the file the store gives for
    that name into the network. *)
Theorem get_simplepose_pretrained {Stage} (construct : link -> option py_exn)
    (get_model_file : string -> string -> attempt string)
    (load_npz : string -> SimplePoseNet (sequential Stage)
                -> attempt (SimplePoseNet (sequential Stage)))
    (b : sequential Stage) (boc kp : Z) (root : string) (kw : kwargs) :
  let new := SimplePose_new construct b boc [256; 256; 256]
               (default false (kw_return_heatmap kw))
               (default 3 (kw_in_channels kw))
               (default (256, 192) (kw_in_size kw)) kp in
  (default 3 (kw_in_channels kw) <> 3 -> new = inl (Library AssertionError)) /\
  (forall e, new = inl e ->
     forall model_name pretrained,
       get_simplepose construct get_model_file load_npz b boc kp model_name
         pretrained root kw
       = inl e) /\
  (forall net, new = inr net ->
     (forall model_name,
        get_simplepose construct get_model_file load_npz b boc kp model_name
          false root kw
        = inr net) /\
     get_simplepose construct get_model_file load_npz b boc kp None true root kw
     = inl (Library ValueError) /\
     get_simplepose construct get_model_file load_npz b boc kp (Some "") true root kw
     = inl (Library ValueError) /\
     (forall name, name <> "" ->
        get_simplepose construct get_model_file load_npz b boc kp (Some name)
          true root kw
        = (file <~ get_model_file name root ;; load_npz file net))).
Proof.
  intros new. split; [apply SimplePose_new_assert|].
  unfold get_simplepose. cbv zeta. fold new. split.
  - intros e -> model_name pretrained. reflexivity.
  - intros net ->. cbn [and_then].
    split; [reflexivity|]. split; [reflexivity|]. split; [reflexivity|].
    intros name Hname. unfold str_bool.
    destruct (String.eqb_spec name "") as [->|_]; [contradiction|reflexivity].
Qed.

(** The body the named models share. *)
Lemma simplepose_model_spec {Stage} (construct : link -> option py_exn)
    (get_model_file : string -> string -> attempt string)
    (load_npz : string -> SimplePoseNet (sequential Stage)
                -> attempt (SimplePoseNet (sequential Stage)))
    (features : bool -> attempt (sequential Stage)) (boc : Z) (name : string)
    (pb : bool) (kp : Z) (kw : model_kwargs) :
  name <> "" ->
  (forall e, features pb = inl e ->
     simplepose_model construct get_model_file load_npz features boc name pb kp kw
     = inl e) /\
  (forall f, features pb = inr f ->
     ("final_pool" ∉ f.*1 ->
      simplepose_model construct get_model_file load_npz features boc name pb kp kw
      = inl AttributeError) /\
     ("final_pool" ∈ f.*1 ->
      let new := SimplePose_new construct (filter (fun p => p.1 <> "final_pool") f)
                   boc [256; 256; 256]
                   (default false (kw_return_heatmap (kw_net kw)))
                   (default 3 (kw_in_channels (kw_net kw)))
                   (default (256, 192) (kw_in_size (kw_net kw))) kp in
      (forall e, new = inl e ->
         simplepose_model construct get_model_file load_npz features boc name pb kp kw
         = inl e) /\
      (forall net, new = inr net ->
         backbone net = filter (fun p => p.1 <> "final_pool") f /\
         ("final_pool" ∉ (backbone net).*1) /\
         attributes net
         = SimplePose_init (default false (kw_return_heatmap (kw_net kw)))
             (default (256, 192) (kw_in_size (kw_net kw))) kp /\
         (decoder net).*2
         = [DeconvBlock_default boc 256 4 2 1; DeconvBlock_default 256 256 4 2 1;
            DeconvBlock_default 256 256 4 2 1] /\
         final_block net = conv1x1 256 kp true /\
         (default false (kw_pretrained kw) = false ->
          simplepose_model construct get_model_file load_npz features boc name pb kp kw
          = inr net) /\
         (default false (kw_pretrained kw) = true ->
          simplepose_model construct get_model_file load_npz features boc name pb kp kw
          = (file <~ get_model_file name (default default_root (kw_root kw)) ;;
             load_npz file net))))).
Proof.
  intros Hname. unfold simplepose_model. split.
  { intros e ->. reflexivity. }
  intros f ->. cbn [and_then]. unfold delattr. split; intros Hpool.
  { rewrite bool_decide_eq_false_2 by exact Hpool. reflexivity. }
  rewrite bool_decide_eq_true_2 by exact Hpool. cbn [and_then].
  unfold get_simplepose. cbv zeta.
  set (new := SimplePose_new construct _ _ _ _ _ _ _). split.
  { intros e He. rewrite He. reflexivity. }
  intros net Hnet. rewrite Hnet. cbn [and_then].
  destruct (SimplePose_new_inr _ _ _ _ _ _ _ _ _ Hnet) as (_ & _ & ->).
  cbn [backbone attributes decoder final_block].
  split; [reflexivity|].
  split.
  { intros Hmem.
    apply list_elem_of_fmap in Hmem as (p & Hp & Hmem).
    apply list_elem_of_filter in Hmem as [Hne _]. congruence. }
  split; [reflexivity|]. split; [reflexivity|]. split; [reflexivity|].
  split; intros ->; [reflexivity|].
  unfold str_bool.
  destruct (String.eqb_spec name "") as [->|_]; [contradiction|reflexivity].
Qed.

(** X11. The seven models of the list [models], each with its own
    backbone, number of backbone channels and name: the model takes the
    features of that backbone (an exception of the backbone is raised
    on), drops [final_pool] from them, keeping the other stages in
    order, and raises [AttributeError] if there is no such stage. It
    then calls [SimplePose(...)] on these features with that number of
    channels and three decoder units of 256 channels; an exception of
    this call is raised on. The network has a final block of [keypoints]
    channels and is returned as it is without [pretrained]; with
    [pretrained] the file stored under the model's own, non-empty name is
    loaded into it: the [ValueError] of [get_simplepose] cannot occur. *)
Theorem models_spec {Stage} (construct : link -> option py_exn)
    (get_model_file : string -> string -> attempt string)
    (load_npz : string -> SimplePoseNet (sequential Stage)
                -> attempt (SimplePoseNet (sequential Stage)))
    (resnet18 resnet50b resnet101b resnet152b resneta50b resneta101b
       resneta152b : bool -> attempt (sequential Stage))
    (model : bool -> Z -> model_kwargs -> attempt (SimplePoseNet (sequential Stage)))
    (features : bool -> attempt (sequential Stage)) (boc : Z) (name : string) :
  (model, features, boc, name)
  ∈ [(simplepose_resnet18_coco construct get_model_file load_npz resnet18,
      resnet18, 512, "simplepose_resnet18_coco");
     (simplepose_resnet50b_coco construct get_model_file load_npz resnet50b,
      resnet50b, 2048, "simplepose_resnet50b_coco");
     (simplepose_resnet101b_coco construct get_model_file load_npz resnet101b,
      resnet101b, 2048, "simplepose_resnet101b_coco");
     (simplepose_resnet152b_coco construct get_model_file load_npz resnet152b,
      resnet152b, 2048, "simplepose_resnet152b_coco");
     (simplepose_resneta50b_coco construct get_model_file load_npz resneta50b,
      resneta50b, 2048, "simplepose_resneta50b_coco");
     (simplepose_resneta101b_coco construct get_model_file load_npz resneta101b,
      resneta101b, 2048, "simplepose_resneta101b_coco");
     (simplepose_resneta152b_coco construct get_model_file load_npz resneta152b,
      resneta152b, 2048, "simplepose_resneta152b_coco")] ->
  model ∈ models construct get_model_file load_npz resnet18 resnet50b resnet101b
            resnet152b resneta50b resneta101b resneta152b /\
  name <> "" /\
  forall pb kp kw,
    (forall e, features pb = inl e -> model pb kp kw = inl e) /\
    (forall f, features pb = inr f ->
       ("final_pool" ∉ f.*1 -> model pb kp kw = inl AttributeError) /\
       ("final_pool" ∈ f.*1 ->
        let new := SimplePose_new construct
                     (filter (fun p => p.1 <> "final_pool") f)
                     boc [256; 256; 256]
                     (default false (kw_return_heatmap (kw_net kw)))
                     (default 3 (kw_in_channels (kw_net kw)))
                     (default (256, 192) (kw_in_size (kw_net kw))) kp in
        (forall e, new = inl e -> model pb kp kw = inl e) /\
        (forall net, new = inr net ->
           backbone net = filter (fun p => p.1 <> "final_pool") f /\
           ("final_pool" ∉ (backbone net).*1) /\
           attributes net
           = SimplePose_init (default false (kw_return_heatmap (kw_net kw)))
               (default (256, 192) (kw_in_size (kw_net kw))) kp /\
           (decoder net).*2
           = [DeconvBlock_default boc 256 4 2 1; DeconvBlock_default 256 256 4 2 1;
              DeconvBlock_default 256 256 4 2 1] /\
           final_block net = conv1x1 256 kp true /\
           (default false (kw_pretrained kw) = false -> model pb kp kw = inr net) /\
           (default false (kw_pretrained kw) = true ->
            model pb kp kw
            = (file <~ get_model_file name (default default_root (kw_root kw)) ;;
               load_npz file net))))).
Proof.
  intros Hin.
  repeat (apply elem_of_cons in Hin as [[= -> -> -> ->]|Hin]); [..|inversion Hin].
  all: split; [unfold models; set_solver|].
  all: split; [discriminate|].
  all: intros pb kp kw.
  all: unfold simplepose_resnet18_coco, simplepose_resnet50b_coco,
         simplepose_resnet101b_coco, simplepose_resnet152b_coco,
         simplepose_resneta50b_coco, simplepose_resneta101b_coco,
         simplepose_resneta152b_coco.
  all: apply simplepose_model_spec; discriminate.
Qed.

Lemma models_spec_witness :
  let model := simplepose_resnet50b_coco example_construct example_get_model_file
                 example_load_npz (example_features "resnet50b") in
  let features := example_features "resnet50b" in
  model ∈ models example_construct example_get_model_file example_load_npz
            (example_features "resnet18") (example_features "resnet50b")
            (example_features "resnet101b") (example_features "resnet152b")
            (example_features "resneta50b") (example_features "resneta101b")
            (example_features "resneta152b") /\
  "simplepose_resnet50b_coco" <> "" /\
  forall pb kp kw,
    (forall e, features pb = inl e -> model pb kp kw = inl e) /\
    (forall f, features pb = inr f ->
       ("final_pool" ∉ f.*1 -> model pb kp kw = inl AttributeError) /\
       ("final_pool" ∈ f.*1 ->
        let new := SimplePose_new example_construct
                     (filter (fun p => p.1 <> "final_pool") f)
                     2048 [256; 256; 256]
                     (default false (kw_return_heatmap (kw_net kw)))
                     (default 3 (kw_in_channels (kw_net kw)))
                     (default (256, 192) (kw_in_size (kw_net kw))) kp in
        (forall e, new = inl e -> model pb kp kw = inl e) /\
        (forall net, new = inr net ->
           backbone net = filter (fun p => p.1 <> "final_pool") f /\
           ("final_pool" ∉ (backbone net).*1) /\
           attributes net
           = SimplePose_init (default false (kw_return_heatmap (kw_net kw)))
               (default (256, 192) (kw_in_size (kw_net kw))) kp /\
           (decoder net).*2
           = [DeconvBlock_default 2048 256 4 2 1; DeconvBlock_default 256 256 4 2 1;
              DeconvBlock_default 256 256 4 2 1] /\
           final_block net = conv1x1 256 kp true /\
           (default false (kw_pretrained kw) = false -> model pb kp kw = inr net) /\
           (default false (kw_pretrained kw) = true ->
            model pb kp kw
            = (file <~ example_get_model_file "simplepose_resnet50b_coco"
                         (default default_root (kw_root kw)) ;;
               example_load_npz file net))))).
Proof.
  apply (models_spec example_construct example_get_model_file example_load_npz
           (example_features "resnet18") (example_features "resnet50b")
           (example_features "resnet101b") (example_features "resnet152b")
           (example_features "resneta50b") (example_features "resneta101b")
           (example_features "resneta152b")).
  apply list_elem_of_further, list_elem_of_here.
Defined.
